(** * n8n-nodes-sap-ai-core: tool mediation and orchestration

    A shallow embedding of the TypeScript sources
      - utils/schemaParsing.ts   (schema simplification),
      - utils/helpers.ts         (tool discovery, brace escaping),
      - utils/logWrapper.ts      (call interception),
      - nodes/SapAiCoreChatModel/n8n*FailedAttemptHandler.ts,
      - the tool-calling part of SapAiCoreLlm.execute,
    followed by the properties the specification states about them. *)

From Stdlib Require Import ZArith List Ascii String Bool Lia.
From stdpp Require Import base decidable option list strings gmap pretty.

Set Warnings "-register-all".
Set Warnings "-notation-incompatible-prefix".

Local Open Scope Z_scope.
Local Open Scope string_scope.
Local Open Scope list_scope.

(* ===================================================================== *)
(** * Part I: the embedding                                               *)
(* ===================================================================== *)

(** ** JavaScript values

    The data the modelled functions inspect: JSON data, [undefined], and
    function values (which only matter through [typeof] and truthiness).
    An object is the ordered list of its own enumerable properties, in
    the order [Object.entries] yields them.  Numbers are integers: the
    code below only tests them for truthiness and membership in a table
    of status codes. *)
Module Js.

Unset Elimination Schemes.
Inductive Val : Type :=
| VUndefined
| VNull
| VBool (b : bool)
| VNum (n : Z)
| VStr (s : string)
| VFun (id : nat)
| VArr (items : list Val)
| VObj (fields : list (string * Val)).
Set Elimination Schemes.

(** [!!v] *)
Definition truthy (v : Val) : bool :=
  match v with
  | VUndefined | VNull => false
  | VBool b => b
  | VNum n => negb (n =? 0)%Z
  | VStr s => negb (String.eqb s "")
  | VFun _ | VArr _ | VObj _ => true
  end.

Inductive TypeTag := TUndefined | TObject | TBoolean | TNumber | TString | TFunction.

(** [typeof v] *)
Definition typeof (v : Val) : TypeTag :=
  match v with
  | VUndefined => TUndefined
  | VNull | VArr _ | VObj _ => TObject
  | VBool _ => TBoolean
  | VNum _ => TNumber
  | VStr _ => TString
  | VFun _ => TFunction
  end.

Definition is_object_type (v : Val) : bool :=
  match typeof v with TObject => true | _ => false end.

(** *** Property lists *)

Fixpoint lookup (k : string) (o : list (string * Val)) : option Val :=
  match o with
  | [] => None
  | (k', v) :: rest => if String.eqb k k' then Some v else lookup k rest
  end.

Definition has_key (k : string) (o : list (string * Val)) : bool :=
  match lookup k o with Some _ => true | None => false end.

(** [delete o[k]] *)
Fixpoint delete (k : string) (o : list (string * Val)) : list (string * Val) :=
  match o with
  | [] => []
  | (k', v) :: rest =>
      if String.eqb k k' then delete k rest else (k', v) :: delete k rest
  end.

(** [o[k] = v]: an existing key keeps its place, a new one goes last. *)
Fixpoint replace_value (k : string) (v : Val) (o : list (string * Val))
  : list (string * Val) :=
  match o with
  | [] => []
  | (k', v') :: rest =>
      (k', if String.eqb k k' then v else v') :: replace_value k v rest
  end.

Definition set (k : string) (v : Val) (o : list (string * Val))
  : list (string * Val) :=
  if has_key k o then replace_value k v o else o ++ [(k, v)].

(** Decimal index keys ["0"], ["1"], ... of an array's elements. *)
Fixpoint indexed_from (i : nat) (l : list Val) : list (string * Val) :=
  match l with
  | [] => []
  | x :: rest => (pretty i, x) :: indexed_from (S i) rest
  end.

Definition string_chars (s : string) : list Val :=
  map (fun c => VStr (String c EmptyString)) (list_ascii_of_string s).

(** [Object.entries(v)] for a value that is neither [null] nor
    [undefined]: own enumerable string-keyed properties. *)
Definition entries (v : Val) : list (string * Val) :=
  match v with
  | VObj fields => fields
  | VArr items => indexed_from 0 items
  | VStr s => indexed_from 0 (string_chars s)
  | _ => []
  end.

(** [{ ...v }] *)
Definition spread (v : Val) : list (string * Val) := entries v.

(** [v[k]] for the property names the code reads ([name],
    [description], [func], [properties], [status], ...).  The built-in
    members of strings, arrays and functions are not modelled: there the
    read yields [undefined]. *)
Definition get (k : string) (v : Val) : Val :=
  match v with
  | VObj fields => default VUndefined (lookup k fields)
  | _ => VUndefined
  end.

(** *** Conversions to strings *)

Definition hex_digit (n : N) : ascii :=
  match n with
  | 0 => "0" | 1 => "1" | 2 => "2" | 3 => "3" | 4 => "4" | 5 => "5"
  | 6 => "6" | 7 => "7" | 8 => "8" | 9 => "9" | 10 => "a" | 11 => "b"
  | 12 => "c" | 13 => "d" | 14 => "e" | _ => "f"
  end%N%char.

Definition dquote : ascii := ascii_of_nat 34.
Definition backslash : ascii := ascii_of_nat 92.

(** The escape [JSON.stringify] writes for one character of a string. *)
Definition json_escape_char (c : ascii) : string :=
  let n := N_of_ascii c in
  if (n =? 34)%N then String backslash (String dquote "") else
  if (n =? 92)%N then String backslash (String backslash "") else
  if (n =? 8)%N then String backslash "b" else
  if (n =? 9)%N then String backslash "t" else
  if (n =? 10)%N then String backslash "n" else
  if (n =? 12)%N then String backslash "f" else
  if (n =? 13)%N then String backslash "r" else
  if (n <? 32)%N
  then String backslash
         ("u00" +:+ String (hex_digit (n / 16)) (String (hex_digit (n mod 16)) ""))
  else String c "".

Definition json_quote (s : string) : string :=
  String dquote
    (String.concat "" (map json_escape_char (list_ascii_of_string s))
     +:+ String dquote "").

(** [JSON.stringify(v)]; [None] is the [undefined] it returns for
    [undefined] and for functions.  Inside an array such a member is
    written [null], inside an object its key is left out. *)
Fixpoint JSON_stringify (v : Val) : option string :=
  match v with
  | VUndefined | VFun _ => None
  | VNull => Some "null"
  | VBool b => Some (if b then "true" else "false")
  | VNum n => Some (pretty n)
  | VStr s => Some (json_quote s)
  | VArr items =>
      Some ("[" +:+ String.concat ","
                      ((fix go (l : list Val) : list string :=
                          match l with
                          | [] => []
                          | x :: rest => default "null" (JSON_stringify x) :: go rest
                          end) items) +:+ "]")
  | VObj fields =>
      Some ("{" +:+ String.concat ","
                      ((fix go (fs : list (string * Val)) : list string :=
                          match fs with
                          | [] => []
                          | (k, x) :: rest =>
                              match JSON_stringify x with
                              | Some sx => (json_quote k +:+ ":" +:+ sx) :: go rest
                              | None => go rest
                              end
                          end) fields) +:+ "}")
  end.

(** [String(v)], also what a template literal [`${v}`] inserts.  The
    source text of a function is not modelled. *)
Fixpoint String_ (v : Val) : string :=
  match v with
  | VUndefined => "undefined"
  | VNull => "null"
  | VBool b => if b then "true" else "false"
  | VNum n => pretty n
  | VStr s => s
  | VFun _ => "function () { [native code] }"
  | VArr items =>
      String.concat ","
        ((fix go (l : list Val) : list string :=
            match l with
            | [] => []
            | x :: rest =>
                match x with
                | VUndefined | VNull => ""
                | _ => String_ x
                end :: go rest
            end) items)
  | VObj _ => "[object Object]"
  end.

(** [a === b] on primitives; two distinct objects or arrays are never
    identical, a function is identified by its [id]. *)
Definition strict_eq (a b : Val) : bool :=
  match a, b with
  | VUndefined, VUndefined | VNull, VNull => true
  | VBool x, VBool y => Bool.eqb x y
  | VNum x, VNum y => (x =? y)%Z
  | VStr x, VStr y => String.eqb x y
  | VFun x, VFun y => Nat.eqb x y
  | _, _ => false
  end.

Definition is_string (v : Val) : bool :=
  match v with VStr _ => true | _ => false end.

Definition is_function (v : Val) : bool :=
  match v with VFun _ => true | _ => false end.

(** Whether a key is written with decimal digits only, as the index
    keys of an array are. *)
Definition is_digit (c : ascii) : bool :=
  let n := N_of_ascii c in ((48 <=? n)%N && (n <=? 57)%N)%bool.

Fixpoint all_digits (s : string) : bool :=
  match s with
  | EmptyString => true
  | String c rest => is_digit c && all_digits rest
  end.

End Js.

Import Js.

(** ** Thrown values and the host's structured errors *)
Module Errors.

Inductive StructuredKind := NodeOperationErrorK | NodeApiErrorK.

(** What a [throw] can carry: any JavaScript value ([is_error] records
    [instanceof Error]), or one of n8n-workflow's structured errors,
    given by the members the code reads and by the error it wraps. *)
Inductive Thrown : Type :=
| Raised (is_error : bool) (v : Val)
| Structured (kind : StructuredKind) (message description : Val)
             (functionality : option string) (cause : option Thrown).

Definition kind_name (k : StructuredKind) : string :=
  match k with
  | NodeOperationErrorK => "NodeOperationError"
  | NodeApiErrorK => "NodeApiError"
  end.

(** [e instanceof Error] *)
Definition instanceof_Error (e : Thrown) : bool :=
  match e with
  | Raised b _ => b
  | Structured _ _ _ _ _ => true
  end.

(** [e instanceof NodeOperationError] *)
Definition instanceof_NodeOperationError (e : Thrown) : bool :=
  match e with
  | Structured NodeOperationErrorK _ _ _ _ => true
  | _ => false
  end.

(** [e?.[k]] *)
Definition thrown_get (k : string) (e : Thrown) : Val :=
  match e with
  | Raised _ v => Js.get k v
  | Structured kind message description _ _ =>
      if String.eqb k "message" then message
      else if String.eqb k "description" then description
      else if String.eqb k "name" then VStr (kind_name kind)
      else VUndefined
  end.

(** [String(e)] for a thrown value that is not an [Error]. *)
Definition thrown_String (e : Thrown) : string :=
  match e with
  | Raised _ v => String_ v
  | Structured kind message _ _ _ => kind_name kind +:+ ": " +:+ String_ message
  end.

(** [e instanceof Error ? e.message : String(e)] *)
Definition error_text (e : Thrown) : Val :=
  if instanceof_Error e then thrown_get "message" e else VStr (thrown_String e).

(** [new NodeOperationError(node, text)] with a string argument. *)
Definition NodeOperationError_of_text (text : string) : Thrown :=
  Structured NodeOperationErrorK (VStr text) VUndefined None None.

(** A [TypeError] raised by the runtime. *)
Definition TypeError (message : string) : Thrown :=
  Raised true (VObj [("name", VStr "TypeError"); ("message", VStr message)]).


(** [e.functionality] of a structured error. *)
Definition thrown_functionality (e : Thrown) : option string :=
  match e with
  | Structured _ _ _ functionality _ => functionality
  | Raised _ _ => None
  end.

(** The value a structured error was built from. *)
Definition thrown_cause (e : Thrown) : option Thrown :=
  match e with
  | Structured _ _ _ _ cause => cause
  | Raised _ _ => None
  end.


(** The constructors of n8n-workflow are not part of this repository.
    A constructor call is taken to build a new error of its class
    around the caught value; the texts it starts with are left to the
    library: [operation_message] and [operation_description] for
    [NodeOperationError], [api_message] and [api_description] for
    [NodeApiError]. *)
Record ErrorLib := {
  operation_message : Thrown -> Val;
  operation_description : Thrown -> Val;
}.

Record ApiErrorLib := {
  api_message : Thrown -> Val;
  api_description : Thrown -> Val;
}.

(** [new NodeOperationError(node, e, { functionality })] *)
Definition new_NodeOperationError (lib : ErrorLib) (e : Thrown)
    (functionality : option string) : Thrown :=
  Structured NodeOperationErrorK (operation_message lib e)
    (operation_description lib e) functionality (Some e).

(** [new NodeApiError(node, e, { functionality })] *)
Definition new_NodeApiError (lib : ApiErrorLib) (e : Thrown)
    (functionality : option string) : Thrown :=
  Structured NodeApiErrorK (api_message lib e) (api_description lib e)
    functionality (Some e).

(** The texts of a [NodeOperationError], to run the examples: it takes
    the message of an [Error] (a thrown string is made one first), has
    an empty message for any other value, and starts without a
    description. *)
Definition n8n_workflow : ErrorLib := {|
  operation_message := fun e =>
    if instanceof_Error e then thrown_get "message" e
    else match e with
         | Raised _ (VStr text) => VStr text
         | _ => VStr ""
         end;
  operation_description := fun _ => VUndefined;
|}.

End Errors.

Import Errors.

(** ** utils/schemaParsing.ts *)
Module SchemaParsing.

(** The keywords [simplifySchemaForSapAiCore] deletes, in source order. *)
Definition deleted_keywords : list string :=
  ["$schema"; "$id"; "definitions"; "allOf"; "anyOf"; "oneOf"; "not"].

Definition delete_keywords (o : list (string * Val)) : list (string * Val) :=
  fold_left (fun acc k => Js.delete k acc) deleted_keywords o.

(** [{ type: 'string' }], returned for anything that is not an object. *)
Definition fallback_schema : Val := VObj [("type", VStr "string")].

Fixpoint lookup_child {A} (k : string) (o : list (string * A)) : option A :=
  match o with
  | [] => None
  | (k', v) :: rest => if String.eqb k k' then Some v else lookup_child k rest
  end.

(** [simplifySchemaForSapAiCore(schema)].

    The source recurses into [simplified.properties] and
    [simplified.items] after the deletions.  Neither key is deleted, so
    both are read from the schema's own property list; [children] holds,
    for every own property, the two values the source may compute from
    it ([simplifySchemaForSapAiCore(value)] and the rebuilt
    [newProperties]), which keeps the recursion structural.  The
    equation in source shape is [simplifySchemaForSapAiCore_unfold].

    [newProperties[key] = ...] with the key [__proto__] calls the setter
    of [Object.prototype]: it gives [newProperties] no member of that
    name, so the entry is left out.  (The spread [{ ...schema }] does
    copy such a member.) *)
Fixpoint simplifySchemaForSapAiCore (schema : Val) : Val :=
  let simplify_fields :=
    fix go (fs : list (string * Val)) : list (string * Val) :=
      match fs with
      | [] => []
      | (k, v) :: rest =>
          if String.eqb k "__proto__" then go rest
          else (k, simplifySchemaForSapAiCore v) :: go rest
      end in
  let simplify_items :=
    fix go (i : nat) (l : list Val) : list (string * Val) :=
      match l with
      | [] => []
      | x :: rest => (pretty i, simplifySchemaForSapAiCore x) :: go (S i) rest
      end in
  (* [newProperties], built from [Object.entries(simplified.properties)] *)
  let new_properties (p : Val) : Val :=
    match p with
    | VObj fs => VObj (simplify_fields fs)
    | VArr l => VObj (simplify_items 0%nat l)
    | VStr s => VObj (map (fun kv => (fst kv, fallback_schema)) (entries (VStr s)))
    | _ => VObj []
    end in
  match schema with
  | VObj fields =>
      let children :=
        (fix go (fs : list (string * Val)) : list (string * (Val * Val)) :=
           match fs with
           | [] => []
           | (k, v) :: rest =>
               (k, (simplifySchemaForSapAiCore v, new_properties v)) :: go rest
           end) fields in
      let simplified := delete_keywords fields in
      let simplified :=
        match Js.lookup "properties" simplified, lookup_child "properties" children with
        | Some p, Some (_, newProperties) =>
            if truthy p
            then Js.set "properties" newProperties simplified
            else simplified
        | _, _ => simplified
        end in
      let simplified :=
        match Js.lookup "items" simplified, lookup_child "items" children with
        | Some it, Some (simplified_items, _) =>
            if truthy it
            then Js.set "items" simplified_items simplified
            else simplified
        | _, _ => simplified
        end in
      VObj simplified
  | VArr items =>
      (* the spread of an array has index keys only: nothing to delete,
         no [properties], no [items] *)
      VObj (spread (VArr items))
  | _ => fallback_schema
  end.

(** The entries a loop of assignments [result[key] = ...] gives the
    fresh object [result]: every one but [__proto__], whose assignment
    creates no member. *)
Definition assigned (es : list (string * Val)) : list (string * Val) :=
  List.filter (fun kv => negb (String.eqb (fst kv) "__proto__")) es.

(** [newProperties] as a function of [simplified.properties]. *)
Definition new_properties (p : Val) : Val :=
  match p with
  | VUndefined | VNull => VObj []
  | _ => VObj (map (fun kv => (fst kv, simplifySchemaForSapAiCore (snd kv)))
                 (assigned (entries p)))
  end.

(** [JSON.parse(JSON.stringify(v))] for a member or element [v]:
    [None] when [JSON.stringify] has nothing to write for it
    ([undefined], a function).  Such an element of an array comes back
    as [null], such a member of an object is dropped. *)
Fixpoint json_copy (v : Val) : option Val :=
  match v with
  | VUndefined | VFun _ => None
  | VNull | VBool _ | VNum _ | VStr _ => Some v
  | VArr elements =>
      Some (VArr ((fix go (l : list Val) : list Val :=
                     match l with
                     | [] => []
                     | x :: rest => default VNull (json_copy x) :: go rest
                     end) elements))
  | VObj fields =>
      Some (VObj ((fix go (fs : list (string * Val)) : list (string * Val) :=
                     match fs with
                     | [] => []
                     | (k, x) :: rest =>
                         match json_copy x with
                         | Some y => (k, y) :: go rest
                         | None => go rest
                         end
                     end) fields))
  end.

(** The local function [removeRefs] of [sanitizeSchema].  A member
    named [__proto__] (as [JSON.parse] creates it) is lost as well:
    [result[key] = ...] calls the prototype setter for it and defines
    no member. *)
Fixpoint removeRefs (obj : Val) : Val :=
  match obj with
  | VArr items => VArr (map removeRefs items)
  | VObj fields =>
      VObj ((fix go (fs : list (string * Val)) : list (string * Val) :=
               match fs with
               | [] => []
               | (k, v) :: rest =>
                   if String.eqb k "$ref" then go rest
                   else if String.eqb k "__proto__" then go rest
                   else (k, removeRefs v) :: go rest
               end) fields)
  | _ => obj
  end.

(** [sanitizeSchema(schema)].  [JSON.parse] throws on the [undefined]
    that [JSON.stringify] returns for [undefined] and for a function. *)
Definition sanitizeSchema (schema : Val) : Thrown + Val :=
  match json_copy schema with
  | Some sanitized => inr (removeRefs sanitized)
  | None =>
      inl (Raised true
             (VObj [("name", VStr "SyntaxError");
                    ("message", VStr "Unexpected token u in JSON at position 0")]))
  end.

(** [if (simplified[k]) simplified[k] = f(simplified[k])] *)
Definition assign_if_truthy (k : string) (f : Val -> Val)
    (simplified : list (string * Val)) : list (string * Val) :=
  match Js.lookup k simplified with
  | Some x => if truthy x then Js.set k (f x) simplified else simplified
  | None => simplified
  end.

(** *** What "contains none of the keys" means

    A schema node is the root, the schema of a property (a value of the
    node's [properties] object), the node's [items], or an element of an
    [items] list.  [KeywordFree K v]: no schema node of [v] has a member
    named in [K]. *)
Inductive KeywordFree (K : list string) : Val -> Prop :=
| kf_object fields :
    (forall k, In k K -> Js.lookup k fields = None) ->
    (forall ps, Js.lookup "properties" fields = Some (VObj ps) ->
                forall k s, In (k, s) ps -> KeywordFree K s) ->
    (forall it, Js.lookup "items" fields = Some it -> KeywordFree K it) ->
    KeywordFree K (VObj fields)
| kf_array elements :
    Forall (KeywordFree K) elements -> KeywordFree K (VArr elements)
| kf_undefined : KeywordFree K VUndefined
| kf_null : KeywordFree K VNull
| kf_bool b : KeywordFree K (VBool b)
| kf_num n : KeywordFree K (VNum n)
| kf_str s : KeywordFree K (VStr s)
| kf_fun i : KeywordFree K (VFun i).

(** [mentions k v]: some object anywhere inside [v], at any depth and
    under any key, has a member named [k]. *)
Fixpoint mentions (k : string) (v : Val) : bool :=
  match v with
  | VArr elements =>
      (fix go (l : list Val) : bool :=
         match l with
         | [] => false
         | x :: rest => mentions k x || go rest
         end) elements
  | VObj fields =>
      (fix go (fs : list (string * Val)) : bool :=
         match fs with
         | [] => false
         | (k', x) :: rest => String.eqb k k' || mentions k x || go rest
         end) fields
  | _ => false
  end.

(** The keywords the specification lists. *)
Definition unsupported_keywords : list string :=
  ["$schema"; "$id"; "definitions"; "allOf"; "anyOf"; "oneOf"; "not"; "$ref"].

(** Every keyword of [K] is one the function deletes or one its input
    does not mention. *)
Definition gone (K : list string) (v : Val) : Prop :=
  forall k, In k K -> In k deleted_keywords \/ mentions k v = false.

(** A tool schema that refers to a shared definition. *)
Definition address_schema : Val :=
  VObj [("type", VStr "object");
        ("properties",
         VObj [("home", VObj [("$ref", VStr "#/definitions/address")])]);
        ("definitions",
         VObj [("address", VObj [("type", VStr "string")])])].

End SchemaParsing.



Import SchemaParsing.


(** ** utils/helpers.ts *)
Module Helpers.

(** *** escapeSingleCurlyBrackets *)

Definition is_char (c : ascii) (x : ascii) : bool := Ascii.eqb c x.

Definition opt_is_char (c : ascii) (x : option ascii) : bool :=
  match x with Some y => Ascii.eqb c y | None => false end.

(** [text.replace(/(?<!c)ccc(?!c)/g, "cccc")], scanning left to right;
    [prev] is the character before the current position. *)
Fixpoint replace_triple (c : ascii) (prev : option ascii) (s : list ascii)
  : list ascii :=
  match s with
  | [] => []
  | x :: t =>
      match t with
      | y :: z :: u =>
          if is_char c x && is_char c y && is_char c z
             && negb (opt_is_char c prev) && negb (opt_is_char c (head u))
          then c :: c :: c :: c :: replace_triple c (Some z) u
          else x :: replace_triple c (Some x) t
      | _ => x :: replace_triple c (Some x) t
      end
  end.

(** [text.replace(/(?<!c)c(?!c)/g, "cc")] *)
Fixpoint replace_single (c : ascii) (prev : option ascii) (s : list ascii)
  : list ascii :=
  match s with
  | [] => []
  | x :: t =>
      if is_char c x && negb (opt_is_char c prev) && negb (opt_is_char c (head t))
      then c :: c :: replace_single c (Some x) t
      else x :: replace_single c (Some x) t
  end.

Definition lbrace : ascii := "{"%char.
Definition rbrace : ascii := "}"%char.

(** The four chained replacements, on the characters of [text]. *)
Definition escape_chars (s : list ascii) : list ascii :=
  replace_single rbrace None
    (replace_single lbrace None
       (replace_triple rbrace None
          (replace_triple lbrace None s))).

Definition escape_text (text : string) : string :=
  string_of_list_ascii (escape_chars (list_ascii_of_string text)).

(** [escapeSingleCurlyBrackets(text)]; [None] is [undefined]. *)
Definition escapeSingleCurlyBrackets (text : option string) : option string :=
  match text with
  | None => None
  | Some t => Some (escape_text t)
  end.

(** The test [replace_triple] makes at the head of [s]. *)
Definition triple_at (c : ascii) (prev : option ascii) (s : list ascii) : bool :=
  match s with
  | x :: y :: z :: u =>
      is_char c x && is_char c y && is_char c z
      && negb (opt_is_char c prev) && negb (opt_is_char c (head u))
  | _ => false
  end.

(** The test [replace_single] makes at the head of [s]. *)
Definition single_at (c : ascii) (prev : option ascii) (s : list ascii) : bool :=
  match s with
  | x :: t => is_char c x && negb (opt_is_char c prev) && negb (opt_is_char c (head t))
  | [] => false
  end.

Definition first_char (text : string) : option ascii :=
  head (list_ascii_of_string text).

Definition last_char (text : string) : option ascii :=
  last (list_ascii_of_string text).

(** The character before the position that follows [a]. *)
Definition last_or (prev : option ascii) (a : list ascii) : option ascii :=
  match last a with Some x => Some x | None => prev end.

(** *** Connected tools *)

(** A tool-like value handed over by the host.  The two classes the code
    tests with [instanceof] are kept apart; every other value (primitives,
    arrays, object literals, instances of foreign classes) is a [Value],
    whose property list holds what a property read returns. *)
Inductive Candidate : Type :=
| Value (v : Val)
| N8nToolObject (name description func : Val)
| DynamicToolObject (name description func : Val)
| ToolkitObject (tools : list Candidate).

Definition cand_truthy (c : Candidate) : bool :=
  match c with Value v => truthy v | _ => true end.

Definition cand_is_object (c : Candidate) : bool :=
  match c with Value v => is_object_type v | _ => true end.

(** [tool[k]] *)
Definition cand_get (k : string) (c : Candidate) : Val :=
  match c with
  | Value v => Js.get k v
  | N8nToolObject name description func =>
      if String.eqb k "name" then name
      else if String.eqb k "description" then description
      else if String.eqb k "func" then func
      else VUndefined
  | DynamicToolObject name description func =>
      if String.eqb k "name" then name
      else if String.eqb k "description" then description
      else if String.eqb k "func" then func
      else if String.eqb k "call" then VFun 1
      else if String.eqb k "_call" then VFun 2
      else if String.eqb k "invoke" then VFun 3
      else VUndefined
  | ToolkitObject _ => VUndefined
  end.

(** [tool.description = d] *)
Definition set_description (d : Val) (c : Candidate) : Candidate :=
  match c with
  | Value (VObj fields) => Value (VObj (Js.set "description" d fields))
  | N8nToolObject name _ func => N8nToolObject name d func
  | DynamicToolObject name _ func => DynamicToolObject name d func
  | _ => c
  end.

Definition instanceof_N8nTool (c : Candidate) : bool :=
  match c with N8nToolObject _ _ _ => true | _ => false end.

(** [N8nTool.asDynamicTool()]: [this.func.bind(this)] needs a function. *)
Definition asDynamicTool (c : Candidate) : Thrown + Candidate :=
  match c with
  | N8nToolObject name description func =>
      match func with
      | VFun _ => inr (DynamicToolObject name description func)
      | VUndefined =>
          inl (TypeError "Cannot read properties of undefined (reading 'bind')")
      | VNull =>
          inl (TypeError "Cannot read properties of null (reading 'bind')")
      | _ => inl (TypeError "this.func.bind is not a function")
      end
  | _ => inl (TypeError "tool.asDynamicTool is not a function")
  end.

(** The telemetry sink: [logAiEvent(ctx, event, data)] catches whatever
    the host raises, so it only ever appends a record. *)
Record AiEvent := { event_name : string; event_data : Val }.

(** What [ctx.getInputConnectionData(AiTool, 0)] resolved to. *)
Inductive Connection :=
| ConnectedArray (tools : list Candidate)
| ConnectedValue (tool : Candidate).

Definition connection_truthy (raw : Connection) : bool :=
  match raw with
  | ConnectedArray _ => true
  | ConnectedValue c => cand_truthy c
  end.

(** The callback of [toolsArray.flatMap]: a toolkit yields its tools,
    and [flatMap] spreads an element that is itself an array. *)
Definition expand (toolOrToolkit : Candidate) : list Candidate :=
  match toolOrToolkit with
  | ToolkitObject tools => tools
  | Value (VArr items) => map Value items
  | _ => [toolOrToolkit]
  end.

Definition connectedTools (raw : Connection) : list Candidate :=
  let toolsArray :=
    match raw with
    | ConnectedArray tools => tools
    | ConnectedValue (Value (VArr items)) => map Value items
    | ConnectedValue c => [c]
    end in
  flat_map expand toolsArray.

Definition duplicate_message (name : string) : string :=
  "You have multiple tools with the same name: '" +:+ name
  +:+ "', please rename them to avoid conflicts".

Record LoopState := {
  seenNames : gset string;
  finalTools : list Candidate;
  events : list AiEvent;
}.

Definition log (ev : AiEvent) (st : LoopState) : LoopState :=
  {| seenNames := seenNames st; finalTools := finalTools st;
     events := events st ++ [ev] |}.

Definition add_name (n : string) (st : LoopState) : LoopState :=
  {| seenNames := {[ n ]} ∪ seenNames st; finalTools := finalTools st;
     events := events st |}.

Definition push (tool : Candidate) (st : LoopState) : LoopState :=
  {| seenNames := seenNames st; finalTools := finalTools st ++ [tool];
     events := events st |}.

(** The record the inner [catch] logs. *)
Definition tool_processing_error (tool : Candidate) (toolError : Thrown) : AiEvent :=
  {| event_name := "tool-processing-error";
     event_data := VObj [("toolName", cand_get "name" tool);
                         ("error", error_text toolError)] |}.

(** The guarded assignment to [tool.description]. *)
Definition escape_description (escapeCurlyBrackets : bool) (tool : Candidate)
  : Thrown + Candidate :=
  let d := cand_get "description" tool in
  if escapeCurlyBrackets && truthy d then
    match d with
    | VStr text =>
        match escapeSingleCurlyBrackets (Some text) with
        | Some escaped => inr (set_description (VStr escaped) tool)
        | None => inr tool
        end
    | _ => inl (TypeError "result.replace is not a function")
    end
  else inr tool.

Inductive Flow :=
| Continue (st : LoopState)
| Rethrow (toolError : Thrown) (st : LoopState).

(** One iteration of [for (const tool of connectedTools)], inner
    [try]/[catch] included. *)
Definition processTool (convertStructuredTool escapeCurlyBrackets : bool)
    (tool : Candidate) (st : LoopState) : Flow :=
  if negb (cand_truthy tool) || negb (cand_is_object tool) then Continue st
  else
    match cand_get "name" tool with
    | VStr name =>
        if String.eqb name "" then Continue st
        else if bool_decide (name ∈ seenNames st) then
          let toolError := NodeOperationError_of_text (duplicate_message name) in
          Rethrow toolError (log (tool_processing_error tool toolError) st)
        else
          let st := add_name name st in
          match escape_description escapeCurlyBrackets tool with
          | inl toolError => Continue (log (tool_processing_error tool toolError) st)
          | inr tool =>
              if convertStructuredTool && instanceof_N8nTool tool then
                match asDynamicTool tool with
                | inl toolError =>
                    Continue (log (tool_processing_error tool toolError) st)
                | inr dynamicTool => Continue (push dynamicTool st)
                end
              else Continue (push tool st)
          end
    | _ => Continue st
    end.

Fixpoint processTools (convertStructuredTool escapeCurlyBrackets : bool)
    (tools : list Candidate) (st : LoopState) : Flow :=
  match tools with
  | [] => Continue st
  | tool :: rest =>
      match processTool convertStructuredTool escapeCurlyBrackets tool st with
      | Continue st' => processTools convertStructuredTool escapeCurlyBrackets rest st'
      | Rethrow toolError st' => Rethrow toolError st'
      end
  end.

Definition tools_connected (tools : list Candidate) : AiEvent :=
  {| event_name := "tools-connected";
     event_data :=
       VObj [("toolCount", VNum (Z.of_nat (length tools)));
             ("toolNames",
              VArr (filter (fun v => truthy v = true) (map (cand_get "name") tools)))] |}.

(** The outer [catch]. *)
Definition connection_failed (error : Thrown) (evs : list AiEvent)
  : (Thrown + list Candidate) * list AiEvent :=
  let evs := evs ++ [{| event_name := "tool-connection-error";
                        event_data := VObj [("error", error_text error)] |}] in
  if instanceof_NodeOperationError error then (inl error, evs)
  else (inl (NodeOperationError_of_text
               ("Failed to get connected tools: " +:+ String_ (error_text error))),
        evs).

(** [getConnectedTools(ctx, enforceUniqueNames, convertStructuredTool,
    escapeCurlyBrackets)]; [data] is the outcome of
    [ctx.getInputConnectionData].  Returns what the call resolves to
    (or throws) and the telemetry records it emitted. *)
Definition getConnectedTools (data : Thrown + Connection)
    (enforceUniqueNames convertStructuredTool escapeCurlyBrackets : bool)
  : (Thrown + list Candidate) * list AiEvent :=
  match data with
  | inl error => connection_failed error []
  | inr rawConnectedTools =>
      if negb (connection_truthy rawConnectedTools) then (inr [], [])
      else
        let connected := connectedTools rawConnectedTools in
        if negb enforceUniqueNames then (inr connected, [])
        else
          let start := {| seenNames := ∅; finalTools := []; events := [] |} in
          match processTools convertStructuredTool escapeCurlyBrackets connected start with
          | Rethrow toolError st => connection_failed toolError (events st)
          | Continue st =>
              (inr (finalTools st), events st ++ [tools_connected (finalTools st)])
          end
  end.

(** [validateTool(tool)] *)
Definition validateTool (tool : Candidate) : bool * list string :=
  if negb (cand_truthy tool) || negb (cand_is_object tool)
  then (false, ["Tool must be an object"])
  else
    let name := cand_get "name" tool in
    let description := cand_get "description" tool in
    let func := cand_get "func" tool in
    let _call := cand_get "_call" tool in
    let errors :=
      (if negb (truthy name) || negb (is_string name)
       then ["Tool must have a valid name"] else [])
      ++ (if negb (truthy description) || negb (is_string description)
          then ["Tool must have a valid description"] else [])
      ++ (if negb (truthy func) && negb (truthy _call)
             && negb (is_function func) && negb (is_function _call)
          then ["Tool must have a callable function (func or _call method)"]
          else []) in
    (match errors with [] => true | _ => false end, errors).

(** *** What the loop accepts

    [valid_name tool] is the name under which [tool] passes the two
    guards at the top of the loop body. *)
Definition valid_name (tool : Candidate) : option string :=
  if cand_truthy tool && cand_is_object tool then
    match cand_get "name" tool with
    | VStr name => if String.eqb name "" then None else Some name
    | _ => None
    end
  else None.

Definition tool_names (tools : list Candidate) : list string :=
  omap valid_name tools.

(** Two entries of [tools] carry the string [name] as their name. *)
Definition named_twice (name : string) (tools : list Candidate) : Prop :=
  exists l1 t1 l2 t2 l3,
    tools = l1 ++ t1 :: l2 ++ t2 :: l3
    /\ cand_get "name" t1 = VStr name /\ cand_get "name" t2 = VStr name.

(** The first name, in order, that was seen before. *)
Fixpoint first_duplicate (seen : gset string) (names : list string)
  : option string :=
  match names with
  | [] => None
  | n :: rest =>
      if bool_decide (n ∈ seen) then Some n
      else first_duplicate ({[ n ]} ∪ seen) rest
  end.

(** A tool with a name and nothing to call. *)
Definition uncallable_tool : Candidate :=
  Value (VObj [("name", VStr "lookup"); ("description", VStr "Looks things up")]).

Definition plain_tool (name : string) : Candidate :=
  Value (VObj [("name", VStr name); ("description", VStr "a {tool}");
               ("func", VFun 0)]).

(** Four connected tools, two of them called [search]. *)
Definition demo_connection : Connection :=
  ConnectedArray [plain_tool "search";
                  N8nToolObject (VStr "calc") (VStr "adds") (VFun 5);
                  plain_tool "search";
                  plain_tool "weather"].

End Helpers.

Import Helpers.


(** ** Effects

    Asynchronous code that may throw, run against a state [S] that
    outlives the exception: [await] is sequencing, [try]/[catch] is
    [try_catch]. *)
Module Effect.

Definition M (S A : Type) : Type := S -> (Thrown + A) * S.

Definition ret {S A} (a : A) : M S A := fun st => (inr a, st).
Definition throw {S A} (e : Thrown) : M S A := fun st => (inl e, st).
Definition bind {S A B} (m : M S A) (k : A -> M S B) : M S B :=
  fun st =>
    match m st with
    | (inr a, st') => k a st'
    | (inl e, st') => (inl e, st')
    end.
Definition try_catch {S A} (m : M S A) (handler : Thrown -> M S A) : M S A :=
  fun st =>
    match m st with
    | (inr a, st') => (inr a, st')
    | (inl e, st') => handler e st'
    end.
Definition lift {S A} (r : Thrown + A) : M S A := fun st => (r, st).

Notation "'let!' x ':=' m 'in' k" := (bind m (fun x => k))
  (at level 10, x name, m at level 200, k at level 200).
Notation "'do!' m 'in' k" := (bind m (fun _ => k))
  (at level 10, m at level 200, k at level 200).

End Effect.

Import Effect.

(** ** nodes/SapAiCoreChatModel: failed-attempt handlers *)
Module FailedAttempt.

Definition STATUS_NO_RETRY : list Z :=
  [400; 401; 402; 403; 404; 405; 406; 407; 409].

Section Coercion.

(** The runtime's reading of a non-empty string as a number, for the
    strings that denote an integer; [None] is [NaN]. *)
Variable StringToNumber : string -> option Z.

(** [+v]; [None] is [NaN]. *)
Definition ToNumber (v : Val) : option Z :=
  match v with
  | VUndefined | VFun _ | VObj _ => None
  | VNull => Some 0
  | VBool b => Some (if b then 1 else 0)
  | VNum n => Some n
  | VStr s => if String.eqb s "" then Some 0 else StringToNumber s
  | VArr _ =>
      let s := String_ v in
      if String.eqb s "" then Some 0 else StringToNumber s
  end.

(** [STATUS_NO_RETRY.includes(+status)] *)
Definition includes_status (status : Val) : bool :=
  match ToNumber status with
  | Some n => existsb (Z.eqb n) STATUS_NO_RETRY
  | None => false
  end.

(** [e?.message?.startsWith?.(prefix)], as a condition: only a string
    message has the method. *)
Definition message_startsWith (prefix : string) (error : Thrown) : bool :=
  match thrown_get "message" error with
  | VStr m => String.prefix prefix m
  | _ => false
  end.

(** [error?.response?.status ?? error?.status] *)
Definition status_of (error : Thrown) : Val :=
  match Js.get "status" (thrown_get "response" error) with
  | VUndefined | VNull => thrown_get "status" error
  | s => s
  end.

(** [n8nDefaultFailedAttemptHandler(error)]: throws [error] itself or
    returns. *)
Definition n8nDefaultFailedAttemptHandler (error : Thrown) : Thrown + unit :=
  if message_startsWith "Cancel" error
     || message_startsWith "AbortError" error
     || strict_eq (thrown_get "name" error) (VStr "AbortError")
  then inl error
  else if strict_eq (thrown_get "code" error) (VStr "ECONNABORTED")
  then inl error
  else
    let status := status_of error in
    if truthy status && includes_status status then inl error else inr tt.

(** [v > 0] *)
Definition greater_than_zero (v : Val) : bool :=
  match ToNumber v with
  | Some n => (0 <? n)%Z
  | None => false
  end.

(** [makeN8nLlmFailedAttemptHandler(ctx, handler)(error)]; the optional
    custom [handler] is given by what it does on an error. *)
Definition makeN8nLlmFailedAttemptHandler (lib : ApiErrorLib)
    (handler : option (Thrown -> Thrown + unit)) (error : Thrown)
  : Thrown + unit :=
  let guarded :=
    match (match handler with Some h => h error | None => inr tt end) with
    | inl e => inl e
    | inr _ => n8nDefaultFailedAttemptHandler error
    end in
  match guarded with
  | inl e => inl (new_NodeApiError lib e (Some "configuration-node"))
  | inr _ =>
      if greater_than_zero (thrown_get "retriesLeft" error) then inr tt
      else inl (new_NodeApiError lib error (Some "configuration-node"))
  end.

(** *** The classification in the specification's words *)

(** 400 to 407, and 409. *)
Definition listed_status (n : Z) : bool :=
  ((400 <=? n)%Z && (n <=? 407)%Z || (n =? 409)%Z)%bool.

(** An explicit cancellation or abort signal. *)
Definition cancellation (error : Thrown) : bool :=
  match thrown_get "message" error with
  | VStr m => String.prefix "Cancel" m || String.prefix "AbortError" m
  | _ => false
  end
  || match thrown_get "name" error with
     | VStr n => String.eqb n "AbortError"
     | _ => false
     end
  || match thrown_get "code" error with
     | VStr c => String.eqb c "ECONNABORTED"
     | _ => false
     end.

Definition non_retryable (error : Thrown) : bool :=
  match ToNumber (status_of error) with
  | Some n => listed_status n
  | None => false
  end
  || cancellation error.

End Coercion.

(** A reader of plain decimal digit strings, to run the examples. *)
Definition digit_value (c : ascii) : option Z :=
  let n := Z.of_N (N_of_ascii c) in
  if ((48 <=? n)%Z && (n <=? 57)%Z)%bool then Some (n - 48)%Z else None.

Definition decimal (s : string) : option Z :=
  match list_ascii_of_string s with
  | [] => None
  | cs => fold_left (fun acc c =>
                       match acc, digit_value c with
                       | Some a, Some d => Some (10 * a + d)
                       | _, _ => None
                       end) cs (Some 0)
  end.

(** Errors as an HTTP client and the retry loop raise them. *)
Definition http_error (status retriesLeft : Z) : Thrown :=
  Raised true (VObj [("name", VStr "Error");
                     ("message", VStr "Request failed");
                     ("response", VObj [("status", VNum status)]);
                     ("retriesLeft", VNum retriesLeft)]).

End FailedAttempt.

Import FailedAttempt.


(** ** utils/logWrapper.ts *)
Module LogWrapper.

(** The [this] a method is applied to: [null], the wrapped object, or
    the proxy around it. *)
Inductive Receiver := ThisNull | ThisTarget | ThisProxy.

(** What the host's execution record receives. *)
Inductive SinkRecord :=
| InputData (connectionType : string) (data : Val)
| OutputData (connectionType : string) (index : nat) (data : Thrown + Val)
             (metadata : Val).

(** [executeFunctions]: which sink members it has, the node it runs, and
    the host's error constructors. *)
Record Host := {
  has_addInputData : bool;
  has_addOutputData : bool;
  node_name : string;
  error_lib : ErrorLib;
}.

(** The operations the [get] trap replaces. *)
Inductive Operation :=
| LoadMemoryVariables | SaveContext
| GetMessages | AddMessage
| GetRelevantDocuments
| EmbedDocuments | EmbedQuery
| CompressDocuments
| SplitText
| ToolCall
| SimilaritySearch.

Definition operation_name (op : Operation) : string :=
  match op with
  | LoadMemoryVariables => "loadMemoryVariables"
  | SaveContext => "saveContext"
  | GetMessages => "getMessages"
  | AddMessage => "addMessage"
  | GetRelevantDocuments => "getRelevantDocuments"
  | EmbedDocuments => "embedDocuments"
  | EmbedQuery => "embedQuery"
  | CompressDocuments => "compressDocuments"
  | SplitText => "splitText"
  | ToolCall => "_call"
  | SimilaritySearch => "similaritySearch"
  end.

(** [NodeConnectionType] values; the compressor uses a literal. *)
Definition connection_type (op : Operation) : string :=
  match op with
  | LoadMemoryVariables | SaveContext | GetMessages | AddMessage => "ai_memory"
  | GetRelevantDocuments => "ai_retriever"
  | EmbedDocuments | EmbedQuery => "ai_embedding"
  | CompressDocuments => "ai-document-compressor"
  | SplitText => "ai_textSplitter"
  | ToolCall => "ai_tool"
  | SimilaritySearch => "ai_vectorStore"
  end.

Section Wrapper.

(** The state of the wrapped object and of whatever it talks to. *)
Context {W : Type}.

(** [originalInstance]: the outcome of the capability tests, the names
    [in] the target, its methods as functions of receiver, arguments and
    state, and its data properties ([metadata], [name], [description]). *)
Record Instance := {
  isBaseChatMemory : bool;
  isBaseChatMessageHistory : bool;
  instanceof_BaseRetriever : bool;
  instanceof_Embeddings : bool;
  instanceof_TextSplitter : bool;
  isToolsInstance : bool;
  instanceof_VectorStore : bool;
  in_target : string -> bool;
  target_method : string -> Receiver -> list Val -> W -> (Thrown + Val) * W;
  chatHistory_getMessages : W -> (Thrown + Val) * W;
  target_props : Val;
}.

Record State := {
  world : W;
  sink : list SinkRecord;
  telemetry : list AiEvent;
}.

Definition M (A : Type) : Type := Effect.M State A.

Definition record (r : SinkRecord) (st : State) : State :=
  {| world := world st; sink := sink st ++ [r]; telemetry := telemetry st |}.

(** [executeFunctions.addInputData(connectionType, data)]: the host
    files the record and answers with its run index, here the number of
    records it holds. *)
Definition addInputData (connectionType : string) (data : Val) : M nat :=
  fun st => (inr (length (sink st)), record (InputData connectionType data) st).

(** [executeFunctions.addOutputData(...)], called without a guard. *)
Definition addOutputData (host : Host) (connectionType : string) (index : nat)
    (data : Thrown + Val) (metadata : Val) : M unit :=
  fun st =>
    if has_addOutputData host
    then (inr tt, record (OutputData connectionType index data metadata) st)
    else (inl (TypeError "executeFunctions.addOutputData is not a function"), st).

Definition logAiEvent (event : string) (data : Val) : M unit :=
  fun st =>
    (inr tt,
     {| world := world st; sink := sink st;
        telemetry := telemetry st ++ [{| event_name := event; event_data := data |}] |}).

(** [method.apply(receiver, args)] on the capability's own state. *)
Definition apply_method (inst : Instance) (prop : string) (receiver : Receiver)
    (args : list Val) : M Val :=
  fun st =>
    let '(r, w) := target_method inst prop receiver args (world st) in
    (r, {| world := w; sink := sink st; telemetry := telemetry st |}).

Definition chatHistory_read (inst : Instance) : M Val :=
  fun st =>
    let '(r, w) := chatHistory_getMessages inst (world st) in
    (r, {| world := w; sink := sink st; telemetry := telemetry st |}).

Definition with_description (e : Thrown) (d : Val) : Thrown :=
  match e with
  | Structured k m _ f c => Structured k m d f c
  | _ => e
  end.

(** [callMethodAsync({ method, arguments, connectionType,
    currentNodeRunIndex, target })].  The receiver is the [target]
    member of the parameter object when the caller supplies one, [null]
    otherwise. *)
Definition callMethodAsync (host : Host) (inst : Instance) (prop : string)
    (args : list Val) (connectionType : string) (currentNodeRunIndex : nat)
    (target : option Receiver) : M Val :=
  fun st =>
    match apply_method inst prop (default ThisNull target) args st with
    | (inr v, st') => (inr v, st')
    | (inl e, st') =>
        let error := new_NodeOperationError (error_lib host) e (Some "configuration-node") in
        let st' :=
          if has_addOutputData host
          then record (OutputData connectionType currentNodeRunIndex (inl error) VUndefined) st'
          else st' in
        if truthy (thrown_get "message" error) then
          if truthy (thrown_get "description" error)
          then (inl error, st')
          else (inl (with_description error (thrown_get "message" error)), st')
        else
          (inl (NodeOperationError_of_text
                  ("Error on node " +:+ String dquote (node_name host)
                   +:+ String dquote " which is connected via input "
                   +:+ String dquote connectionType +:+ String dquote "")),
           st')
    end.

Definition arg (i : nat) (args : list Val) : Val := nth i args VUndefined.

(** [[[{ json }]]] *)
Definition items (json : list (string * Val)) : Val :=
  VArr [VArr [VObj [("json", VObj json)]]].

(** [v ?? d] *)
Definition coalesce (v d : Val) : Val :=
  match v with VUndefined | VNull => d | _ => v end.

(** [response[0]], which throws on [null] and [undefined]. *)
Definition first_element (response : Val) : Thrown + Val :=
  match response with
  | VUndefined | VNull =>
      inl (TypeError "Cannot read properties of undefined (reading '0')")
  | VArr (x :: _) => inr x
  | VStr (String c _) => inr (VStr (String c ""))
  | VObj fields => inr (default VUndefined (Js.lookup "0" fields))
  | _ => inr VUndefined
  end.

(** The receiver the logging branch hands to [callMethodAsync]: only the
    two embedding closures fill in [target]. *)
Definition passed_target (op : Operation) : option Receiver :=
  match op with
  | EmbedDocuments | EmbedQuery => Some ThisTarget
  | _ => None
  end.

(** The arguments the closure forwards to the underlying method. *)
Definition forwarded (op : Operation) (args : list Val) : list Val :=
  match op with
  | GetMessages => []
  | LoadMemoryVariables | AddMessage | EmbedDocuments | EmbedQuery
  | SplitText | ToolCall => [arg 0 args]
  | SaveContext | GetRelevantDocuments | CompressDocuments =>
      [arg 0 args; arg 1 args]
  | SimilaritySearch => [arg 0 args; arg 1 args; arg 2 args; arg 3 args]
  end.

(** [inputData] of the tool closure. *)
Definition tool_inputData (inst : Instance) (query : Val) : list (string * Val) :=
  ("query", query)
  :: (if truthy (Js.get "isFromToolkit" (Js.get "metadata" (target_props inst)))
      then [("tool", VObj [("name", Js.get "name" (target_props inst));
                           ("description", Js.get "description" (target_props inst))])]
      else []).

(** The record written by [addInputData] for each operation. *)
Definition input_json (inst : Instance) (op : Operation) (args : list Val)
  : list (string * Val) :=
  match op with
  | LoadMemoryVariables =>
      [("action", VStr "loadMemoryVariables"); ("values", arg 0 args)]
  | SaveContext =>
      [("action", VStr "saveContext"); ("input", arg 0 args); ("output", arg 1 args)]
  | GetMessages => [("action", VStr "getMessages")]
  | AddMessage => [("action", VStr "addMessage"); ("message", arg 0 args)]
  | GetRelevantDocuments => [("query", arg 0 args); ("config", arg 1 args)]
  | EmbedDocuments => [("documents", arg 0 args)]
  | EmbedQuery => [("query", arg 0 args)]
  | CompressDocuments => [("query", arg 1 args); ("documents", arg 0 args)]
  | SplitText => [("textSplitter", arg 0 args)]
  | ToolCall => tool_inputData inst (arg 0 args)
  | SimilaritySearch =>
      [("query", arg 0 args); ("k", arg 1 args); ("filter", arg 2 args)]
  end.

(** [typeof response === 'string' ? response : JSON.stringify(response)] *)
Definition tool_output (response : Val) : Val :=
  match response with
  | VStr _ => response
  | _ => match JSON_stringify response with
         | Some text => VStr text
         | None => VUndefined
         end
  end.

(** What each closure does with the [response] of [callMethodAsync]:
    the output record, the telemetry event, and the value it returns. *)
Definition after_call (host : Host) (inst : Instance) (op : Operation)
    (args : list Val) (index : nat) (response : Val) : M Val :=
  let ct := connection_type op in
  let out json := addOutputData host ct index (inr (items json)) VUndefined in
  match op with
  | LoadMemoryVariables =>
      let chatHistory := coalesce (Js.get "chat_history" response) response in
      do! out [("action", VStr "loadMemoryVariables"); ("chatHistory", chatHistory)] in
      ret response
  | SaveContext =>
      let! chatHistory := chatHistory_read inst in
      do! out [("action", VStr "saveContext"); ("chatHistory", chatHistory)] in
      ret response
  | GetMessages =>
      do! out [("action", VStr "getMessages"); ("response", response)] in
      do! logAiEvent "ai-messages-retrieved-from-memory" (VObj [("response", response)]) in
      ret response
  | AddMessage =>
      do! logAiEvent "ai-message-added-to-memory" (VObj [("message", arg 0 args)]) in
      do! out [("action", VStr "addMessage"); ("message", arg 0 args)] in
      ret VUndefined
  | GetRelevantDocuments =>
      let! first := lift (first_element response) in
      let executionId := Js.get "executionId" (Js.get "metadata" first) in
      let workflowId := Js.get "workflowId" (Js.get "metadata" first) in
      let metadata :=
        if truthy executionId && truthy workflowId
        then VObj [("subExecution",
                    VObj [("executionId", executionId); ("workflowId", workflowId)])]
        else VObj [] in
      do! logAiEvent "ai-documents-retrieved" (VObj [("query", arg 0 args)]) in
      do! addOutputData host ct index (inr (items [("response", response)])) metadata in
      ret response
  | EmbedDocuments =>
      do! logAiEvent "ai-document-embedded" VUndefined in
      do! out [("response", response)] in
      ret response
  | EmbedQuery =>
      do! logAiEvent "ai-query-embedded" VUndefined in
      do! out [("response", response)] in
      ret response
  | CompressDocuments =>
      do! logAiEvent "ai-document-reranked" (VObj [("query", arg 1 args)]) in
      do! out [("response", response)] in
      ret response
  | SplitText =>
      do! logAiEvent "ai-text-split" VUndefined in
      do! out [("response", response)] in
      ret response
  | ToolCall =>
      do! logAiEvent "ai-tool-called"
        (VObj (tool_inputData inst (arg 0 args) ++ [("response", response)])) in
      do! out [("response", response)] in
      ret (tool_output response)
  | SimilaritySearch =>
      do! logAiEvent "ai-vector-store-searched" (VObj [("query", arg 0 args)]) in
      do! out [("response", response)] in
      ret response
  end.

(** The branch taken when [executeFunctions] has no [addInputData]:
    the method is called on the target, nothing is recorded. *)
Definition unlogged_call (inst : Instance) (op : Operation) (args : list Val)
  : M Val :=
  let! response := apply_method inst (operation_name op) ThisTarget (forwarded op args) in
  match op with
  | AddMessage => ret VUndefined
  | ToolCall => ret (tool_output response)
  | _ => ret response
  end.

(** The closure the trap returns for [op], applied to [args]. *)
Definition wrapped_call (host : Host) (inst : Instance) (op : Operation)
    (args : list Val) : M Val :=
  if has_addInputData host then
    let! index := addInputData (connection_type op) (items (input_json inst op args)) in
    let! response := callMethodAsync host inst (operation_name op) (forwarded op args)
                  (connection_type op) index (passed_target op) in
    after_call host inst op args index response
  else unlogged_call inst op args.

(** The capability test guarding each operation. *)
Definition recognised (inst : Instance) (op : Operation) : bool :=
  match op with
  | LoadMemoryVariables | SaveContext => isBaseChatMemory inst
  | GetMessages | AddMessage => isBaseChatMessageHistory inst
  | GetRelevantDocuments => instanceof_BaseRetriever inst
  | EmbedDocuments | EmbedQuery => instanceof_Embeddings inst
  | CompressDocuments => in_target inst "compressDocuments"
  | SplitText => instanceof_TextSplitter inst
  | ToolCall => isToolsInstance inst
  | SimilaritySearch => instanceof_VectorStore inst
  end.

Definition all_operations : list Operation :=
  [LoadMemoryVariables; SaveContext; GetMessages; AddMessage;
   GetRelevantDocuments; EmbedDocuments; EmbedQuery; CompressDocuments;
   SplitText; ToolCall; SimilaritySearch].

(** The [get] trap of [logWrapper(originalInstance, executeFunctions)]:
    the first operation, in source order, whose capability test holds,
    whose name is [prop] and is [in] the target; [None] is
    [target[prop]] handed through unchanged. *)
Definition logWrapper (inst : Instance) (prop : string) : option Operation :=
  find (fun op => recognised inst op
                  && String.eqb prop (operation_name op)
                  && in_target inst prop) all_operations.

(** [wrapped[prop](...args)] on the proxy [logWrapper] returns: the
    closure of the trapped operation, or the target's own member called
    as a method of the proxy. *)
Definition call (host : Host) (inst : Instance) (prop : string)
    (args : list Val) : M Val :=
  match logWrapper inst prop with
  | Some op => wrapped_call host inst op args
  | None => apply_method inst prop ThisProxy args
  end.

(** *** The contract, in the specification's words *)

(** The call the logging branch makes to the underlying operation. *)
Definition delegate (inst : Instance) (op : Operation) (args : list Val)
  : W -> (Thrown + Val) * W :=
  target_method inst (operation_name op)
    (default ThisNull (passed_target op)) (forwarded op args).

(** The underlying operation: the method called on the target itself. *)
Definition direct (inst : Instance) (op : Operation) (args : list Val)
  : W -> (Thrown + Val) * W :=
  target_method inst (operation_name op) ThisTarget (forwarded op args).

(** The operation does not use its receiver: with any [this] it does
    what it does as a method of the target. *)
Definition receiver_free (inst : Instance) (op : Operation) : Prop :=
  forall receiver args w,
    target_method inst (operation_name op) receiver args w
    = target_method inst (operation_name op) ThisTarget args w.

(** What the closure hands back for a result [V] of the operation. *)
Definition returned (op : Operation) (V : Val) : Val :=
  match op with
  | AddMessage => VUndefined
  | ToolCall => tool_output V
  | _ => V
  end.

(** What the closure still needs after the operation returned [V] in
    state [w]: [saveContext] reads the chat history back, the retriever
    closure indexes into [V]. *)
Definition completes (inst : Instance) (op : Operation) (V : Val) (w : W) : Prop :=
  match op with
  | SaveContext => exists history w', chatHistory_getMessages inst w = (inr history, w')
  | GetRelevantDocuments => V <> VUndefined /\ V <> VNull
  | _ => True
  end.

(** The error [callMethodAsync] raises for a caught [E]. *)
Definition normalized (host : Host) (op : Operation) (E : Thrown) : Thrown :=
  let message := operation_message (error_lib host) E in
  let description := operation_description (error_lib host) E in
  if truthy message then
    Structured NodeOperationErrorK message
      (if truthy description then description else message)
      (Some "configuration-node") (Some E)
  else
    NodeOperationError_of_text
      ("Error on node " +:+ String dquote (node_name host)
       +:+ String dquote " which is connected via input "
       +:+ String dquote (connection_type op) +:+ String dquote "").

End Wrapper.

Arguments Instance : clear implicits.
Arguments State : clear implicits.
Arguments M : clear implicits.

(** *** A tool behind the wrapper, to run it *)

Definition demo_host : Host := {|
  has_addInputData := true;
  has_addOutputData := true;
  node_name := "Weather";
  error_lib := n8n_workflow;
|}.

Definition forecast : Val := VArr [VNum 21; VNum 19].

(** A tool whose [_call] resolves to a list of numbers, or throws when
    it is asked about nothing. *)
Definition demo_tool : Instance unit := {|
  isBaseChatMemory := false;
  isBaseChatMessageHistory := false;
  instanceof_BaseRetriever := false;
  instanceof_Embeddings := false;
  instanceof_TextSplitter := false;
  isToolsInstance := true;
  instanceof_VectorStore := false;
  in_target := fun prop => String.eqb prop "_call" || String.eqb prop "name";
  target_method := fun prop _ args w =>
    if String.eqb prop "_call" then
      match args with
      | [VStr ""] => (inl (Raised true (VObj [("message", VStr "empty query")])), w)
      | _ => (inr forecast, w)
      end
    else (inl (TypeError "not a function"), w);
  chatHistory_getMessages := fun w =>
    (inl (TypeError "Cannot read properties of undefined (reading 'getMessages')"), w);
  target_props := VObj [("name", VStr "weather")];
|}.

Definition empty_state : State unit :=
  {| world := tt; sink := []; telemetry := [] |}.

End LogWrapper.

(** ** SapAiCoreLlm.execute: loading tools and the tool-calling round *)
Module Orchestrator.

Record ToolCall := { id : Val; name : Val; args : Val }.

(** What [invoke] resolves to; [tool_calls] is [None] when the member
    is missing. *)
Record Response := { content : Val; tool_calls : option (list ToolCall) }.

Record Message := {
  role : string;
  message_content : Val;
  message_tool_calls : option (list ToolCall);
  tool_call_id : Val;
}.

(** An element of [toolResults]: it has either a [result] or an [error]
    member. *)
Inductive ToolResult :=
| ToolOutput (tool_call_id tool_name result : Val)
| ToolFailure (tool_call_id tool_name error : Val).

(** [result]; its [toolResults] member repeats [intermediateSteps]. *)
Record Result := {
  output : Val;
  intermediateSteps : list ToolResult;
  toolsUsed : nat;
  executionType : string;
  toolCalls : option (list ToolCall);
  error : option string;
}.

(** *** Loading the tools (the first inner [try]) *)

(** The callback of [tools.filter]: the verdict and the entry it adds
    to [toolErrors]. *)
Definition check_tool (tool : Candidate) : bool * list string :=
  if negb (cand_truthy tool) then (false, ["Found null/undefined tool"])
  else if negb (truthy (cand_get "name" tool)) then (false, ["Found tool without name"])
  else if negb (truthy (cand_get "func" tool))
          && negb (truthy (cand_get "call" tool))
          && negb (truthy (cand_get "_call" tool))
  then (false, ["Tool " +:+ String_ (cand_get "name" tool) +:+ " has no callable function"])
  else (true, []).

Fixpoint filter_tools (tools : list Candidate) : list Candidate * list string :=
  match tools with
  | [] => ([], [])
  | tool :: rest =>
      let '(keep, errs) := check_tool tool in
      let '(kept, errs') := filter_tools rest in
      (if keep then tool :: kept else kept, errs ++ errs')
  end.

(** [tools], [toolErrors] and the telemetry after the first inner
    [try]/[catch]; [data] is the outcome of
    [this.getInputConnectionData]. *)
Definition load_tools (data : Thrown + Connection)
  : list Candidate * list string * list AiEvent :=
  match getConnectedTools data true true false with
  | (inr rawTools, evs) =>
      let '(tools, toolErrors) := filter_tools rawTools in
      (tools, toolErrors, evs)
  | (inl toolError, evs) =>
      ([], ["Tool loading error: " +:+ String_ (error_text toolError)], evs)
  end.

(** *** The round *)

Section Round.

(** [W]: the state of the model endpoint and of the tools;
    [H]: the tool-aware handle [bindTools] returns. *)
Context {W H : Type}.

Record Collaborators := {
  bindTools : list Candidate -> M W H;
  invoke_bound : H -> list Message -> M W Response;
  invoke : list Message -> M W Response;
  tool_invoke : Candidate -> Val -> M W Val;
}.

Definition plain_message (r : string) (c : Val) : Message :=
  {| role := r; message_content := c; message_tool_calls := None;
     tool_call_id := VUndefined |}.

Definition conversation (systemMessage userMessage : Val) : list Message :=
  [plain_message "system" systemMessage; plain_message "user" userMessage].

(** [tools.find(t => t.name === toolCall.name)] *)
Definition find_tool (tools : list Candidate) (toolCall : ToolCall)
  : option Candidate :=
  find (fun t => strict_eq (cand_get "name" t) (name toolCall)) tools.

(** [for (const toolCall of response.tool_calls)]: the loop cannot
    throw, it returns [toolResults]. *)
Fixpoint execute_tool_calls (env : Collaborators) (tools : list Candidate)
    (calls : list ToolCall) (w : W) : list ToolResult * W :=
  match calls with
  | [] => ([], w)
  | toolCall :: rest =>
      match find_tool tools toolCall with
      | Some tool =>
          let '(r, w') := tool_invoke env tool (args toolCall) w in
          let entry :=
            match r with
            | inr toolResult => ToolOutput (id toolCall) (name toolCall) toolResult
            | inl toolError =>
                ToolFailure (id toolCall) (name toolCall) (error_text toolError)
            end in
          let '(entries, w'') := execute_tool_calls env tools rest w' in
          (entry :: entries, w'')
      | None => execute_tool_calls env tools rest w
      end
  end.

(** The [tool] message built from one result. *)
Definition tool_message (tr : ToolResult) : Message :=
  match tr with
  | ToolOutput call_id _ result =>
      {| role := "tool";
         message_content :=
           match JSON_stringify result with Some t => VStr t | None => VUndefined end;
         message_tool_calls := None; tool_call_id := call_id |}
  | ToolFailure call_id _ err =>
      {| role := "tool";
         message_content :=
           if truthy err then VStr ("Error: " +:+ String_ err) else VUndefined;
         message_tool_calls := None; tool_call_id := call_id |}
  end.

Definition final_messages (messages : list Message) (response : Response)
    (toolResults : list ToolResult) : list Message :=
  messages
  ++ [{| role := "assistant"; message_content := content response;
         message_tool_calls := tool_calls response; tool_call_id := VUndefined |}]
  ++ map tool_message toolResults.

(** [response.tool_calls && response.tool_calls.length > 0] *)
Definition wants_tools (response : Response) : option (list ToolCall) :=
  match tool_calls response with
  | Some (c :: cs) => Some (c :: cs)
  | _ => None
  end.

(** The body of the second inner [try]. *)
Definition with_tools (env : Collaborators) (tools : list Candidate)
    (systemMessage userMessage : Val) : M W Result :=
  let! modelWithTools := bindTools env tools in
  let messages := conversation systemMessage userMessage in
  let! response := invoke_bound env modelWithTools messages in
  match wants_tools response with
  | Some calls =>
      let! toolResults := (fun w => let '(rs, w') := execute_tool_calls env tools calls w in
                                    (inr rs, w')) in
      let finalMessages := final_messages messages response toolResults in
      let! finalResponse := invoke_bound env modelWithTools finalMessages in
      ret {| output := content finalResponse;
             intermediateSteps := toolResults;
             toolsUsed := length tools;
             executionType := "sap_ai_core_with_tools";
             toolCalls := tool_calls response;
             error := None |}
  | None =>
      ret {| output := content response;
             intermediateSteps := [];
             toolsUsed := length tools;
             executionType := "sap_ai_core_direct_response";
             toolCalls := None;
             error := None |}
  end.

(** Its [catch (agentError)]. *)
Definition fallback (env : Collaborators) (systemMessage userMessage : Val)
    (agentError : Thrown) : M W Result :=
  let errorMsg := error_text agentError in
  let messages := conversation systemMessage userMessage in
  let! response := invoke env messages in
  ret {| output := content response;
         intermediateSteps := [];
         toolsUsed := 0;
         executionType := "direct_llm_fallback";
         toolCalls := None;
         error := Some ("Tool execution failed: " +:+ String_ errorMsg) |}.

(** The computation of [result] from the loaded [tools]. *)
Definition run (env : Collaborators) (tools : list Candidate)
    (systemMessage userMessage : Val) : M W Result :=
  if (0 <? length tools)%nat then
    try_catch (with_tools env tools systemMessage userMessage)
              (fallback env systemMessage userMessage)
  else
    let messages := conversation systemMessage userMessage in
    let! response := invoke env messages in
    ret {| output := content response;
           intermediateSteps := [];
           toolsUsed := 0;
           executionType := "sap_ai_core_direct";
           toolCalls := None;
           error := None |}.

(** The entry [catch (agentError)] adds to [toolErrors]. *)
Definition fallback_toolError (agentError : Thrown) : string :=
  "SAP AI Core tool execution error: " +:+ String_ (error_text agentError).

(** The same computation together with [toolErrors] as it leaves them:
    the [catch] pushes its entry before it submits the conversation to
    the unbound model. *)
Definition round (env : Collaborators) (tools : list Candidate)
    (toolErrors : list string) (systemMessage userMessage : Val)
  : M W (Result * list string) :=
  if (0 <? length tools)%nat then
    try_catch
      (let! result := with_tools env tools systemMessage userMessage in
       ret (result, toolErrors))
      (fun agentError =>
         let toolErrors := toolErrors ++ [fallback_toolError agentError] in
         let! result := fallback env systemMessage userMessage agentError in
         ret (result, toolErrors))
  else
    let messages := conversation systemMessage userMessage in
    let! response := invoke env messages in
    ret ({| output := content response;
            intermediateSteps := [];
            toolsUsed := 0;
            executionType := "sap_ai_core_direct";
            toolCalls := None;
            error := None |}, toolErrors).

(** An element of [intermediateSteps] as it is written out. *)
Definition step_value (tr : ToolResult) : Val :=
  match tr with
  | ToolOutput call_id tool_name result =>
      VObj [("tool_call_id", call_id); ("tool_name", tool_name); ("result", result)]
  | ToolFailure call_id tool_name err =>
      VObj [("tool_call_id", call_id); ("tool_name", tool_name); ("error", err)]
  end.

(** [outputData]: the members copied from [result] ([error], [toolCalls]
    and [toolResults] are not among them; no [result] has a [usage]),
    then [toolErrors] and [toolWarnings] when there are tool errors, then
    [debug] under verbose logging. *)
Definition outputData (modelName resourceGroup userMessage systemMessage : Val)
    (verboseLogging : bool) (tools : list Candidate) (toolErrors : list string)
    (result : Result) : list (string * Val) :=
  [("output", output result);
   ("model", modelName);
   ("resourceGroup", resourceGroup);
   ("userMessage", userMessage);
   ("systemMessage", systemMessage);
   ("toolsUsed", VNum (Z.of_nat (toolsUsed result)));
   ("executionType", VStr (executionType result));
   ("intermediateSteps", VArr (map step_value (intermediateSteps result)))]
  ++ match toolErrors with
     | [] => []
     | _ :: _ =>
         [("toolErrors", VArr (map VStr toolErrors));
          ("toolWarnings",
           VStr (pretty (length toolErrors) +:+ " tool-related issues occurred"))]
     end
  ++ (if verboseLogging
      then [("debug",
             VObj [("toolsFound", VNum (Z.of_nat (length tools)));
                   ("toolNames", VArr (map (cand_get "name") tools));
                   ("hasValidTools", VBool (0 <? length tools)%nat)])]
      else []).

(** The item [execute] pushes on [returnData] for the loaded [tools]
    and the [toolErrors] of loading them. *)
Definition execute_item (env : Collaborators)
    (modelName resourceGroup : Val) (verboseLogging : bool)
    (tools : list Candidate) (toolErrors : list string)
    (systemMessage userMessage : Val) : M W Val :=
  let! outcome := round env tools toolErrors systemMessage userMessage in
  ret (VObj [("json",
              VObj (outputData modelName resourceGroup userMessage systemMessage
                      verboseLogging tools (snd outcome) (fst outcome)))]).

End Round.

Arguments Collaborators : clear implicits.

(** *** Counting outcomes *)

Definition count {A} (p : A -> bool) (l : list A) : nat :=
  length (List.filter p l).

Definition threw {A} (r : Thrown + A) : bool :=
  match r with inl _ => true | inr _ => false end.

(** The entry has an [error] member. *)
Definition carries_error (tr : ToolResult) : bool :=
  match tr with ToolFailure _ _ _ => true | ToolOutput _ _ _ => false end.

Definition carries_output (tr : ToolResult) : bool :=
  match tr with ToolOutput _ _ _ => true | ToolFailure _ _ _ => false end.

(** *** A model endpoint and three tools, to run the round

    The state is the trace of the calls made.  The endpoint asks for
    three tools on the two-message conversation and answers any longer
    one; the tool [calc] throws. *)
Definition demo_call (i n : string) : ToolCall :=
  {| id := VStr i; name := VStr n; args := VObj [("input", VStr "x")] |}.

Definition demo_response : Response :=
  {| content := VStr "";
     tool_calls := Some [demo_call "1" "search"; demo_call "2" "calc";
                         demo_call "3" "weather"] |}.

Definition demo_final_response : Response :=
  {| content := VStr "It is sunny."; tool_calls := None |}.

Definition demo_direct_response : Response :=
  {| content := VStr "I cannot use tools."; tool_calls := None |}.

Definition division_by_zero : Thrown :=
  Raised true (VObj [("message", VStr "division by zero")]).

Definition demo_env : Collaborators (list string) unit := {|
  bindTools := fun _ w => (inr tt, w ++ ["bindTools"]);
  invoke_bound := fun _ messages w =>
    if (length messages <=? 2)%nat
    then (inr demo_response, w ++ ["invoke (bound)"])
    else (inr demo_final_response, w ++ ["invoke (bound, with tool results)"]);
  invoke := fun _ w => (inr demo_direct_response, w ++ ["invoke (direct)"]);
  tool_invoke := fun tool _ w =>
    match cand_get "name" tool with
    | VStr n =>
        if String.eqb n "calc"
        then (inl division_by_zero, w ++ ["calc"])
        else (inr (VObj [("answer", VStr n)]), w ++ [n])
    | _ => (inl (TypeError "tool.invoke is not a function"), w)
    end;
|}.

Definition demo_tools : list Candidate :=
  [plain_tool "search"; plain_tool "calc"; plain_tool "weather"].

(** The same endpoint when binding tools is not supported. *)
Definition demo_env_unbound : Collaborators (list string) unit := {|
  bindTools := fun _ w =>
    (inl (Raised true (VObj [("message", VStr "bindTools is not supported")])),
     w ++ ["bindTools"]);
  invoke_bound := invoke_bound demo_env;
  invoke := invoke demo_env;
  tool_invoke := tool_invoke demo_env;
|}.

End Orchestrator.

(** ** Observers for discovery and for the round *)
Module Readings.

(** The candidate passes the two guards at the top of the discovery loop. *)
Definition accepted (tool : Candidate) : bool :=
  match valid_name tool with Some _ => true | None => false end.

(** [tr.tool_call_id] *)
Definition result_call_id (tr : Orchestrator.ToolResult) : Val :=
  match tr with
  | Orchestrator.ToolOutput call_id _ _ => call_id
  | Orchestrator.ToolFailure call_id _ _ => call_id
  end.

(** [tools.find(t => t.name === toolCall.name)] finds a tool. *)
Definition known_tool (tools : list Candidate) (toolCall : Orchestrator.ToolCall)
  : bool :=
  match Orchestrator.find_tool tools toolCall with
  | Some _ => true
  | None => false
  end.

(** Three candidates with distinct names around a value that is no tool. *)
Definition three_candidates : Connection :=
  ConnectedArray [plain_tool "search"; Value (VStr "not a tool");
                  uncallable_tool; plain_tool "weather"].

(** A host that files input records but has no [addOutputData]. *)
Definition host_without_output : LogWrapper.Host := {|
  LogWrapper.has_addInputData := true;
  LogWrapper.has_addOutputData := false;
  LogWrapper.node_name := "Weather";
  LogWrapper.error_lib := n8n_workflow;
|}.

(** A host without [addInputData]: nothing is logged. *)
Definition host_without_input : LogWrapper.Host := {|
  LogWrapper.has_addInputData := false;
  LogWrapper.has_addOutputData := false;
  LogWrapper.node_name := "Weather";
  LogWrapper.error_lib := n8n_workflow;
|}.

(** A tool whose [_call] is a method: it reads a member of [this] and
    throws when it is applied to [null]. *)
Definition method_tool : LogWrapper.Instance unit := {|
  LogWrapper.isBaseChatMemory := false;
  LogWrapper.isBaseChatMessageHistory := false;
  LogWrapper.instanceof_BaseRetriever := false;
  LogWrapper.instanceof_Embeddings := false;
  LogWrapper.instanceof_TextSplitter := false;
  LogWrapper.isToolsInstance := true;
  LogWrapper.instanceof_VectorStore := false;
  LogWrapper.in_target := fun prop => String.eqb prop "_call" || String.eqb prop "name";
  LogWrapper.target_method := fun prop receiver args w =>
    if String.eqb prop "_call" then
      match receiver with
      | LogWrapper.ThisNull =>
          (inl (TypeError "Cannot read properties of null (reading 'func')"), w)
      | _ => (inr (VStr "sunny"), w)
      end
    else (inl (TypeError "not a function"), w);
  LogWrapper.chatHistory_getMessages := fun w =>
    (inl (TypeError "Cannot read properties of undefined (reading 'getMessages')"), w);
  LogWrapper.target_props := VObj [("name", VStr "weather")];
|}.

End Readings.

Import Readings.

(** ** utils/helpers.ts, the guards on model output *)
Module OutputGuards.

(** The loop of [hasLongSequentialRepeat] over the remaining characters:
    [prev] is [prev.value], [count] the length of the run it ends. *)
Fixpoint scan_repeats (threshold : Z) (prev : ascii) (count : Z)
    (rest : list ascii) : bool :=
  match rest with
  | [] => false
  | char :: rest' =>
      if Ascii.eqb char prev then
        let count := (count + 1)%Z in
        if (threshold <=? count)%Z then true
        else scan_repeats threshold prev count rest'
      else scan_repeats threshold char 1 rest'
  end.

(** [hasLongSequentialRepeat(text, threshold)].  A string of the model
    is the sequence of its characters, each counting one in
    [text.length]; nothing in the [try] block throws on such a string,
    so the [catch] is never entered. *)
Definition hasLongSequentialRepeat (text : Val) (threshold : Z) : bool :=
  match text with
  | VStr s =>
      let chars := list_ascii_of_string s in
      if (Z.of_nat (length chars) =? 0)%Z
         || (threshold <=? 0)%Z
         || (Z.of_nat (length chars) <? threshold)%Z
      then false
      else
        match chars with
        | [] => false
        | first :: rest => scan_repeats threshold first 1 rest
        end
  | _ => false
  end.

(** The text holds [n] equal characters in a row. *)
Definition has_run (n : nat) (chars : list ascii) : Prop :=
  exists c pre post, chars = pre ++ replicate n c ++ post.

(** [key in value], for a key that no built-in prototype defines: it
    throws on a primitive; arrays and functions have no such member. *)
Definition has_member (k : string) (v : Val) : Thrown + bool :=
  match v with
  | VObj fields => inr (has_key k fields)
  | VArr _ | VFun _ => inr false
  | VUndefined =>
      inl (TypeError "Cannot use 'in' operator to search for a key in undefined")
  | VNull =>
      inl (TypeError "Cannot use 'in' operator to search for a key in null")
  | _ => inl (TypeError "Cannot use 'in' operator to search for a key in a primitive")
  end.

(** [Object.keys(v).length === 1] *)
Definition single_key (v : Val) : bool :=
  match entries v with [_] => true | _ => false end.

(** [unwrapNestedOutput(output)] *)
Definition unwrapNestedOutput (output : Val) : Thrown + Val :=
  match has_member "output" output with
  | inl e => inl e
  | inr false => inr output
  | inr true =>
      let inner := Js.get "output" output in
      if single_key output && is_object_type inner
         && negb (strict_eq inner VNull)
      then
        match has_member "output" inner with
        | inl e => inl e
        | inr found =>
            if found && single_key inner then inr inner else inr output
        end
      else inr output
  end.

End OutputGuards.

Import OutputGuards.

(** ** utils/N8nTool.ts, the utility functions *)
Module Utilities.

(** [new Error(text)] *)
Definition Error_of_text (text : string) : Thrown :=
  Raised true (VObj [("name", VStr "Error"); ("message", VStr text)]).

(** [error instanceof Error ? error : new Error(String(error))] *)
Definition as_Error (error : Thrown) : Thrown :=
  if instanceof_Error error then error else Error_of_text (thrown_String error).

(** *** retryOperation *)
Section Retry.

Context {W A : Type}.

(** The scene the operation acts on, the timers that were awaited and
    the number of calls made so far. *)
Record Timed := { scene : W; waited : list Z; calls : nat }.

(** [operation], and what the passing of time does to the scene. *)
Variable operation : W -> (Thrown + A) * W.
Variable elapse : Z -> W -> W.
Variables maxRetries delay backoff : Z.

(** [await operation()] *)
Definition call_operation (st : Timed) : (Thrown + A) * Timed :=
  let '(r, w) := operation (scene st) in
  (r, {| scene := w; waited := waited st; calls := S (calls st) |}).

(** [await new Promise(resolve => setTimeout(resolve, ms))] *)
Definition wait (ms : Z) (st : Timed) : Timed :=
  {| scene := elapse ms (scene st); waited := waited st ++ [ms];
     calls := calls st |}.

(** [for (let attempt = ...; attempt <= maxRetries; attempt++)] and the
    [throw lastError] behind it; [None] when [fuel] iterations did not
    reach the end of the loop. *)
Fixpoint retry_loop (fuel : nat) (attempt : Z) (lastError : Thrown)
    (st : Timed) : option ((Thrown + A) * Timed) :=
  if (attempt <=? maxRetries)%Z then
    match fuel with
    | O => None
    | S fuel' =>
        match call_operation st with
        | (inr value, st') => Some (inr value, st')
        | (inl error, st') =>
            let lastError := as_Error error in
            if (attempt =? maxRetries)%Z then Some (inl lastError, st')
            else retry_loop fuel' (attempt + 1) lastError
                   (wait (delay * backoff ^ (attempt - 1)) st')
        end
    end
  else Some (inl lastError, st).

(** [retryOperation(operation, maxRetries, delay, backoff)] *)
Definition retryOperation (st : Timed) : option ((Thrown + A) * Timed) :=
  retry_loop (Z.to_nat maxRetries) 1 (Error_of_text "No attempts made") st.

(** The waits before the attempts 2, ..., [n]. *)
Definition backoff_delays (n : nat) : list Z :=
  map (fun i => (delay * backoff ^ Z.of_nat i)%Z) (seq 0 (pred n)).

End Retry.

Arguments Timed : clear implicits.

(** *** Texts *)

(** [text.substring(0, n)]: a negative [n] counts as 0, one beyond the
    end as the length. *)
Definition substring_to (n : Z) (chars : list ascii) : list ascii :=
  take (Z.to_nat n) chars.

(** [truncateText(text, maxLength, ellipsis)] *)
Definition truncateText (text : string) (maxLength : Z) (ellipsis : string)
  : string :=
  let chars := list_ascii_of_string text in
  if (Z.of_nat (length chars) <=? maxLength)%Z then text
  else
    string_of_list_ascii
      (substring_to (maxLength - Z.of_nat (length (list_ascii_of_string ellipsis)))
         chars)
    +:+ ellipsis.

(** The class [[\x00-\x08\x0B\x0C\x0E-\x1F\x7F]]. *)
Definition is_control (c : ascii) : bool :=
  let n := N_of_ascii c in
  ((n <=? 8) || (n =? 11) || (n =? 12) || ((14 <=? n) && (n <=? 31))
   || (n =? 127))%N.

(** [sanitizeString(input, maxLength)] *)
Definition sanitizeString (input : Val) (maxLength : Z) : string :=
  match input with
  | VStr s =>
      let sanitized :=
        List.filter (fun c => negb (is_control c)) (list_ascii_of_string s) in
      if (maxLength <? Z.of_nat (length sanitized))%Z
      then string_of_list_ascii (substring_to maxLength sanitized) +:+ "..."
      else string_of_list_ascii sanitized
  | _ => String_ input
  end.

(** [formatDuration(ms)]: [Math.floor] of a quotient is [Z.div], [%] is
    [Z.rem]. *)
Definition formatDuration (ms : Z) : string :=
  let seconds := (ms / 1000)%Z in
  let minutes := (seconds / 60)%Z in
  let hours := (minutes / 60)%Z in
  if (0 <? hours)%Z then
    pretty hours +:+ "h " +:+ pretty (Z.rem minutes 60) +:+ "m "
    +:+ pretty (Z.rem seconds 60) +:+ "s"
  else if (0 <? minutes)%Z then
    pretty minutes +:+ "m " +:+ pretty (Z.rem seconds 60) +:+ "s"
  else pretty seconds +:+ "s".

(** An operation that fails twice and then answers, on a scene that
    counts the calls. *)
Definition flaky (w : nat) : (Thrown + Val) * nat :=
  if (w <? 2)%nat
  then (inl (Raised false (VStr "busy")), S w)
  else (inr (VStr "done"), S w).

End Utilities.

Import Utilities.

(** ** The nodes: how a failure reaches the user *)
Module Nodes.

Definition nl : string := String (ascii_of_nat 10) "".
Definition tab : string := String (ascii_of_nat 9) "".

(** [hay.includes(needle)] on strings *)
Fixpoint includes (needle hay : string) : bool :=
  String.prefix needle hay
  || match hay with
     | EmptyString => false
     | String _ rest => includes needle rest
     end.

(** [message.includes(needle)] on a value: strings and arrays have the
    method, [null] and [undefined] have no members at all, and nothing
    else has it (own members named [includes] are not modelled). *)
Definition message_includes (message : Val) (needle : string) : Thrown + bool :=
  match message with
  | VStr m => inr (includes needle m)
  | VArr elements => inr (existsb (strict_eq (VStr needle)) elements)
  | VUndefined =>
      inl (TypeError "Cannot read properties of undefined (reading 'includes')")
  | VNull =>
      inl (TypeError "Cannot read properties of null (reading 'includes')")
  | _ => inl (TypeError "errorMessage.includes is not a function")
  end.

(** [m.includes(a) && m.includes(b) && ...] *)
Fixpoint includes_all (message : Val) (needles : list string) : Thrown + bool :=
  match needles with
  | [] => inr true
  | needle :: rest =>
      match message_includes message needle with
      | inl e => inl e
      | inr true => includes_all message rest
      | inr false => inr false
      end
  end.

(** [m.includes(a) || m.includes(b) || ...] *)
Fixpoint includes_any (message : Val) (needles : list string) : Thrown + bool :=
  match needles with
  | [] => inr false
  | needle :: rest =>
      match message_includes message needle with
      | inl e => inl e
      | inr true => inr true
      | inr false => includes_any message rest
      end
  end.

(** *** SapAiCoreLlm.execute, the [catch] around one item *)

Definition llm_package_required : string :=
  "SAP AI SDK LangChain package is required. Please install it with: npm install @sap-ai-sdk/langchain".

Definition llm_authentication_failed : string :=
  "SAP AI Core authentication failed. Please check your credentials.".

(** The text [throwIfInvalidToolSchema] appends to the message. *)
Definition schema_advice : string :=
  "." +:+ nl +:+ tab +:+ tab +:+ tab
  +:+ "This is most likely because some of your tools are configured to require a specific schema. "
  +:+ nl +:+ tab +:+ tab +:+ tab
  +:+ "Please check the tool configuration and ensure the schema is valid for SAP AI Core."
  +:+ nl +:+ tab +:+ tab +:+ tab
  +:+ "Tools should have proper JSON schema definitions with required fields marked correctly.".

(** [throwIfInvalidToolSchema(ctx, error)]: what it throws, if it does. *)
Definition throwIfInvalidToolSchema (error : Thrown) : Thrown + unit :=
  match thrown_get "message" error with
  | VUndefined | VNull => inr tt
  | message =>
      match message_includes message "tool input did not match expected schema" with
      | inl e => inl e
      | inr true => inl (NodeOperationError_of_text (String_ message +:+ schema_advice))
      | inr false => inr tt
      end
  end.

(** An element of [returnData] pushed by the [catch]. *)
Definition failure_item (json : list (string * Val)) (i : Z) : Val :=
  VObj [("json", VObj json); ("pairedItem", VObj [("item", VNum i)])].

(** The [catch (error)] of the loop over the items: it throws, or
    pushes an item and continues.  [continueOnFail] is
    [this.continueOnFail()], [userMessage] is
    [this.getNodeParameter('userMessage', i, '')]. *)
Definition execute_catch (continueOnFail : bool) (userMessage : Val) (i : Z)
    (error : Thrown) : Thrown + Val :=
  let errorMessage := error_text error in
  match includes_all errorMessage ["Cannot find module"; "@sap-ai-sdk/langchain"] with
  | inl e => inl e
  | inr true => inl (NodeOperationError_of_text llm_package_required)
  | inr false =>
      match includes_any errorMessage ["authentication"; "401"] with
      | inl e => inl e
      | inr true => inl (NodeOperationError_of_text llm_authentication_failed)
      | inr false =>
          match throwIfInvalidToolSchema error with
          | inl schemaError =>
              if continueOnFail
              then inr (failure_item [("error", error_text schemaError);
                                      ("type", VStr "schema_error")] i)
              else inl schemaError
          | inr _ =>
              if continueOnFail
              then inr (failure_item [("error", errorMessage);
                                      ("type", VStr "execution_error");
                                      ("userMessage", userMessage)] i)
              else inl error
          end
      end
  end.

(** *** supplyData of the two model nodes, the [catch] *)

(** The texts of one node. *)
Record NodeTexts := {
  package_required : string;
  authentication_failed : string;
  deployment_not_found : string;
  failed_to_initialize : string;
}.

Definition supply_package_required : string :=
  "SAP AI SDK LangChain package is required. Please install it with:" +:+ nl
  +:+ "npm install @sap-ai-sdk/langchain".

Definition chat_model_texts : NodeTexts := {|
  package_required := supply_package_required;
  authentication_failed :=
    "SAP AI Core authentication failed. Please check your credentials:" +:+ nl
    +:+ "- Client ID" +:+ nl +:+ "- Client Secret" +:+ nl
    +:+ "- Auth URL" +:+ nl +:+ "- API URL";
  deployment_not_found :=
    "SAP AI Core deployment not found. Please check:" +:+ nl
    +:+ "- Model name is correct" +:+ nl +:+ "- Resource group has access" +:+ nl
    +:+ "- Deployment is active";
  failed_to_initialize := "Failed to initialize SAP AI Core Chat Model: ";
|}.

Definition embeddings_texts : NodeTexts := {|
  package_required := supply_package_required;
  authentication_failed :=
    "SAP AI Core authentication failed. Please check your credentials:" +:+ nl
    +:+ "- Client ID" +:+ nl +:+ "- Client Secret" +:+ nl
    +:+ "- OAuth URL" +:+ nl +:+ "- Base URL";
  deployment_not_found :=
    "SAP AI Core deployment not found. Please check:" +:+ nl
    +:+ "- Deployment ID is correct" +:+ nl
    +:+ "- Model is deployed and active" +:+ nl
    +:+ "- Resource group has access";
  failed_to_initialize := "Failed to initialize SAP AI Core Embeddings: ";
|}.

(** [error instanceof Error ? error.message : 'Unknown error occurred'] *)
Definition supply_errorMessage (error : Thrown) : Val :=
  if instanceof_Error error then thrown_get "message" error
  else VStr "Unknown error occurred".

(** What the [catch (error)] of [supplyData] throws. *)
Definition supplyData_catch (texts : NodeTexts) (error : Thrown) : Thrown :=
  let errorMessage := supply_errorMessage error in
  match includes_all errorMessage ["Cannot find module"; "@sap-ai-sdk/langchain"] with
  | inl e => e
  | inr true => NodeOperationError_of_text (package_required texts)
  | inr false =>
      match includes_any errorMessage ["authentication"; "401"] with
      | inl e => e
      | inr true => NodeOperationError_of_text (authentication_failed texts)
      | inr false =>
          match includes_any errorMessage ["deployment"; "404"] with
          | inl e => e
          | inr true => NodeOperationError_of_text (deployment_not_found texts)
          | inr false =>
              NodeOperationError_of_text
                (failed_to_initialize texts +:+ String_ errorMessage)
          end
      end
  end.

(** *** SapAiCoreEmbeddings.supplyData *)

Definition incomplete_credentials : string :=
  "Incomplete SAP AI Core credentials. Please ensure all fields are filled:" +:+ nl
  +:+ "- Client ID" +:+ nl +:+ "- Client Secret" +:+ nl
  +:+ "- OAuth URL" +:+ nl +:+ "- Base URL".

Definition deployment_required : string :=
  "Deployment ID is required. Please provide your SAP AI Core embedding deployment ID.".

(** The white space [trim] removes, among the characters of the model. *)
Definition is_space (c : ascii) : bool :=
  let n := N_of_ascii c in
  (((9 <=? n) && (n <=? 13)) || (n =? 32) || (n =? 160))%N.

(** [!deploymentId || deploymentId.trim() === ''] *)
Definition blank (deploymentId : Val) : Thrown + bool :=
  if negb (truthy deploymentId) then inr true
  else
    match deploymentId with
    | VStr s => inr (forallb is_space (list_ascii_of_string s))
    | _ => inl (TypeError "deploymentId.trim is not a function")
    end.

(** [credentials.clientId], which throws when there are no credentials. *)
Definition member (k : string) (v : Val) : Thrown + Val :=
  match v with
  | VUndefined =>
      inl (TypeError ("Cannot read properties of undefined (reading '" +:+ k +:+ "')"))
  | VNull =>
      inl (TypeError ("Cannot read properties of null (reading '" +:+ k +:+ "')"))
  | _ => inr (Js.get k v)
  end.

(** What the host and the SDK answer during [supplyData]: the outcome
    of the dynamic import, of [getCredentials], of the four parameter
    reads, and [build], everything that follows the two validations
    (client, wrapper, [logWrapper]). *)
Record Supply := {
  import_sdk : Thrown + unit;
  getCredentials : Thrown + Val;
  get_model : Thrown + Val;
  get_deploymentId : Thrown + Val;
  get_resourceGroup : Thrown + Val;
  get_options : Thrown + Val;
  build : Val -> Val -> Val -> Val -> Thrown + Val;
}.

Definition and_then {A B} (r : Thrown + A) (k : A -> Thrown + B) : Thrown + B :=
  match r with inl e => inl e | inr a => k a end.

(** The [try] block. *)
Definition embeddings_body (s : Supply) : Thrown + Val :=
  and_then (import_sdk s) (fun _ =>
  and_then (getCredentials s) (fun credentials =>
  and_then (get_model s) (fun model =>
  and_then (get_deploymentId s) (fun deploymentId =>
  and_then (get_resourceGroup s) (fun resourceGroup =>
  and_then (get_options s) (fun options =>
  and_then (member "clientId" credentials) (fun clientId =>
  let clientSecret := Js.get "clientSecret" credentials in
  let oauthUrl := Js.get "oauthUrl" credentials in
  let baseUrl := Js.get "baseUrl" credentials in
  if negb (truthy clientId) || negb (truthy clientSecret)
     || negb (truthy oauthUrl) || negb (truthy baseUrl)
  then inl (NodeOperationError_of_text incomplete_credentials)
  else
    and_then (blank deploymentId) (fun is_blank =>
    if is_blank then inl (NodeOperationError_of_text deployment_required)
    else build s model deploymentId resourceGroup options)))))))).

(** [SapAiCoreEmbeddings.supplyData] *)
Definition embeddings_supplyData (s : Supply) : Thrown + Val :=
  match embeddings_body s with
  | inr response => inr response
  | inl error => inl (supplyData_catch embeddings_texts error)
  end.

(** [clientId && clientSecret && oauthUrl && baseUrl] *)
Definition complete (credentials : Val) : bool :=
  truthy (Js.get "clientId" credentials)
  && truthy (Js.get "clientSecret" credentials)
  && truthy (Js.get "oauthUrl" credentials)
  && truthy (Js.get "baseUrl" credentials).

(** The message makes the [catch] of [execute] throw a fixed error
    before it looks at [continueOnFail]. *)
Definition fatal (m : string) : bool :=
  includes "Cannot find module" m && includes "@sap-ai-sdk/langchain" m
  || includes "authentication" m || includes "401" m.

(** A rejected request as an HTTP client reports it. *)
Definition unauthorized : Thrown :=
  Raised true (VObj [("name", VStr "Error");
                     ("message", VStr "Request failed with status code 401")]).

(** Complete credentials. *)
Definition demo_credentials : Val :=
  VObj [("clientId", VStr "sb-1"); ("clientSecret", VStr "s3");
        ("oauthUrl", VStr "https://auth.example"); ("baseUrl", VStr "https://api.example")].

(** A run in which the host answers every question and the deployment
    id was left empty. *)
Definition supply_without_deployment : Supply := {|
  import_sdk := inr tt;
  getCredentials := inr demo_credentials;
  get_model := inr (VStr "text-embedding-ada-002");
  get_deploymentId := inr (VStr "  ");
  get_resourceGroup := inr (VStr "default");
  get_options := inr (VObj []);
  build := fun _ _ _ _ => inr (VObj []);
|}.

End Nodes.

Import Nodes.

(** ** utils/helpers.ts, sessions and the safe tool wrapper *)
Module HelperFunctions.

(** *** getSessionId *)

(** What the host answers [getSessionId]: the selector parameter,
    whether [ctx] has [getBodyData] and what it returns, what the
    expression [$json.sessionId] evaluates to, and the custom key
    parameter (with its default, the empty string). *)
Record SessionContext := {
  selectorType : Val;
  has_getBodyData : bool;
  bodyData : Val;
  evaluatedValue : Val;
  sessionKeyValue : Val;
}.

(** [v || ""] *)
Definition or_empty (v : Val) : Val := if truthy v then v else VStr "".

Definition no_session_id : Thrown :=
  Structured NodeOperationErrorK (VStr "No session ID found")
    (VStr "Expected to find the session ID in an input field called 'sessionId' (this is what the chat trigger node outputs). To use something else, change the 'Session ID' parameter")
    None None.

Definition key_parameter_empty : Thrown :=
  Structured NodeOperationErrorK (VStr "Key parameter is empty")
    (VStr "Provide a key to use as session ID in the 'Key' parameter or use the 'Connected Chat Trigger Node' option to use the session ID from your Chat Trigger")
    None None.

(** [getSessionId(ctx, itemIndex, selectorKey, autoSelect, customKey)] *)
Definition getSessionId (ctx : SessionContext) (autoSelect : string)
  : Thrown + string :=
  if strict_eq (selectorType ctx) (VStr autoSelect) then
    let sessionId :=
      if has_getBodyData ctx
      then String_ (or_empty (Js.get "sessionId"
                                (LogWrapper.coalesce (bodyData ctx) (VObj []))))
      else String_ (or_empty (evaluatedValue ctx)) in
    if String.eqb sessionId "" then inl no_session_id else inr sessionId
  else
    let sessionId :=
      if truthy (sessionKeyValue ctx) then String_ (sessionKeyValue ctx) else "" in
    if String.eqb sessionId "" || String.eqb sessionId "undefined"
    then inl key_parameter_empty
    else inr sessionId.

(** The value the session id is read from. *)
Definition session_source (ctx : SessionContext) (autoSelect : string) : Val :=
  if strict_eq (selectorType ctx) (VStr autoSelect) then
    if has_getBodyData ctx
    then Js.get "sessionId" (LogWrapper.coalesce (bodyData ctx) (VObj []))
    else evaluatedValue ctx
  else sessionKeyValue ctx.

(** *** createSafeToolWrapper *)

Definition typeof_name (v : Val) : string :=
  match typeof v with
  | TUndefined => "undefined"
  | TObject => "object"
  | TBoolean => "boolean"
  | TNumber => "number"
  | TString => "string"
  | TFunction => "function"
  end.

(** A tool as [createSafeToolWrapper] meets it: the value, with its own
    enumerable members, and the members it has through its class (the
    methods of [N8nTool] or of a LangChain tool).  A plain object
    inherits none; for a value that is no object [inherited] plays no
    part. *)
Record ToolObject := {
  own : Val;
  inherited : list (string * Val);
}.

(** [tool[k]]: an own member, or else an inherited one. *)
Definition tool_get (k : string) (tool : ToolObject) : Val :=
  match own tool with
  | VObj fields =>
      match Js.lookup k fields with
      | Some v => v
      | None => default VUndefined (Js.lookup k (inherited tool))
      end
  | v => Js.get k v
  end.

Section SafeTool.

Context {W : Type}.

(** What calling the function value [VFun id] does, given [this] and
    the argument; and [Date.now()] as a reading of the world. *)
Variable apply_function : nat -> ToolObject -> Val -> W -> (Thrown + Val) * W.
Variable now : W -> Z.

(** [tool.func || tool._call] *)
Definition originalFunc (tool : ToolObject) : Val :=
  if truthy (tool_get "func" tool) then tool_get "func" tool
  else tool_get "_call" tool.

(** [originalFunc.call(tool, input)] *)
Definition call_original (f : Val) (tool : ToolObject) (input : Val)
  : LogWrapper.M W Val :=
  fun st =>
    match f with
    | VFun id =>
        let '(r, w) := apply_function id tool input (LogWrapper.world st) in
        (r, {| LogWrapper.world := w; LogWrapper.sink := LogWrapper.sink st;
               LogWrapper.telemetry := LogWrapper.telemetry st |})
    | _ => (inl (TypeError "originalFunc.call is not a function"), st)
    end.

Definition execution_start (tool : ToolObject) (input : Val) : AiEvent :=
  {| event_name := "tool-execution-start";
     event_data :=
       VObj [("toolName", tool_get "name" tool);
             ("input",
              match input with
              | VStr s =>
                  VStr (string_of_list_ascii
                          (substring_to 200 (list_ascii_of_string s)))
              | _ => VStr "object"
              end)] |}.

Definition execution_success (tool : ToolObject) (duration : Z) (result : Val)
  : AiEvent :=
  {| event_name := "tool-execution-success";
     event_data := VObj [("toolName", tool_get "name" tool);
                         ("duration", VNum duration);
                         ("resultType", VStr (typeof_name result))] |}.

Definition execution_error (tool : ToolObject) (duration : Z) (error : Thrown)
  : AiEvent :=
  {| event_name := "tool-execution-error";
     event_data := VObj [("toolName", tool_get "name" tool);
                         ("duration", VNum duration);
                         ("error", error_text error)] |}.

Definition emit (ev : AiEvent) : LogWrapper.M W unit :=
  LogWrapper.logAiEvent (event_name ev) (event_data ev).

(** [safeFunc(input)] *)
Definition safeFunc (tool : ToolObject) (input : Val) : LogWrapper.M W Val :=
  fun st =>
    let startTime := now (LogWrapper.world st) in
    try_catch
      (do! emit (execution_start tool input) in
       let! result := call_original (originalFunc tool) tool input in
       fun st' =>
         let duration := (now (LogWrapper.world st') - startTime)%Z in
         (do! emit (execution_success tool duration result) in ret result) st')
      (fun error st' =>
         let duration := (now (LogWrapper.world st') - startTime)%Z in
         (do! emit (execution_error tool duration error) in throw error) st')
      st.

(** [createSafeToolWrapper(tool, ctx)]: the object it returns, in which
    [VFun safe] stands for the new function [safeFunc].  The spread
    [{ ...tool, func, _call }] copies the own enumerable members of the
    tool into a plain object: what the tool inherits is not copied. *)
Definition createSafeToolWrapper (safe : nat) (tool : ToolObject)
  : Thrown + ToolObject :=
  match own tool with
  | VUndefined =>
      inl (TypeError "Cannot read properties of undefined (reading 'func')")
  | VNull => inl (TypeError "Cannot read properties of null (reading 'func')")
  | _ =>
      if truthy (originalFunc tool)
      then inr {| own := VObj (Js.set "_call" (VFun safe)
                                 (Js.set "func" (VFun safe) (spread (own tool))));
                  inherited := [] |}
      else inl (Error_of_text ("Tool " +:+ String_ (tool_get "name" tool)
                               +:+ " has no executable function"))
  end.

End SafeTool.

(** *** extractParsedOutput *)

Section Parsing.

Context {W : Type}.

(** [outputParser]: its [parse] and [parseResult] members, each present
    when it is a function. *)
Record Parser := {
  parse : option (Val -> W -> (Thrown + Val) * W);
  parseResult : option (Val -> W -> (Thrown + Val) * W);
}.

Definition call_method (f : Val -> W -> (Thrown + Val) * W) (input : Val)
  : LogWrapper.M W Val :=
  fun st =>
    let '(r, w) := f input (LogWrapper.world st) in
    (r, {| LogWrapper.world := w; LogWrapper.sink := LogWrapper.sink st;
           LogWrapper.telemetry := LogWrapper.telemetry st |}).

Definition parsing_failed (error : Thrown) (raw : string) : AiEvent :=
  {| event_name := "output-parsing-failed";
     event_data :=
       VObj [("error", error_text error);
             ("rawOutput",
              VStr (string_of_list_ascii
                      (substring_to 200 (list_ascii_of_string raw))))] |}.

(** [extractParsedOutput(ctx, outputParser, rawOutput)]; [None] is a
    falsy [outputParser]. *)
Definition extractParsedOutput (outputParser : option Parser) (rawOutput : Val)
  : LogWrapper.M W Val :=
  match outputParser with
  | None => ret rawOutput
  | Some parser =>
      if negb (truthy rawOutput) then ret rawOutput
      else
        try_catch
          (match parse parser with
           | Some f => call_method f rawOutput
           | None =>
               match parseResult parser with
               | Some g => call_method g rawOutput
               | None => ret rawOutput
               end
           end)
          (fun error =>
             match rawOutput with
             | VStr raw =>
                 do! LogWrapper.logAiEvent
                       (event_name (parsing_failed error raw))
                       (event_data (parsing_failed error raw)) in
                 ret rawOutput
             | _ => throw (TypeError "rawOutput.substring is not a function")
             end)
  end.

(** The method [extractParsedOutput] calls, if any. *)
Definition chosen (parser : Parser) : option (Val -> W -> (Thrown + Val) * W) :=
  match parse parser with
  | Some f => Some f
  | None => parseResult parser
  end.

End Parsing.

Arguments Parser : clear implicits.

(** A chat trigger that delivers the session id [a1b2]. *)
Definition chat_session : SessionContext := {|
  selectorType := VStr "fromInput";
  has_getBodyData := true;
  bodyData := VObj [("sessionId", VStr "a1b2")];
  evaluatedValue := VUndefined;
  sessionKeyValue := VStr "";
|}.

(** An instance of the class [N8nTool]: its fields are its own members,
    its method [asDynamicTool] comes from the class. *)
Definition calc_tool : ToolObject := {|
  own := VObj [("name", VStr "calc"); ("description", VStr "Adds numbers");
               ("func", VFun 7)];
  inherited := [("asDynamicTool", VFun 9)];
|}.

End HelperFunctions.

Import HelperFunctions.

(** ** utils/schemaParsing.ts, generating and checking schemas *)
Module SchemaGeneration.

(** [o[k] = v] on an ordinary object: the key [__proto__] reaches the
    setter of [Object.prototype], which changes the prototype (for an
    object value) and defines no own property. *)
Definition assign (k : string) (v : Val) (o : list (string * Val))
  : list (string * Val) :=
  if String.eqb k "__proto__" then o else Js.set k v o.

Definition string_schema : Val := VObj [("type", VStr "string")].

(** [generateSchemaFromObject(obj)] *)
Fixpoint generateSchemaFromObject (obj : Val) : Val :=
  match obj with
  | VNull => VObj [("type", VStr "null")]
  | VBool _ => VObj [("type", VStr "boolean")]
  | VNum _ => VObj [("type", VStr "number")]
  | VStr _ => VObj [("type", VStr "string")]
  | VArr elements =>
      VObj [("type", VStr "array");
            ("items",
             match elements with
             | first :: _ => generateSchemaFromObject first
             | [] => string_schema
             end)]
  | VObj fields =>
      VObj [("type", VStr "object");
            ("properties",
             VObj ((fix go (fs acc : list (string * Val)) : list (string * Val) :=
                      match fs with
                      | [] => acc
                      | (key, value) :: rest =>
                          go rest (assign key (generateSchemaFromObject value) acc)
                      end) fields []));
            ("required", VArr (map (fun kv => VStr (fst kv)) fields))]
  | VUndefined | VFun _ => string_schema
  end.

(** The loop that fills [properties]. *)
Fixpoint generated_properties (fs acc : list (string * Val)) : list (string * Val) :=
  match fs with
  | [] => acc
  | (key, value) :: rest =>
      generated_properties rest (assign key (generateSchemaFromObject value) acc)
  end.

(** [validateJsonSchema(schema)]; nothing in its [try] block throws. *)
Definition validateJsonSchema (schema : Val) : bool :=
  if negb (is_object_type schema) || strict_eq schema VNull then false
  else if negb (truthy (Js.get "type" schema)) then false
  else if strict_eq (Js.get "type" schema) (VStr "object")
          && negb (truthy (Js.get "properties" schema)) then false
  else if strict_eq (Js.get "type" schema) (VStr "array")
          && negb (truthy (Js.get "items" schema)) then false
  else true.

(** The members every ordinary object inherits from [Object.prototype]. *)
Definition object_prototype_members : list string :=
  ["constructor"; "__defineGetter__"; "__defineSetter__"; "hasOwnProperty";
   "__lookupGetter__"; "__lookupSetter__"; "isPrototypeOf";
   "propertyIsEnumerable"; "toString"; "valueOf"; "__proto__";
   "toLocaleString"].

(** [key in data] for an ordinary object [data]. *)
Definition in_object (key : Val) (fields : list (string * Val)) : bool :=
  has_key (String_ key) fields
  || existsb (String.eqb (String_ key)) object_prototype_members.

Definition expected (what : string) (data : Val) : Thrown :=
  Utilities.Error_of_text
    ("Expected " +:+ what +:+ ", got " +:+ HelperFunctions.typeof_name data).

(** The check of [required], for an object [data]. *)
Definition check_required (schema : Val) (fields : list (string * Val))
  : Thrown + unit :=
  match Js.get "required" schema with
  | VArr required =>
      match List.find (fun requiredProp => negb (in_object requiredProp fields))
              required with
      | Some missing =>
          inl (Utilities.Error_of_text
                 ("Missing required property: " +:+ String_ missing))
      | None => inr tt
      end
  | _ => inr tt
  end.

(** [validateDataAgainstSchema(data, schema)] *)
Definition validateDataAgainstSchema (data schema : Val) : Thrown + Val :=
  if negb (truthy schema) || negb (is_object_type schema) then inr data
  else
    let type := Js.get "type" schema in
    if strict_eq type (VStr "string") then
      if is_string data then inr data else inl (expected "string" data)
    else if strict_eq type (VStr "number") then
      match data with VNum _ => inr data | _ => inl (expected "number" data) end
    else if strict_eq type (VStr "boolean") then
      match data with VBool _ => inr data | _ => inl (expected "boolean" data) end
    else if strict_eq type (VStr "array") then
      match data with VArr _ => inr data | _ => inl (expected "array" data) end
    else if strict_eq type (VStr "object") then
      match data with
      | VObj fields =>
          match check_required schema fields with
          | inl e => inl e
          | inr _ => inr data
          end
      | _ => inl (expected "object" data)
      end
    else inr data.

(** [createSchemaValidator(schema).validate(data)]: [valid] and
    [errors]. *)
Definition validate (schema data : Val) : bool * list Val :=
  match validateDataAgainstSchema data schema with
  | inr _ => (true, [])
  | inl error => (false, [error_text error])
  end.

(** [convertToOpenApiSchema(schema)] *)
Definition convertToOpenApiSchema (schema : Val) : Val :=
  if negb (truthy schema) || negb (is_object_type schema) then string_schema
  else if truthy (Js.get "type" schema) then schema
  else generateSchemaFromObject schema.

(** [isPropertySchema(property)]: no array and no built-in prototype
    has a member [type]. *)
Definition isPropertySchema (property : Val) : bool :=
  match property with
  | VObj fields => has_key "type" fields
  | _ => false
  end.

(** [makeAllPropertiesRequired(schema)], for the object it is called
    with (the generated schema, and from there every value that passes
    [isPropertySchema]); a string, a number or an array would come
    back as it is.

    The source changes [schema.properties] and [schema.items] in place;
    [children] holds, for every member of [schema], what the function
    makes of it as a schema and as a [properties] object, which keeps
    the recursion structural.  The equation in source shape is
    [makeAllPropertiesRequired_unfold]. *)
Fixpoint makeAllPropertiesRequired (schema : Val) : Val :=
  let require_members :=
    fix go (fs : list (string * Val)) : list (string * Val) :=
      match fs with
      | [] => []
      | (k, v) :: rest =>
          (k, if isPropertySchema v then makeAllPropertiesRequired v else v)
          :: go rest
      end in
  let require_elements :=
    fix go (l : list Val) : list Val :=
      match l with
      | [] => []
      | x :: rest =>
          (if isPropertySchema x then makeAllPropertiesRequired x else x)
          :: go rest
      end in
  let required_properties (p : Val) : Val :=
    match p with
    | VObj fs => VObj (require_members fs)
    | VArr l => VArr (require_elements l)
    | _ => p
    end in
  match schema with
  | VObj fields =>
      let children :=
        (fix go (fs : list (string * Val)) : list (string * (Val * Val)) :=
           match fs with
           | [] => []
           | (k, v) :: rest =>
               (k, (makeAllPropertiesRequired v, required_properties v)) :: go rest
           end) fields in
      let type := Js.get "type" schema in
      let fields1 :=
        match Js.lookup "properties" fields, lookup_child "properties" children with
        | Some p, Some (_, p') =>
            if strict_eq type (VStr "object") && truthy p then
              let keys := map (fun kv => VStr (fst kv)) (entries p) in
              let with_required :=
                match keys with
                | [] => fields
                | _ => Js.set "required" (VArr keys) fields
                end in
              Js.set "properties" p' with_required
            else fields
        | _, _ => fields
        end in
      let fields2 :=
        match Js.lookup "items" fields1, lookup_child "items" children with
        | Some it, Some (it', _) =>
            if strict_eq (Js.get "type" (VObj fields1)) (VStr "array")
               && truthy it && isPropertySchema it
            then Js.set "items" it' fields1
            else fields1
        | _, _ => fields1
        end in
      VObj fields2
  | _ => schema
  end.

(** [schema.properties] after the loop over its keys. *)
Definition required_properties (p : Val) : Val :=
  let require v := if isPropertySchema v then makeAllPropertiesRequired v else v in
  match p with
  | VObj fs => VObj (map (fun kv => (fst kv, require (snd kv))) fs)
  | VArr l => VArr (map require l)
  | _ => p
  end.

(** The first half of the body: [required] and the properties. *)
Definition require_object (fields : list (string * Val)) : list (string * Val) :=
  match Js.lookup "properties" fields with
  | Some p =>
      if strict_eq (Js.get "type" (VObj fields)) (VStr "object") && truthy p then
        let keys := map (fun kv => VStr (fst kv)) (entries p) in
        Js.set "properties" (required_properties p)
          (match keys with
           | [] => fields
           | _ => Js.set "required" (VArr keys) fields
           end)
      else fields
  | None => fields
  end.

(** The second half: the items of an array. *)
Definition require_items (fields : list (string * Val)) : list (string * Val) :=
  match Js.lookup "items" fields with
  | Some it =>
      if strict_eq (Js.get "type" (VObj fields)) (VStr "array")
         && truthy it && isPropertySchema it
      then Js.set "items" (makeAllPropertiesRequired it) fields
      else fields
  | None => fields
  end.

(** [generateSchemaFromExample(exampleJsonString, allFieldsRequired)];
    [parsed] is what [jsonParse(exampleJsonString)] returned or threw. *)
Definition generateSchemaFromExample (parsed : Thrown + Val)
    (allFieldsRequired : bool) : Thrown + Val :=
  match parsed with
  | inr parsedExample =>
      let schema := generateSchemaFromObject parsedExample in
      inr (if allFieldsRequired then makeAllPropertiesRequired schema else schema)
  | inl error =>
      inl (Utilities.Error_of_text
             ("Failed to generate schema from example: "
              +:+ (if instanceof_Error error
                   then String_ (thrown_get "message" error)
                   else "Unknown error")))
  end.

(** A value as [JSON.parse] builds it from a text in which no object
    repeats a key or has a member named [__proto__]. *)
Fixpoint plain (v : Val) : bool :=
  match v with
  | VArr elements =>
      (fix go (l : list Val) : bool :=
         match l with
         | [] => true
         | x :: rest => plain x && go rest
         end) elements
  | VObj fields =>
      bool_decide (NoDup (map fst fields))
      && (fix go (fs : list (string * Val)) : bool :=
            match fs with
            | [] => true
            | (k, x) :: rest =>
                negb (String.eqb k "__proto__") && plain x && go rest
            end) fields
  | _ => true
  end.

(** An example with a nested object and a list. *)
Definition order_example : Val :=
  VObj [("id", VNum 7);
        ("customer", VObj [("name", VStr "Ada"); ("vip", VBool true)]);
        ("lines", VArr [VObj [("sku", VStr "A1"); ("qty", VNum 2)]])].

End SchemaGeneration.

Import SchemaGeneration.

(** ** The tool formats of SAP AI Core *)
Module ToolFormat.

Section Format.

(** [zodToJsonSchema], of the package [zod-to-json-schema]: what it
    returns or throws for a schema. *)
Variable zodToJsonSchema : Val -> Thrown + Val.

(** [formatToSapAiCoreTool(tool)] *)
Definition formatToSapAiCoreTool (tool : Val) : Thrown + Val :=
  Nodes.and_then (Nodes.member "schema" tool) (fun declared =>
  Nodes.and_then (zodToJsonSchema (if truthy declared then declared else VObj []))
    (fun schema =>
  inr (VObj [("type", VStr "function");
             ("function",
              VObj [("name", Js.get "name" tool);
                    ("description", Js.get "description" tool);
                    ("parameters", schema)])]))).

(** [validateSapAiCoreTool(tool)].  On [null] and [undefined] the read
    of [tool.name] throws in the [try] block and again in the [catch],
    where the warning is built. *)
Definition validateSapAiCoreTool (tool : Val) : Thrown + bool :=
  match Nodes.member "name" tool with
  | inl e => inl e
  | inr name =>
      if negb (truthy name) || negb (is_string name) then inr false
      else
        let description := Js.get "description" tool in
        if negb (truthy description) || negb (is_string description) then inr false
        else
          let schema := Js.get "schema" tool in
          if truthy schema then
            match zodToJsonSchema schema with
            | inl _ => inr false
            | inr _ => inr true
            end
          else inr true
  end.

(** [tools.filter(validateSapAiCoreTool)] *)
Fixpoint filter_valid (tools : list Val) : Thrown + list Val :=
  match tools with
  | [] => inr []
  | tool :: rest =>
      Nodes.and_then (validateSapAiCoreTool tool) (fun keep =>
      Nodes.and_then (filter_valid rest) (fun kept =>
      inr (if keep then tool :: kept else kept)))
  end.

(** [tools.map(formatToSapAiCoreTool)] *)
Fixpoint format_all (tools : list Val) : Thrown + list Val :=
  match tools with
  | [] => inr []
  | tool :: rest =>
      Nodes.and_then (formatToSapAiCoreTool tool) (fun formatted =>
      Nodes.and_then (format_all rest) (fun others =>
      inr (formatted :: others)))
  end.

(** [convertToolsToSapAiCoreFormat(tools)] *)
Definition convertToolsToSapAiCoreFormat (tools : list Val) : Thrown + list Val :=
  Nodes.and_then (filter_valid tools) format_all.

(** The verdict of [validateSapAiCoreTool] on a tool that is there. *)
Definition valid_tool (tool : Val) : bool :=
  match validateSapAiCoreTool tool with
  | inr keep => keep
  | inl _ => false
  end.

End Format.

(** The object [formatToSapAiCoreTool] builds around [parameters]. *)
Definition function_tool (tool parameters : Val) : Val :=
  VObj [("type", VStr "function");
        ("function",
         VObj [("name", Js.get "name" tool);
               ("description", Js.get "description" tool);
               ("parameters", parameters)])].

(** [tool.function?.name] (the [name] a function value has of its own
    is not modelled). *)
Definition function_name (tool : Val) : Thrown + Val :=
  Nodes.and_then (Nodes.member "function" tool) (fun f =>
  inr (match f with
       | VUndefined | VNull => VUndefined
       | _ => Js.get "name" f
       end)).

(** [tool.function?.name === name || tool.name === name] *)
Definition named (name : Val) (tool : Val) : Thrown + bool :=
  Nodes.and_then (function_name tool) (fun n =>
  inr (strict_eq n name || strict_eq (Js.get "name" tool) name)).

(** [findToolByName(tools, name)]; [VUndefined] when there is none. *)
Fixpoint findToolByName (tools : list Val) (name : Val) : Thrown + Val :=
  match tools with
  | [] => inr VUndefined
  | tool :: rest =>
      Nodes.and_then (named name tool) (fun found =>
      if found then inr tool else findToolByName rest name)
  end.

(** [tools.map(tool => tool.function?.name || tool.name)] *)
Fixpoint names_of (tools : list Val) : Thrown + list Val :=
  match tools with
  | [] => inr []
  | tool :: rest =>
      Nodes.and_then (function_name tool) (fun n =>
      Nodes.and_then (names_of rest) (fun ns =>
      inr ((if truthy n then n else Js.get "name" tool) :: ns)))
  end.

(** [extractToolNames(tools)] *)
Definition extractToolNames (tools : list Val) : Thrown + list Val :=
  Nodes.and_then (names_of tools) (fun ns => inr (List.filter truthy ns)).

(** A tool is there: it is neither [null] nor [undefined]. *)
Definition present (tool : Val) : bool :=
  match tool with VUndefined | VNull => false | _ => true end.

(** A converter to run the examples with.  Like [zodToJsonSchema] it
    reads [schema._def] and throws a [TypeError] on a value that has
    none, the empty object included; for a value that has one it
    answers an object schema. *)
Definition zod_like (schema : Val) : Thrown + Val :=
  match Js.get "_def" schema with
  | VUndefined | VNull =>
      inl (TypeError "Cannot read properties of undefined (reading 'typeName')")
  | _ => inr (VObj [("type", VStr "object")])
  end.

Definition zod_object : Val :=
  VObj [("_def", VObj [("typeName", VStr "ZodObject")])].

(** Two tools that declare a schema, around one without a name. *)
Definition declared_tools : list Val :=
  [VObj [("name", VStr "search"); ("description", VStr "Searches");
         ("schema", zod_object)];
   VObj [("name", VStr ""); ("description", VStr "nameless")];
   VObj [("name", VStr "calc"); ("description", VStr "Adds");
         ("schema", zod_object)]].

(** The same with a first tool that declares no schema. *)
Definition two_tools : list Val :=
  [VObj [("name", VStr "search"); ("description", VStr "Searches")];
   VObj [("name", VStr ""); ("description", VStr "nameless")];
   VObj [("name", VStr "calc"); ("description", VStr "Adds");
         ("schema", zod_object)]].

End ToolFormat.

Import ToolFormat.

(* ===================================================================== *)
(** * Part II: properties                                                 *)
(* ===================================================================== *)

Arguments String.eqb : simpl never.
Arguments Ascii.eqb : simpl never.

(** ** Values *)

(** Induction over values with the hypothesis available for every
    element of an array and every member of an object. *)
Lemma Val_ind' (P : Val -> Prop) :
  P VUndefined -> P VNull -> (forall b, P (VBool b)) -> (forall n, P (VNum n)) ->
  (forall s, P (VStr s)) -> (forall i, P (VFun i)) ->
  (forall l, Forall P l -> P (VArr l)) ->
  (forall fs, Forall (fun kv => P (snd kv)) fs -> P (VObj fs)) ->
  forall v, P v.
Proof.
  intros Hu Hn Hb Hz Hs Hf Ha Ho.
  refine (fix IH (v : Val) : P v :=
            match v with
            | VUndefined => Hu
            | VNull => Hn
            | VBool b => Hb b
            | VNum n => Hz n
            | VStr s => Hs s
            | VFun i => Hf i
            | VArr l =>
                Ha l ((fix elems (l : list Val) : Forall P l :=
                         match l with
                         | [] => List.Forall_nil _
                         | x :: r => List.Forall_cons _ _ _ (IH x) (elems r)
                         end) l)
            | VObj fs =>
                Ho fs ((fix members (fs : list (string * Val))
                          : Forall (fun kv => P (snd kv)) fs :=
                          match fs with
                          | [] => List.Forall_nil _
                          | kv :: r => List.Forall_cons _ _ _ (IH (snd kv)) (members r)
                          end) fs)
            end).
Qed.

Section PropertyLists.

Implicit Types (o : list (string * Val)) (k : string).

Lemma lookup_delete_same k o : Js.lookup k (Js.delete k o) = None.
Proof.
  induction o as [|[k' v] o IH]; simpl; [done|].
  destruct (String.eqb k k') eqn:E; simpl; [done|]. by rewrite E.
Qed.

Lemma lookup_delete_other k k' o :
  k <> k' -> Js.lookup k (Js.delete k' o) = Js.lookup k o.
Proof.
  intros Hne. induction o as [|[k2 v] o IH]; simpl; [done|].
  destruct (String.eqb k' k2) eqn:E.
  - apply String.eqb_eq in E. subst k2.
    destruct (String.eqb k k') eqn:E'; [apply String.eqb_eq in E'; done | done].
  - simpl. by rewrite IH.
Qed.

Lemma lookup_delete_None k k' o :
  Js.lookup k o = None -> Js.lookup k (Js.delete k' o) = None.
Proof.
  intros H. destruct (decide (k = k')) as [->|Hne].
  - apply lookup_delete_same.
  - by rewrite lookup_delete_other.
Qed.

Lemma lookup_replace_value k k' v o :
  Js.lookup k (Js.replace_value k' v o)
  = match Js.lookup k o with
    | Some x => Some (if String.eqb k' k then v else x)
    | None => None
    end.
Proof.
  induction o as [|[k2 x] o IH]; simpl; [done|].
  destruct (String.eqb k k2) eqn:E; [|done].
  apply String.eqb_eq in E. subst k2. done.
Qed.

Lemma lookup_app k o o' :
  Js.lookup k (o ++ o')
  = match Js.lookup k o with Some x => Some x | None => Js.lookup k o' end.
Proof.
  induction o as [|[k2 x] o IH]; simpl; [done|].
  by destruct (String.eqb k k2).
Qed.

Lemma lookup_set_same k v o : Js.lookup k (Js.set k v o) = Some v.
Proof.
  unfold Js.set, Js.has_key. destruct (Js.lookup k o) eqn:E.
  - rewrite lookup_replace_value, E. by rewrite String.eqb_refl.
  - rewrite lookup_app, E. simpl. by rewrite String.eqb_refl.
Qed.

Lemma lookup_set_other k k' v o :
  k <> k' -> Js.lookup k (Js.set k' v o) = Js.lookup k o.
Proof.
  intros Hne. unfold Js.set, Js.has_key. destruct (Js.lookup k' o) eqn:E.
  - rewrite lookup_replace_value. destruct (Js.lookup k o); [|done].
    destruct (String.eqb k' k) eqn:E'; [apply String.eqb_eq in E'; done | done].
  - rewrite lookup_app. destruct (Js.lookup k o); [done|].
    simpl. destruct (String.eqb k k') eqn:E'; [apply String.eqb_eq in E'; done | done].
Qed.

End PropertyLists.

(** ** Schema simplification *)
Section SchemaStripping.

Lemma lookup_child_map {A} (g : Val -> A) k (fs : list (string * Val)) :
  lookup_child k (map (fun kv => (fst kv, g (snd kv))) fs) = g <$> Js.lookup k fs.
Proof.
  induction fs as [|[k' v] fs IH]; simpl; [done|].
  by destruct (String.eqb k k').
Qed.

Lemma lookup_delete_keywords k fs :
  ~ In k deleted_keywords ->
  Js.lookup k (delete_keywords fs) = Js.lookup k fs.
Proof.
  intros Hk. unfold delete_keywords.
  revert fs. induction deleted_keywords as [|d ds IH]; intros fs; simpl; [done|].
  rewrite IH by (intros ?; apply Hk; by right).
  apply lookup_delete_other. intros ->. apply Hk. by left.
Qed.

Lemma lookup_delete_keywords_None k fs :
  In k deleted_keywords -> Js.lookup k (delete_keywords fs) = None.
Proof.
  unfold delete_keywords. revert fs.
  induction deleted_keywords as [|d ds IH]; intros fs Hin; simpl; [done|].
  destruct (decide (k = d)) as [->|Hne].
  - clear IH Hin. generalize (lookup_delete_same d fs).
    generalize (Js.delete d fs). clear fs.
    induction ds as [|d' ds IH]; intros o Ho; simpl; [done|].
    apply IH. by apply lookup_delete_None.
  - apply IH. destruct Hin as [->|]; done.
Qed.

Lemma pretty_N_go_all_digits x s :
  all_digits s = true -> all_digits (pretty_N_go x s) = true.
Proof.
  revert s. induction (N.lt_wf_0 x) as [x _ IH]; intros s Hs.
  destruct (decide (x = 0)%N) as [->|Hx].
  - by rewrite pretty_N_go_0.
  - rewrite pretty_N_go_step by lia. apply IH.
    + apply N.div_lt; lia.
    + simpl. rewrite Hs, andb_true_r.
      unfold pretty_N_char. by repeat case_match.
Qed.

Lemma pretty_nat_all_digits (i : nat) : all_digits (pretty i) = true.
Proof.
  unfold pretty, pretty_nat, pretty, pretty_N.
  case_decide; [done|]. by apply pretty_N_go_all_digits.
Qed.

(** An index is never [__proto__]. *)
Lemma assigned_indexed_from i (l : list Val) :
  assigned (indexed_from i l) = indexed_from i l.
Proof.
  revert i. induction l as [|x l IH]; intros i; [done|].
  unfold assigned in *. simpl.
  destruct (String.eqb (pretty i) "__proto__") eqn:E.
  - apply String.eqb_eq in E. pose proof (pretty_nat_all_digits i) as H.
    rewrite E in H. discriminate.
  - simpl. f_equal. apply IH.
Qed.

Lemma assigned_In k x es : In (k, x) (assigned es) -> In (k, x) es.
Proof. unfold assigned. intros H. by apply filter_In in H as [? _]. Qed.

Lemma simplify_string_chars i s :
  Forall (fun kv => simplifySchemaForSapAiCore (snd kv) = fallback_schema)
         (indexed_from i (string_chars s)).
Proof.
  unfold string_chars. revert i.
  induction (list_ascii_of_string s) as [|c cs IH]; intros i; simpl; constructor; auto.
Qed.

(** The equation of the source: delete the seven members, then rebuild
    [properties] and [items] when they are truthy. *)
Lemma simplifySchemaForSapAiCore_unfold fields :
  simplifySchemaForSapAiCore (VObj fields)
  = VObj (assign_if_truthy "items" simplifySchemaForSapAiCore
            (assign_if_truthy "properties" new_properties
               (delete_keywords fields))).
Proof.
  cbn [simplifySchemaForSapAiCore].
  match goal with
  | |- context [lookup_child "properties" (?f fields)] =>
      assert (Hch : forall fs,
                 f fs = map (fun kv => (fst kv, (simplifySchemaForSapAiCore (snd kv),
                                                 new_properties (snd kv)))) fs)
  end.
  { induction fs as [|[k v] fs IH]; [done|].
    rewrite IH. simpl map. do 3 f_equal.
    destruct v as [ | | b | n | s | i | l | ps ]; try done.
    - unfold new_properties. f_equal. simpl entries.
      rewrite assigned_indexed_from. apply map_ext_in.
      intros kv Hin. f_equal.
      pose proof (simplify_string_chars 0 s) as Hall.
      rewrite Forall_forall in Hall. symmetry. apply Hall. by apply list_elem_of_In.
    - unfold new_properties. f_equal. simpl entries.
      rewrite assigned_indexed_from. generalize 0%nat.
      induction l as [|x l IHl]; intros i; [done|]. simpl. by rewrite IHl.
    - unfold new_properties, assigned. f_equal. simpl entries.
      induction ps as [|[k' x] ps IHps]; [done|]. simpl.
      destruct (String.eqb k' "__proto__"); simpl; by rewrite IHps. }
  rewrite !Hch.
  rewrite !(lookup_child_map
              (fun v => (simplifySchemaForSapAiCore v, new_properties v))).
  f_equal. unfold assign_if_truthy.
  rewrite !lookup_delete_keywords by (unfold deleted_keywords; simpl; intuition discriminate).
  destruct (Js.lookup "properties" fields) as [p|] eqn:Ep; simpl.
  - destruct (truthy p) eqn:Tp.
    + rewrite lookup_set_other by discriminate.
      rewrite lookup_delete_keywords by (unfold deleted_keywords; simpl; intuition discriminate).
      by destruct (Js.lookup "items" fields) as [it|].
    + rewrite lookup_delete_keywords by (unfold deleted_keywords; simpl; intuition discriminate).
      by destruct (Js.lookup "items" fields) as [it|].
  - rewrite lookup_delete_keywords by (unfold deleted_keywords; simpl; intuition discriminate).
    by destruct (Js.lookup "items" fields) as [it|].
Qed.

Lemma lookup_assign_same k f o :
  Js.lookup k (assign_if_truthy k f o)
  = (fun x => if truthy x then f x else x) <$> Js.lookup k o.
Proof.
  unfold assign_if_truthy. destruct (Js.lookup k o) as [x|] eqn:E; simpl.
  - destruct (truthy x); [apply lookup_set_same | by rewrite E].
  - by rewrite E.
Qed.

Lemma lookup_assign_other k k' f o :
  k <> k' -> Js.lookup k (assign_if_truthy k' f o) = Js.lookup k o.
Proof.
  intros Hne. unfold assign_if_truthy.
  destruct (Js.lookup k' o) as [x|]; [|done].
  destruct (truthy x); [by apply lookup_set_other | done].
Qed.

Lemma lookup_In k v (o : list (string * Val)) :
  Js.lookup k o = Some v -> In (k, v) o.
Proof.
  induction o as [|[k' x] o IH]; simpl; [done|].
  destruct (String.eqb k k') eqn:E.
  - apply String.eqb_eq in E. intros [= ->]. subst. by left.
  - intros H. right. by apply IH.
Qed.

Lemma lookup_indexed_from k i l :
  all_digits k = false -> Js.lookup k (indexed_from i l) = None.
Proof.
  intros Hk. revert i. induction l as [|x l IH]; intros i; simpl; [done|].
  destruct (String.eqb k (pretty i)) eqn:E; [|apply IH].
  apply String.eqb_eq in E. subst k. by rewrite pretty_nat_all_digits in Hk.
Qed.

Lemma KeywordFree_fallback K :
  ~ In "type" K -> KeywordFree K fallback_schema.
Proof.
  intros HK. apply kf_object.
  - intros k Hk. simpl. destruct (String.eqb k "type") eqn:E; [|done].
    apply String.eqb_eq in E. by subst.
  - intros ps. simpl. discriminate.
  - intros it. simpl. discriminate.
Qed.

Lemma KeywordFree_falsy K v : truthy v = false -> KeywordFree K v.
Proof. destruct v; simpl; try discriminate; constructor. Qed.

Lemma delete_keywords_lookup_None k fs :
  Js.lookup k fs = None -> Js.lookup k (delete_keywords fs) = None.
Proof.
  unfold delete_keywords. revert fs.
  induction deleted_keywords as [|d ds IH]; intros fs H; simpl; [done|].
  apply IH. by apply lookup_delete_None.
Qed.

Lemma mentions_member k fs k' x :
  mentions k (VObj fs) = false -> In (k', x) fs ->
  k <> k' /\ mentions k x = false.
Proof.
  induction fs as [|[k2 y] fs IH]; simpl; [done|].
  intros H [[= -> ->]|Hin].
  - apply orb_false_iff in H as [H _]. apply orb_false_iff in H as [H1 H2].
    split; [|done]. intros ->. by rewrite String.eqb_refl in H1.
  - apply orb_false_iff in H as [_ H]. by apply IH.
Qed.

Lemma mentions_element k l x :
  mentions k (VArr l) = false -> In x l -> mentions k x = false.
Proof.
  induction l as [|y l IH]; simpl; [done|].
  intros H [->|Hin]; apply orb_false_iff in H as [H1 H2]; [done|by apply IH].
Qed.

Lemma mentions_lookup_None k fs :
  mentions k (VObj fs) = false -> Js.lookup k fs = None.
Proof.
  intros H. destruct (Js.lookup k fs) as [x|] eqn:E; [|done].
  apply lookup_In in E. by destruct (mentions_member _ _ _ _ H E).
Qed.

Lemma indexed_from_In k x i l : In (k, x) (indexed_from i l) -> In x l.
Proof.
  revert i. induction l as [|y l IH]; intros i; simpl; [done|].
  intros [[= _ ->]|Hin]; [by left | right; eauto].
Qed.

Lemma mentions_entries k v k' x :
  mentions k v = false -> In (k', x) (entries v) -> mentions k x = false.
Proof.
  destruct v as [ | | b | n | s | i | l | fs ]; simpl; try done.
  - intros _ Hin. apply indexed_from_In in Hin. unfold string_chars in Hin.
    apply in_map_iff in Hin as [c [<- _]]. done.
  - intros H Hin. apply indexed_from_In in Hin. by eapply mentions_element.
  - intros H Hin. by eapply (mentions_member k fs k' x).
Qed.

Section KeywordFreedom.

(** Keywords that are either deleted by the function or absent from its
    input to begin with. *)
Variable K : list string.
Hypothesis K_not_type : ~ In "type" K.
Hypothesis K_not_rebuilt : ~ In "properties" K /\ ~ In "items" K.
Hypothesis K_not_index : forall k, In k K -> all_digits k = false.

Lemma gone_entries v k x : gone K v -> In (k, x) (entries v) -> gone K x.
Proof.
  intros Hv Hin k' Hk'. destruct (Hv k' Hk') as [?|Hm]; [by left|right].
  by eapply mentions_entries.
Qed.

Lemma simplify_keyword_free v :
  gone K v -> KeywordFree K (simplifySchemaForSapAiCore v).
Proof.
  assert (Hfb : KeywordFree K fallback_schema) by by apply KeywordFree_fallback.
  cut (gone K v ->
       KeywordFree K (simplifySchemaForSapAiCore v)
       /\ Forall (fun kv => KeywordFree K (simplifySchemaForSapAiCore (snd kv)))
                 (entries v)).
  { intros H Hv. by destruct (H Hv). }
  induction v as [ | | b | n | s | i | l IH | fs IH ] using Val_ind';
    try (intros _; split; [exact Hfb | by constructor]).
  - (* a string: its entries are its characters *)
    intros _. split; [exact Hfb|]. simpl.
    eapply Forall_impl; [apply simplify_string_chars|].
    intros kv ->. exact Hfb.
  - (* an array: the spread has index keys only *)
    intros Hv.
    assert (Hall : Forall (fun kv => KeywordFree K
                      (simplifySchemaForSapAiCore (snd kv))) (entries (VArr l))).
    { apply Forall_forall. intros [k x] Hin. apply list_elem_of_In in Hin.
      pose proof (gone_entries _ _ _ Hv Hin) as Hx.
      simpl in Hin. apply indexed_from_In in Hin.
      rewrite Forall_forall in IH. apply list_elem_of_In in Hin.
      by destruct (IH x Hin Hx). }
    split; [|exact Hall].
    simpl. apply kf_object.
    + intros k Hk. apply lookup_indexed_from. by apply K_not_index.
    + intros ps Hps. by rewrite lookup_indexed_from in Hps.
    + intros it Hit. by rewrite lookup_indexed_from in Hit.
  - (* an object *)
    intros Hv.
    assert (Hmem : forall k x, In (k, x) fs ->
               KeywordFree K (simplifySchemaForSapAiCore x)
               /\ Forall (fun kv => KeywordFree K
                            (simplifySchemaForSapAiCore (snd kv))) (entries x)).
    { intros k x Hin. rewrite Forall_forall in IH.
      apply (IH (k, x)); [by apply list_elem_of_In|].
      by apply (gone_entries (VObj fs) k x). }
    destruct K_not_rebuilt as [Kp Ki].
    split.
    + rewrite simplifySchemaForSapAiCore_unfold. apply kf_object.
      * intros k Hk.
        assert (k <> "items" /\ k <> "properties") as [Hi Hp].
        { split; intros ->; done. }
        rewrite !lookup_assign_other by done.
        destruct (Hv k Hk) as [Hd|Hm].
        -- by apply lookup_delete_keywords_None.
        -- by apply delete_keywords_lookup_None, mentions_lookup_None.
      * intros ps Hps k s Hin.
        rewrite lookup_assign_other in Hps by discriminate.
        rewrite lookup_assign_same in Hps.
        rewrite lookup_delete_keywords in Hps
          by (unfold deleted_keywords; simpl; intuition discriminate).
        destruct (Js.lookup "properties" fs) as [p|] eqn:Ep; [|discriminate].
        simpl in Hps. apply lookup_In in Ep. apply Hmem in Ep as [_ Hp].
        destruct (truthy p) eqn:Tp; [|injection Hps as ->; discriminate].
        assert (ps = map (fun kv => (fst kv, simplifySchemaForSapAiCore (snd kv)))
                         (assigned (entries p))) as ->.
        { destruct p; simpl in Tp; try discriminate; by injection Hps as <-. }
        apply in_map_iff in Hin as [[k' x] [[= <- <-] Hin]].
        apply assigned_In in Hin.
        rewrite Forall_forall in Hp. apply (Hp (k', x)). by apply list_elem_of_In.
      * intros it Hit.
        rewrite lookup_assign_same in Hit.
        rewrite lookup_assign_other in Hit by discriminate.
        rewrite lookup_delete_keywords in Hit
          by (unfold deleted_keywords; simpl; intuition discriminate).
        destruct (Js.lookup "items" fs) as [x|] eqn:Ex; [|discriminate].
        simpl in Hit. injection Hit as <-.
        destruct (truthy x) eqn:Tx; [|by apply KeywordFree_falsy].
        apply lookup_In in Ex. by apply Hmem in Ex as [? _].
    + simpl. apply Forall_forall. intros [k x] Hin.
      apply list_elem_of_In in Hin. by apply Hmem in Hin as [? _].
Qed.

End KeywordFreedom.

(** [removeRefs] leaves no [$ref] member anywhere. *)
Lemma removeRefs_removes_refs v : mentions "$ref" (removeRefs v) = false.
Proof.
  induction v as [ | | b | n | s | i | l IH | fs IH ] using Val_ind'; try done.
  - simpl. induction IH as [|x l Hx _ IHl]; simpl; [done|].
    by rewrite Hx.
  - simpl. induction IH as [|[k x] fs Hx _ IHfs]; simpl; [done|].
    destruct (String.eqb k "$ref") eqn:E; [done|].
    destruct (String.eqb k "__proto__"); [done|].
    simpl in Hx. rewrite Hx. simpl.
    by rewrite String.eqb_sym, E.
Qed.

Example simplify_strips_nested_keywords :
  simplifySchemaForSapAiCore
    (VObj [("$schema", VStr "http://json-schema.org/draft-07/schema#");
           ("type", VStr "array");
           ("items",
            VObj [("type", VStr "object");
                  ("properties", VObj [("n", VObj [("anyOf", VArr []);
                                                   ("type", VStr "number")])]);
                  ("not", VObj [])])])
  = VObj [("type", VStr "array");
          ("items",
           VObj [("type", VStr "object");
                 ("properties", VObj [("n", VObj [("type", VStr "number")])])])].
Proof. reflexivity. Qed.

Example simplify_of_a_non_object : simplifySchemaForSapAiCore (VStr "string") = fallback_schema.
Proof. reflexivity. Qed.

(** A property named [__proto__] does not reach [newProperties]; a
    member of that name at the top is copied by the spread. *)
Example simplify_drops_proto_property :
  simplifySchemaForSapAiCore
    (VObj [("type", VStr "object");
           ("properties", VObj [("a", VObj [("type", VStr "number")]);
                                ("__proto__", VObj [("type", VStr "string")])]);
           ("__proto__", VObj [])])
  = VObj [("type", VStr "object");
          ("properties", VObj [("a", VObj [("type", VStr "number")])]);
          ("__proto__", VObj [])].
Proof. reflexivity. Qed.

Example sanitize_address_schema :
  sanitizeSchema address_schema
  = inr (VObj [("type", VStr "object");
               ("properties", VObj [("home", VObj [])]);
               ("definitions",
                VObj [("address", VObj [("type", VStr "string")])])]).
Proof. reflexivity. Qed.

(** C3, as stated, fails: the claim lists [$ref] among the members
    [simplifySchemaForSapAiCore] strips, but the function leaves the
    [$ref] of a property schema in place (and deletes the [definitions]
    it points to). *)
Lemma C3_ref_survives_simplification :
  simplifySchemaForSapAiCore address_schema
  = VObj [("type", VStr "object");
          ("properties",
           VObj [("home", VObj [("$ref", VStr "#/definitions/address")])])]
  /\ ~ KeywordFree unsupported_keywords (simplifySchemaForSapAiCore address_schema).
Proof.
  split; [reflexivity|].
  intros H.
  assert (Hnode : forall fields,
             KeywordFree unsupported_keywords (VObj fields) ->
             (forall k, In k unsupported_keywords -> Js.lookup k fields = None)
             /\ (forall ps, Js.lookup "properties" fields = Some (VObj ps) ->
                 forall k s, In (k, s) ps -> KeywordFree unsupported_keywords s)).
  { intros fields Hkf. inversion Hkf; subst. by split. }
  apply Hnode in H as [_ Hprops].
  specialize (Hprops _ eq_refl "home" _ (or_introl eq_refl)).
  apply Hnode in Hprops as [Hkeys _].
  specialize (Hkeys "$ref").
  assert (In "$ref" unsupported_keywords) as Hin
    by (unfold unsupported_keywords; simpl; tauto).
  specialize (Hkeys Hin). discriminate Hkeys.
Qed.

(** C3, amended: for every input, no schema node of the result of
    [simplifySchemaForSapAiCore] (the root, the schemas under
    [properties], the schema under [items], recursively) has a member
    named [$schema], [$id], [definitions], [allOf], [anyOf], [oneOf] or
    [not].  [$ref] is not removed by this function but by
    [sanitizeSchema], whose result has no [$ref] member at any depth;
    simplifying a sanitized schema therefore leaves none of the eight
    keywords at any schema node.  ([sanitizeSchema] throws only on a
    value JSON cannot write.) *)
Theorem C3_schema_stripping (schema : Val) :
  KeywordFree deleted_keywords (simplifySchemaForSapAiCore schema)
  /\ match sanitizeSchema schema with
     | inr sanitized =>
         mentions "$ref" sanitized = false
         /\ KeywordFree unsupported_keywords
              (simplifySchemaForSapAiCore sanitized)
     | inl _ => json_copy schema = None
     end.
Proof.
  split.
  - apply simplify_keyword_free.
    + unfold deleted_keywords. simpl. intuition discriminate.
    + unfold deleted_keywords. simpl. intuition discriminate.
    + intros k Hk. unfold deleted_keywords in Hk. simpl in Hk.
      intuition (subst; reflexivity).
    + intros k Hk. by left.
  - unfold sanitizeSchema. destruct (json_copy schema) as [copy|]; [|done].
    split; [apply removeRefs_removes_refs|].
    apply simplify_keyword_free.
    + unfold unsupported_keywords. simpl. intuition discriminate.
    + unfold unsupported_keywords. simpl. intuition discriminate.
    + intros k Hk. unfold unsupported_keywords in Hk. simpl in Hk.
      intuition (subst; reflexivity).
    + intros k Hk. unfold unsupported_keywords in Hk. simpl in Hk.
      unfold deleted_keywords. simpl.
      destruct Hk as [<-|[<-|[<-|[<-|[<-|[<-|[<-|[<-|[]]]]]]]]]; try tauto.
      right. apply removeRefs_removes_refs.
Qed.

End SchemaStripping.

(** ** Brace escaping *)
Section BraceEscaping.

Implicit Types (c d x : ascii) (prev : option ascii) (s a b : list ascii).

Lemma is_char_eq c x : is_char c x = true <-> x = c.
Proof. unfold is_char. rewrite Ascii.eqb_eq. split; congruence. Qed.

Lemma opt_is_char_eq c o : opt_is_char c o = true <-> o = Some c.
Proof.
  destruct o as [y|]; simpl; [|split; discriminate].
  rewrite Ascii.eqb_eq. split; congruence.
Qed.

Lemma opt_is_char_same c : opt_is_char c (Some c) = true.
Proof. by apply opt_is_char_eq. Qed.

Lemma replace_triple_eq c prev x t :
  replace_triple c prev (x :: t)
  = if triple_at c prev (x :: t)
    then c :: c :: c :: c :: replace_triple c (Some c) (List.tl (List.tl t))
    else x :: replace_triple c (Some x) t.
Proof.
  destruct t as [|y [|z u]]; try reflexivity.
  cbn [replace_triple triple_at List.tl].
  destruct (is_char c z) eqn:Ez.
  - apply is_char_eq in Ez. subst z. reflexivity.
  - rewrite !andb_false_r. reflexivity.
Qed.

Lemma replace_single_eq c prev x t :
  replace_single c prev (x :: t)
  = if single_at c prev (x :: t)
    then c :: c :: replace_single c (Some x) t
    else x :: replace_single c (Some x) t.
Proof. reflexivity. Qed.

Lemma triple_at_shape c prev s :
  triple_at c prev s = true ->
  exists u, s = c :: c :: c :: u
            /\ opt_is_char c prev = false /\ opt_is_char c (head u) = false.
Proof.
  destruct s as [|x [|y [|z u]]]; simpl; try discriminate.
  rewrite !andb_true_iff, !negb_true_iff, !is_char_eq.
  intros [[[[-> ->] ->] ?] ?]. eauto.
Qed.

(** Induction along the scan of [replace_triple]. *)
Lemma replace_triple_ind c (P : option ascii -> list ascii -> list ascii -> Prop) :
  (forall prev, P prev [] []) ->
  (forall prev x t,
      triple_at c prev (x :: t) = false ->
      P (Some x) t (replace_triple c (Some x) t) ->
      P prev (x :: t) (x :: replace_triple c (Some x) t)) ->
  (forall prev u,
      opt_is_char c prev = false -> opt_is_char c (head u) = false ->
      P (Some c) u (replace_triple c (Some c) u) ->
      P prev (c :: c :: c :: u) (c :: c :: c :: c :: replace_triple c (Some c) u)) ->
  forall prev s, P prev s (replace_triple c prev s).
Proof.
  intros Hnil Hskip Hhit prev s.
  remember (length s) as n eqn:Hn. revert prev s Hn.
  induction n as [n IH] using lt_wf_ind. intros prev [|x t] Hn.
  - apply Hnil.
  - rewrite replace_triple_eq. destruct (triple_at c prev (x :: t)) eqn:E.
    + apply triple_at_shape in E as (u & [= -> ->] & Hp & Hu).
      apply Hhit; [done..|]. eapply IH; [|reflexivity]. subst n. simpl. lia.
    + apply Hskip; [done|]. eapply IH; [|reflexivity]. subst n. cbn [length]. lia.
Qed.

Lemma last_or_cons prev x t : last_or prev (x :: t) = last_or (Some x) t.
Proof. unfold last_or. rewrite last_cons. by destruct (last t). Qed.

Lemma last_or_last prev a : a <> [] -> last_or prev a = last a.
Proof.
  unfold last_or. destruct a as [|x t]; [done|]. intros _.
  rewrite last_cons. by destruct (last t).
Qed.

(** *** [replace_triple] *)

Lemma replace_triple_head c prev s :
  head (replace_triple c prev s) = head s.
Proof. by apply (replace_triple_ind c (fun _ s r => head r = head s)). Qed.

Lemma replace_triple_last c prev s :
  last (replace_triple c prev s) = last s.
Proof.
  apply (replace_triple_ind c (fun _ s r => last r = last s)).
  - done.
  - intros _ x t _ IH.
    by rewrite (last_cons x t), (last_cons x (replace_triple _ _ _)), IH.
  - intros _ u _ _ IH. rewrite !last_cons_cons.
    by rewrite (last_cons c u), (last_cons c (replace_triple _ _ _)), IH.
Qed.

Lemma triple_at_prev c prev s :
  opt_is_char c prev = false \/ opt_is_char c (head s) = false ->
  triple_at c prev s = triple_at c None s.
Proof.
  destruct s as [|x [|y [|z u]]]; try done. simpl.
  intros [->|Hx]; [done|].
  assert (is_char c x = false) as -> by (unfold is_char; by destruct (Ascii.eqb c x)).
  done.
Qed.

Lemma replace_triple_prev c prev s :
  opt_is_char c prev = false \/ opt_is_char c (head s) = false ->
  replace_triple c prev s = replace_triple c None s.
Proof.
  intros H. destruct s as [|x t]; [done|].
  by rewrite !replace_triple_eq, (triple_at_prev c prev).
Qed.

Lemma replace_triple_absent c prev s :
  Forall (fun x => x <> c) s -> replace_triple c prev s = s.
Proof.
  apply (replace_triple_ind c (fun _ s r => Forall (fun x => x <> c) s -> r = s)).
  - done.
  - intros _ x t _ IH Hall. inversion Hall; subst. f_equal. auto.
  - intros _ u _ _ _ Hall. inversion Hall; subst. done.
Qed.

Lemma triple_at_app c prev a b :
  a <> [] ->
  opt_is_char c (last a) && opt_is_char c (head b) = false ->
  triple_at c prev (a ++ b) = triple_at c prev a.
Proof.
  intros Ha Hcond.
  destruct a as [|x [|y [|z [|w a']]]]; [done|..]; simpl in *.
  - (* one character of [a] *)
    destruct b as [|y [|z u]]; try done. simpl in *.
    destruct (is_char c x) eqn:Ex; [|done].
    unfold is_char in *. rewrite Ex in Hcond. simpl in Hcond. rewrite Hcond. done.
  - (* two *)
    destruct b as [|z u]; try done. simpl in *.
    destruct (is_char c y) eqn:Ey; [|by rewrite andb_false_r].
    unfold is_char in *. rewrite Ey in Hcond. simpl in Hcond. rewrite Hcond.
    by rewrite !andb_false_r.
  - (* three: the lookahead moves from the end of [a] to the head of [b] *)
    destruct (is_char c z) eqn:Ez; [|by rewrite !andb_false_r].
    unfold is_char in *. rewrite Ez in Hcond. simpl in Hcond. by rewrite Hcond.
  - done.
Qed.

Lemma replace_triple_app c prev a b :
  opt_is_char c (last a) && opt_is_char c (head b) = false ->
  replace_triple c prev (a ++ b)
  = replace_triple c prev a ++ replace_triple c (last_or prev a) b.
Proof.
  revert b.
  apply (replace_triple_ind c
           (fun prev a r => forall b,
                opt_is_char c (last a) && opt_is_char c (head b) = false ->
                replace_triple c prev (a ++ b)
                = r ++ replace_triple c (last_or prev a) b)).
  - done.
  - intros prev' x t E IH b Hcond.
    change ((x :: t) ++ b) with (x :: (t ++ b)).
    rewrite replace_triple_eq.
    change (x :: (t ++ b)) with ((x :: t) ++ b).
    rewrite triple_at_app, E by done.
    simpl. f_equal. rewrite last_or_cons. apply IH.
    destruct t as [|y t']; [done|]. by rewrite last_cons_cons in Hcond.
  - intros prev' u Hp Hu IH b Hcond.
    change ((c :: c :: c :: u) ++ b) with (c :: (c :: c :: u) ++ b).
    rewrite replace_triple_eq.
    change (c :: (c :: c :: u) ++ b) with ((c :: c :: c :: u) ++ b).
    rewrite triple_at_app by done.
    assert (triple_at c prev' (c :: c :: c :: u) = true) as ->.
    { simpl. unfold is_char. rewrite Ascii.eqb_refl, Hp, Hu. done. }
    simpl. do 4 f_equal. rewrite !last_or_cons. apply IH.
    destruct u as [|y u']; [done|]. by rewrite !last_cons_cons in Hcond.
Qed.

(** *** [replace_single] *)

Lemma replace_single_head c prev s :
  head (replace_single c prev s) = head s.
Proof.
  destruct s as [|x t]; [done|]. rewrite replace_single_eq.
  destruct (single_at c prev (x :: t)) eqn:E; [|done].
  simpl in E. rewrite !andb_true_iff in E. destruct E as [[E _] _].
  apply is_char_eq in E. by subst.
Qed.

Lemma replace_single_last c prev s :
  last (replace_single c prev s) = last s.
Proof.
  revert prev. induction s as [|x t IH]; intros prev; [done|].
  rewrite replace_single_eq.
  destruct (single_at c prev (x :: t)) eqn:E.
  - simpl in E. rewrite !andb_true_iff in E. destruct E as [[E _] _].
    apply is_char_eq in E. subst x. rewrite last_cons_cons.
    by rewrite (last_cons c t), (last_cons c (replace_single _ _ _)), IH.
  - by rewrite (last_cons x t), (last_cons x (replace_single _ _ _)), IH.
Qed.

Lemma replace_single_prev c prev s :
  opt_is_char c prev = false \/ opt_is_char c (head s) = false ->
  replace_single c prev s = replace_single c None s.
Proof.
  intros H. destruct s as [|x t]; [done|].
  rewrite !replace_single_eq.
  assert (single_at c prev (x :: t) = single_at c None (x :: t)) as ->; [|done].
  simpl. destruct H as [->|Hx]; [done|]. simpl in Hx.
  unfold is_char. by rewrite Hx.
Qed.

Lemma replace_single_absent c prev s :
  Forall (fun x => x <> c) s -> replace_single c prev s = s.
Proof.
  revert prev. induction s as [|x t IH]; intros prev Hall; [done|].
  inversion Hall as [|? ? Hx Ht]; subst.
  rewrite replace_single_eq.
  assert (single_at c prev (x :: t) = false) as ->.
  { simpl. destruct (is_char c x) eqn:E; [|done]. apply is_char_eq in E. done. }
  f_equal. by apply IH.
Qed.

Lemma replace_single_app c prev a b :
  opt_is_char c (last a) && opt_is_char c (head b) = false ->
  replace_single c prev (a ++ b)
  = replace_single c prev a ++ replace_single c (last_or prev a) b.
Proof.
  revert prev. induction a as [|x t IH]; intros prev Hcond; [done|].
  change ((x :: t) ++ b) with (x :: (t ++ b)).
  rewrite !replace_single_eq.
  assert (single_at c prev (x :: t ++ b) = single_at c prev (x :: t)) as ->.
  { simpl. destruct t as [|y t']; [|done]. simpl in *.
    destruct (is_char c x) eqn:Ex; [|done].
    unfold is_char in Ex. rewrite Ex in Hcond. simpl in Hcond. by rewrite Hcond. }
  rewrite last_or_cons.
  assert (opt_is_char c (last t) && opt_is_char c (head b) = false) as Hcond'.
  { destruct t as [|y t']; [done|]. by rewrite last_cons_cons in Hcond. }
  destruct (single_at c prev (x :: t)); simpl; by rewrite IH.
Qed.

(** *** One pass around a run of braces *)

Lemma opt_is_char_false c o : opt_is_char c o = false <-> o <> Some c.
Proof.
  rewrite <- opt_is_char_eq. by destruct (opt_is_char c o).
Qed.

Lemma last_or_None a : last_or None a = last a.
Proof. unfold last_or. by destruct (last a). Qed.

Lemma last_run c mid : mid <> [] -> Forall (fun x => x = c) mid -> last mid = Some c.
Proof.
  intros Hne Hall. destruct mid as [|x t]; [done|].
  induction t as [|y t IH] in x, Hall |- *.
  - by inversion Hall; subst.
  - rewrite last_cons_cons. apply IH. by inversion Hall.
Qed.

Section Pass.

(** A pass for the character [d]: it scans with a one-character
    lookbehind and lookahead for [d] only. *)
Variable d : ascii.
Variable f : option ascii -> list ascii -> list ascii.
Hypothesis f_app : forall prev a b,
  opt_is_char d (last a) && opt_is_char d (head b) = false ->
  f prev (a ++ b) = f prev a ++ f (last_or prev a) b.
Hypothesis f_prev : forall prev s,
  opt_is_char d prev = false \/ opt_is_char d (head s) = false ->
  f prev s = f None s.

Lemma pass_context c mid pre post :
  mid <> [] -> Forall (fun x => x = c) mid ->
  last pre <> Some c -> head post <> Some c ->
  f None (pre ++ mid ++ post) = f None pre ++ f (last pre) mid ++ f None post.
Proof.
  intros Hne Hall Hpre Hpost.
  assert (Hhead : head (mid ++ post) = Some c).
  { destruct mid as [|x t]; [done|]. by inversion Hall; subst. }
  pose proof (last_run c mid Hne Hall) as Hlast.
  rewrite f_app, last_or_None.
  - f_equal. rewrite f_app.
    + f_equal. rewrite last_or_last, Hlast by done.
      apply f_prev. destruct (decide (d = c)) as [->|Hdc].
      * right. by apply opt_is_char_false.
      * left. apply opt_is_char_false. congruence.
    + rewrite Hlast. destruct (decide (d = c)) as [->|Hdc].
      * apply andb_false_iff. right. by apply opt_is_char_false.
      * apply andb_false_iff. left. apply opt_is_char_false. congruence.
  - rewrite Hhead. destruct (decide (d = c)) as [->|Hdc].
    + apply andb_false_iff. left. by apply opt_is_char_false.
    + apply andb_false_iff. right. apply opt_is_char_false. congruence.
Qed.

End Pass.

(** *** Runs of one brace *)

Lemma triple_at_blocked c s : triple_at c (Some c) s = false.
Proof.
  destruct s as [|x [|y [|z u]]]; try done. simpl.
  rewrite Ascii.eqb_refl. simpl. by rewrite andb_false_r.
Qed.

Lemma replace_triple_run_blocked c n :
  replace_triple c (Some c) (repeat c n) = repeat c n.
Proof.
  induction n as [|n IH]; [done|]. simpl repeat.
  by rewrite replace_triple_eq, triple_at_blocked, IH.
Qed.

(** A run of exactly three becomes four, any other run is kept. *)
Lemma replace_triple_run c prev n :
  opt_is_char c prev = false ->
  replace_triple c prev (repeat c n)
  = repeat c (if (n =? 3)%nat then 4%nat else n).
Proof.
  intros Hp. destruct n as [|[|[|[|n]]]]; try done.
  - simpl repeat. rewrite replace_triple_eq. simpl.
    unfold is_char. by rewrite Ascii.eqb_refl, Hp.
  - change (repeat c (S (S (S (S n))))) with (c :: repeat c (S (S (S n)))).
    rewrite replace_triple_eq.
    assert (triple_at c prev (c :: repeat c (S (S (S n)))) = false) as ->.
    { simpl. unfold is_char. rewrite !Ascii.eqb_refl. simpl.
      by rewrite ?andb_false_r. }
    by rewrite replace_triple_run_blocked.
Qed.

Lemma replace_single_run_blocked c n :
  replace_single c (Some c) (repeat c n) = repeat c n.
Proof.
  induction n as [|n IH]; [done|]. simpl repeat.
  rewrite replace_single_eq. simpl. unfold is_char.
  rewrite !Ascii.eqb_refl. simpl. by rewrite IH.
Qed.

(** A run of exactly one becomes two, any other run is kept. *)
Lemma replace_single_run c prev n :
  opt_is_char c prev = false ->
  replace_single c prev (repeat c n)
  = repeat c (if (n =? 1)%nat then 2%nat else n).
Proof.
  intros Hp. destruct n as [|[|n]]; try done.
  - simpl repeat. rewrite replace_single_eq. simpl.
    unfold is_char. by rewrite Ascii.eqb_refl, Hp.
  - change (repeat c (S (S n))) with (c :: repeat c (S n)).
    rewrite replace_single_eq.
    assert (single_at c prev (c :: repeat c (S n)) = false) as ->.
    { simpl. unfold is_char. rewrite !Ascii.eqb_refl. simpl.
      by rewrite ?andb_false_r. }
    by rewrite replace_single_run_blocked.
Qed.

Lemma braces_differ : lbrace <> rbrace.
Proof. discriminate. Qed.

Lemma run_of_other c d n : c <> d -> Forall (fun x => x <> d) (repeat c n).
Proof. intros Hne. induction n; simpl; constructor; done. Qed.

Lemma run_is_run c n : Forall (fun x => x = c) (repeat c n).
Proof. induction n; simpl; constructor; done. Qed.

Lemma run_nonempty c n : (0 < n)%nat -> repeat c n <> [].
Proof. by destruct n; [lia|]. Qed.

(** All four replacements around a run of [n] equal braces: a run of one
    becomes two, a run of three becomes four, every other run is kept;
    the text around the run is escaped on its own. *)
Lemma escape_chars_run c n pre post :
  c = lbrace \/ c = rbrace -> (0 < n)%nat ->
  last pre <> Some c -> head post <> Some c ->
  escape_chars (pre ++ repeat c n ++ post)
  = escape_chars pre
    ++ repeat c (if (n =? 1)%nat then 2%nat
                 else if (n =? 3)%nat then 4%nat else n)
    ++ escape_chars post.
Proof.
  intros Hc Hn Hpre Hpost. unfold escape_chars.
  assert (Hfinal : (if (n =? 1)%nat then 2%nat
                    else if (n =? 3)%nat then 4%nat else n)
                   = (if ((if (n =? 3)%nat then 4%nat else n) =? 1)%nat
                      then 2%nat else if (n =? 3)%nat then 4%nat else n)).
  { destruct n as [|[|[|[|n]]]]; reflexivity. }
  rewrite Hfinal. clear Hfinal.
  set (n1 := if (n =? 3)%nat then 4%nat else n).
  assert (Hn1 : (0 < n1)%nat) by (subst n1; destruct (n =? 3)%nat; lia).
  set (n2 := if (n1 =? 1)%nat then 2%nat else n1).
  assert (Hn2 : (0 < n2)%nat) by (subst n2; destruct (n1 =? 1)%nat; lia).
  destruct Hc as [-> | ->].
  - (* a run of opening braces *)
    rewrite (pass_context lbrace _ (replace_triple_app lbrace)
               (replace_triple_prev lbrace) lbrace (repeat lbrace n))
      by auto using run_nonempty, run_is_run.
    rewrite (replace_triple_run lbrace) by by apply opt_is_char_false.
    fold n1.
    rewrite (pass_context rbrace _ (replace_triple_app rbrace)
               (replace_triple_prev rbrace) lbrace (repeat lbrace n1))
      by (rewrite ?replace_triple_last, ?replace_triple_head;
          auto using run_nonempty, run_is_run).
    rewrite (replace_triple_absent rbrace _ (repeat lbrace n1))
      by (apply run_of_other; discriminate).
    rewrite (pass_context lbrace _ (replace_single_app lbrace)
               (replace_single_prev lbrace) lbrace (repeat lbrace n1))
      by (rewrite ?replace_triple_last, ?replace_triple_head;
          auto using run_nonempty, run_is_run).
    rewrite (replace_single_run lbrace)
      by (apply opt_is_char_false; by rewrite !replace_triple_last).
    fold n2.
    rewrite (pass_context rbrace _ (replace_single_app rbrace)
               (replace_single_prev rbrace) lbrace (repeat lbrace n2))
      by (rewrite ?replace_single_last, ?replace_single_head,
            ?replace_triple_last, ?replace_triple_head;
          auto using run_nonempty, run_is_run).
    rewrite (replace_single_absent rbrace _ (repeat lbrace n2))
      by (apply run_of_other; discriminate).
    reflexivity.
  - (* a run of closing braces *)
    rewrite (pass_context lbrace _ (replace_triple_app lbrace)
               (replace_triple_prev lbrace) rbrace (repeat rbrace n))
      by auto using run_nonempty, run_is_run.
    rewrite (replace_triple_absent lbrace _ (repeat rbrace n))
      by (apply run_of_other; discriminate).
    rewrite (pass_context rbrace _ (replace_triple_app rbrace)
               (replace_triple_prev rbrace) rbrace (repeat rbrace n))
      by (rewrite ?replace_triple_last, ?replace_triple_head;
          auto using run_nonempty, run_is_run).
    rewrite (replace_triple_run rbrace)
      by (apply opt_is_char_false; by rewrite !replace_triple_last).
    fold n1.
    rewrite (pass_context lbrace _ (replace_single_app lbrace)
               (replace_single_prev lbrace) rbrace (repeat rbrace n1))
      by (rewrite ?replace_triple_last, ?replace_triple_head;
          auto using run_nonempty, run_is_run).
    rewrite (replace_single_absent lbrace _ (repeat rbrace n1))
      by (apply run_of_other; discriminate).
    rewrite (pass_context rbrace _ (replace_single_app rbrace)
               (replace_single_prev rbrace) rbrace (repeat rbrace n1))
      by (rewrite ?replace_single_last, ?replace_single_head,
            ?replace_triple_last, ?replace_triple_head;
          auto using run_nonempty, run_is_run).
    rewrite (replace_single_run rbrace)
      by (apply opt_is_char_false;
          by rewrite ?replace_single_last, ?replace_triple_last).
    fold n2. reflexivity.
Qed.

(** All four replacements around a lone brace or a lone pair. *)
Lemma escape_chars_context c mid pre post :
  c = lbrace \/ c = rbrace ->
  mid = [c] \/ mid = [c; c] ->
  last pre <> Some c -> head post <> Some c ->
  escape_chars (pre ++ mid ++ post)
  = escape_chars pre ++ [c; c] ++ escape_chars post.
Proof.
  intros Hc [-> | ->] Hpre Hpost.
  - apply (escape_chars_run c 1 pre post); auto.
  - apply (escape_chars_run c 2 pre post); auto.
Qed.

Lemma escape_chars_head s : head (escape_chars s) = head s.
Proof.
  unfold escape_chars.
  by rewrite !replace_single_head, !replace_triple_head.
Qed.

Lemma escape_chars_last s : last (escape_chars s) = last s.
Proof.
  unfold escape_chars.
  by rewrite !replace_single_last, !replace_triple_last.
Qed.

Lemma list_ascii_of_string_app (s1 s2 : string) :
  list_ascii_of_string (s1 +:+ s2)
  = list_ascii_of_string s1 ++ list_ascii_of_string s2.
Proof. induction s1 as [|x s1 IH]; simpl; [done|]. by rewrite IH. Qed.

Lemma string_of_list_ascii_app (l1 l2 : list ascii) :
  string_of_list_ascii (l1 ++ l2)
  = string_of_list_ascii l1 +:+ string_of_list_ascii l2.
Proof. induction l1 as [|x l1 IH]; simpl; [done|]. by rewrite IH. Qed.

Lemma escape_text_context c (mid pre post : string) :
  c = lbrace \/ c = rbrace ->
  mid = String c "" \/ mid = String c (String c "") ->
  last_char pre <> Some c -> first_char post <> Some c ->
  escape_text (pre +:+ mid +:+ post)
  = escape_text pre +:+ String c (String c "") +:+ escape_text post.
Proof.
  intros Hc Hmid Hpre Hpost. unfold escape_text.
  rewrite !list_ascii_of_string_app.
  rewrite (escape_chars_context c); try done.
  - by rewrite !string_of_list_ascii_app.
  - destruct Hmid as [->| ->]; [by left | by right].
Qed.

Example escape_runs :
  escapeSingleCurlyBrackets (Some "a{b}c{{d}}e{{{f}}}g{{{{h}}}}i{{{{{j")
  = Some "a{{b}}c{{d}}e{{{{f}}}}g{{{{h}}}}i{{{{{j".
Proof. reflexivity. Qed.

Example escape_undefined : escapeSingleCurlyBrackets None = None.
Proof. reflexivity. Qed.

(** C7: [escapeSingleCurlyBrackets] turns a brace with no equal
    neighbour into exactly two, whatever surrounds it, and leaves a pair
    with no equal neighbour as the same two braces; the text before and
    after is escaped on its own and keeps the characters that delimit
    the run, so the result holds exactly two braces there. *)
Theorem C7_single_doubled_pair_kept (pre post : string) (c : ascii) :
  c = lbrace \/ c = rbrace ->
  last_char pre <> Some c ->
  first_char post <> Some c ->
  escapeSingleCurlyBrackets (Some (pre +:+ String c "" +:+ post))
  = Some (escape_text pre +:+ String c (String c "") +:+ escape_text post)
  /\ escapeSingleCurlyBrackets (Some (pre +:+ String c (String c "") +:+ post))
     = Some (escape_text pre +:+ String c (String c "") +:+ escape_text post)
  /\ last_char (escape_text pre) = last_char pre
  /\ first_char (escape_text post) = first_char post.
Proof.
  intros Hc Hpre Hpost. simpl. repeat split.
  - f_equal. apply escape_text_context; auto.
  - f_equal. apply escape_text_context; auto.
  - unfold last_char, escape_text.
    by rewrite list_ascii_of_string_of_list_ascii, escape_chars_last.
  - unfold first_char, escape_text.
    by rewrite list_ascii_of_string_of_list_ascii, escape_chars_head.
Qed.

Lemma C7_witness :
  escapeSingleCurlyBrackets (Some ("say {name" +:+ "}" +:+ " or {{raw}}"))
  = Some (escape_text "say {name" +:+ "}}" +:+ escape_text " or {{raw}}")
  /\ escapeSingleCurlyBrackets (Some ("say {name" +:+ "}}" +:+ " or {{raw}}"))
     = Some (escape_text "say {name" +:+ "}}" +:+ escape_text " or {{raw}}")
  /\ last_char (escape_text "say {name") = last_char "say {name"
  /\ first_char (escape_text " or {{raw}}") = first_char " or {{raw}}".
Proof.
  apply (C7_single_doubled_pair_kept "say {name" " or {{raw}}" rbrace).
  - right. reflexivity.
  - vm_compute. discriminate.
  - vm_compute. discriminate.
Defined.

End BraceEscaping.

(** ** Connected tools *)
Section ConnectedTools.

Implicit Types (tool : Candidate) (st : LoopState) (seen : gset string).

Lemma cand_get_name_valid tool n :
  cand_get "name" tool = VStr n -> n <> "" -> valid_name tool = Some n.
Proof.
  intros Hn Hne. unfold valid_name. rewrite Hn.
  assert (String.eqb n "" = false) as -> by by apply String.eqb_neq.
  destruct tool as [v| | |]; try done.
  destruct v; try done.
Qed.

Lemma valid_name_get tool n :
  valid_name tool = Some n ->
  cand_truthy tool = true /\ cand_is_object tool = true
  /\ cand_get "name" tool = VStr n /\ n <> "".
Proof.
  unfold valid_name.
  destruct (cand_truthy tool); [|done].
  destruct (cand_is_object tool); [|done]. simpl.
  destruct (cand_get "name" tool); try done.
  destruct (String.eqb s "") eqn:E; [done|].
  intros [= ->]. apply String.eqb_neq in E. done.
Qed.

Lemma valid_name_set_description tool d n :
  valid_name tool = Some n -> valid_name (set_description d tool) = Some n.
Proof.
  intros H. destruct tool as [v|nm ds fn|nm ds fn|ts]; try done.
  destruct v as [ | | | | | | |fs]; try done.
  unfold valid_name in *. simpl in *.
  by rewrite lookup_set_other.
Qed.

Lemma processTool_invalid conv esc tool st :
  valid_name tool = None -> processTool conv esc tool st = Continue st.
Proof.
  unfold valid_name, processTool.
  destruct (cand_truthy tool), (cand_is_object tool); simpl; try done.
  destruct (cand_get "name" tool); try done.
  by destruct (String.eqb s "").
Qed.

Lemma processTool_duplicate conv esc tool st n :
  valid_name tool = Some n -> n ∈ seenNames st ->
  exists st',
    processTool conv esc tool st
    = Rethrow (NodeOperationError_of_text (duplicate_message n)) st'.
Proof.
  intros Hv Hin. apply valid_name_get in Hv as (Ht & Ho & Hn & Hne).
  unfold processTool. rewrite Ht, Ho, Hn. simpl.
  assert (String.eqb n "" = false) as -> by by apply String.eqb_neq.
  rewrite bool_decide_eq_true_2 by done. eauto.
Qed.

(** A new valid name is recorded whatever happens to the tool after
    that; the tool is pushed, under the same name, unless escaping or
    conversion throws. *)
Lemma processTool_fresh conv esc tool st n :
  valid_name tool = Some n -> n ∉ seenNames st ->
  exists st',
    processTool conv esc tool st = Continue st'
    /\ seenNames st' = {[ n ]} ∪ seenNames st
    /\ (finalTools st' = finalTools st
        \/ exists tool', finalTools st' = finalTools st ++ [tool']
                         /\ valid_name tool' = Some n).
Proof.
  intros Hv Hnotin. pose proof Hv as Hv'.
  apply valid_name_get in Hv' as (Ht & Ho & Hn & Hne).
  unfold processTool. rewrite Ht, Ho, Hn. simpl.
  assert (String.eqb n "" = false) as -> by by apply String.eqb_neq.
  rewrite bool_decide_eq_false_2 by done.
  assert (Hesc : (exists e, escape_description esc tool = inl e)
                 \/ (exists tool', escape_description esc tool = inr tool'
                                   /\ valid_name tool' = Some n)).
  { unfold escape_description.
    destruct (esc && truthy (cand_get "description" tool)); [|eauto].
    destruct (cand_get "description" tool); eauto.
    simpl. right. eexists. split; [done|]. by apply valid_name_set_description. }
  destruct Hesc as [[e ->]|[tool' [-> Hv']]].
  { eexists. split; [done|]. split; [done|]. by left. }
  destruct (conv && instanceof_N8nTool tool') eqn:Econv.
  - apply andb_true_iff in Econv as [_ Hinst].
    destruct tool' as [|nm ds fn| |]; try done. simpl.
    destruct fn;
      try (eexists; split; [done|]; split; [done|]; by left).
    eexists. split; [done|]. split; [done|]. right. eexists. split; [done|].
    unfold valid_name in *. by simpl in *.
  - eexists. split; [done|]. split; [done|]. right. eauto.
Qed.

(** The loop throws exactly when a valid name comes up a second time,
    and then for the first such name. *)
Lemma processTools_flow conv esc tools st :
  Forall (fun t => is_Some (valid_name t)) (finalTools st) ->
  match first_duplicate (seenNames st) (tool_names tools) with
  | Some m =>
      exists st', processTools conv esc tools st
                  = Rethrow (NodeOperationError_of_text (duplicate_message m)) st'
  | None =>
      exists st', processTools conv esc tools st = Continue st'
                  /\ Forall (fun t => is_Some (valid_name t)) (finalTools st')
  end.
Proof.
  revert st. induction tools as [|tool rest IH]; intros st Hfinal; simpl.
  { eauto. }
  unfold tool_names. simpl. fold (tool_names rest).
  destruct (valid_name tool) as [n|] eqn:Hv.
  - simpl. destruct (bool_decide (n ∈ seenNames st)) eqn:Hseen.
    + apply bool_decide_eq_true_1 in Hseen.
      destruct (processTool_duplicate conv esc tool st n Hv Hseen) as [st' ->].
      eauto.
    + apply bool_decide_eq_false_1 in Hseen.
      destruct (processTool_fresh conv esc tool st n Hv Hseen)
        as (st' & -> & Hnames & Htools).
      rewrite <- Hnames. apply IH.
      destruct Htools as [->|[tool' [-> Hv']]]; [done|].
      apply Forall_app. split; [done|]. constructor; [|done]. by rewrite Hv'.
  - rewrite processTool_invalid by done. by apply IH.
Qed.

Lemma first_duplicate_None seen names :
  first_duplicate seen names = None -> NoDup names.
Proof.
  revert seen. induction names as [|n rest IH]; intros seen; simpl.
  { intros _. constructor. }
  destruct (bool_decide (n ∈ seen)) eqn:E; [done|]. intros H.
  constructor; [|by eapply IH].
  clear E IH. intros Hin. revert seen H.
  induction rest as [|m rest IH]; intros seen H; [by apply elem_of_nil in Hin|].
  simpl in H. destruct (bool_decide (m ∈ {[n]} ∪ seen)) eqn:E; [done|].
  apply bool_decide_eq_false_1 in E.
  apply elem_of_cons in Hin as [->|Hin].
  { apply E. apply elem_of_union. left. by apply elem_of_singleton. }
  apply (IH Hin ({[m]} ∪ seen)).
  clear -H. revert H. generalize rest. clear rest.
  assert (Heq : {[n]} ∪ ({[m]} ∪ seen) = {[m]} ∪ ({[n]} ∪ seen)).
  { apply set_eq. intros x. rewrite !elem_of_union. tauto. }
  intros rest. by rewrite Heq.
Qed.

Lemma first_duplicate_Some seen names m :
  first_duplicate seen names = Some m ->
  exists a b, names = a ++ m :: b /\ (m ∈ seen \/ m ∈ a).
Proof.
  revert seen. induction names as [|n rest IH]; intros seen; simpl; [done|].
  destruct (bool_decide (n ∈ seen)) eqn:E.
  - intros [= ->]. apply bool_decide_eq_true_1 in E. exists [], rest. auto.
  - intros H. apply IH in H as (a & b & -> & Hm).
    exists (n :: a), b. split; [done|].
    destruct Hm as [Hm|Hm]; [|right; by apply elem_of_cons; right].
    apply elem_of_union in Hm as [Hm|Hm]; [|by left].
    apply elem_of_singleton in Hm as ->. right. by apply elem_of_cons; left.
Qed.

Lemma omap_split {A B} (f : A -> option B) l xs y ys :
  omap f l = xs ++ y :: ys ->
  exists l1 t l2, l = l1 ++ t :: l2 /\ f t = Some y
                  /\ omap f l1 = xs /\ omap f l2 = ys.
Proof.
  revert xs. induction l as [|t l IH]; intros xs; simpl.
  { by destruct xs. }
  destruct (f t) as [z|] eqn:Ez.
  - destruct xs as [|x xs]; simpl.
    + intros [= -> <-]. exists [], t, l. by rewrite Ez.
    + intros [= -> H]. apply IH in H as (l1 & t' & l2 & -> & Ht' & H1 & H2).
      exists (t :: l1), t', l2. repeat split; try done.
      cbn. rewrite Ez. f_equal. exact H1.
  - intros H. apply IH in H as (l1 & t' & l2 & -> & Ht' & H1 & H2).
    exists (t :: l1), t', l2. repeat split; try done.
    cbn. rewrite Ez. exact H1.
Qed.

Lemma named_twice_of_names m tools a b c :
  tool_names tools = a ++ m :: b ++ m :: c -> named_twice m tools.
Proof.
  intros H. apply omap_split in H as (l1 & t1 & l2 & -> & Ht1 & _ & H).
  apply omap_split in H as (l2' & t2 & l3 & -> & Ht2 & _ & _).
  exists l1, t1, l2', t2, l3.
  apply valid_name_get in Ht1 as (_ & _ & ? & _).
  apply valid_name_get in Ht2 as (_ & _ & ? & _). done.
Qed.

Lemma named_twice_not_NoDup n tools :
  n <> "" -> named_twice n tools -> ~ NoDup (tool_names tools).
Proof.
  intros Hne (l1 & t1 & l2 & t2 & l3 & -> & H1 & H2) Hnd.
  unfold tool_names in Hnd.
  rewrite omap_app in Hnd. simpl in Hnd.
  rewrite (cand_get_name_valid t1 n) in Hnd by done.
  rewrite omap_app in Hnd. simpl in Hnd.
  rewrite (cand_get_name_valid t2 n) in Hnd by done.
  apply NoDup_app in Hnd as (_ & _ & Hnd).
  apply NoDup_cons in Hnd as [Hnotin _].
  apply Hnotin. apply elem_of_app. right. by apply elem_of_cons; left.
Qed.

Lemma named_twice_truthy n raw :
  named_twice n (connectedTools raw) -> connection_truthy raw = true.
Proof.
  intros (l1 & t1 & l2 & t2 & l3 & H & _ & _).
  destruct raw as [ts|c]; [done|]. simpl.
  destruct (cand_truthy c) eqn:E; [done|]. exfalso.
  destruct c as [v| | |]; try done.
  assert (connectedTools (ConnectedValue (Value v)) = [Value v]) as Hone.
  { by destruct v. }
  rewrite Hone in H. apply (f_equal length) in H.
  rewrite !length_app in H. simpl in H. rewrite !length_app in H. simpl in H. lia.
Qed.

(** The first duplicated name decides the outcome of the whole call. *)
Lemma getConnectedTools_enforced raw conv esc :
  connection_truthy raw = true ->
  match first_duplicate ∅ (tool_names (connectedTools raw)) with
  | Some m =>
      exists evs,
        getConnectedTools (inr raw) true conv esc
        = (inl (NodeOperationError_of_text (duplicate_message m)), evs)
  | None =>
      exists tools evs,
        getConnectedTools (inr raw) true conv esc = (inr tools, evs)
        /\ Forall (fun t => is_Some (valid_name t)) tools
  end.
Proof.
  intros Ht. unfold getConnectedTools. rewrite Ht. simpl.
  pose proof (processTools_flow conv esc (connectedTools raw)
                {| seenNames := ∅; finalTools := []; events := [] |}
                (List.Forall_nil _)) as Hflow.
  simpl in Hflow.
  destruct (first_duplicate ∅ (tool_names (connectedTools raw))) as [m|].
  - destruct Hflow as [st' ->]. unfold connection_failed. simpl. eauto.
  - destruct Hflow as (st' & -> & Hall). eauto.
Qed.

Example discovery_converts_and_skips :
  fst (getConnectedTools
         (inr (ConnectedArray
                 [plain_tool "search"; Value (VStr "not a tool");
                  ToolkitObject [N8nToolObject (VStr "calc") (VStr "adds") (VFun 5)];
                  Value (VObj [("description", VStr "nameless")])]))
         true true true)
  = inr [Value (VObj [("name", VStr "search"); ("description", VStr "a {{tool}}");
                      ("func", VFun 0)]);
         DynamicToolObject (VStr "calc") (VStr "adds") (VFun 5)].
Proof. reflexivity. Qed.

(** C4: when two connected entries carry the same non-empty string
    name, [getConnectedTools] with [enforceUniqueNames] throws a
    [NodeOperationError] whose message names a tool name that occurs
    twice, and so returns no tool list at all, whatever the other two
    flags are and whatever the remaining entries look like. *)
Theorem C4_duplicate_name_fails_discovery (raw : Connection)
    (convertStructuredTool escapeCurlyBrackets : bool) (name : string) :
  name <> "" ->
  named_twice name (connectedTools raw) ->
  exists duplicated evs,
    named_twice duplicated (connectedTools raw)
    /\ getConnectedTools (inr raw) true convertStructuredTool escapeCurlyBrackets
       = (inl (NodeOperationError_of_text (duplicate_message duplicated)), evs).
Proof.
  intros Hne Htwice.
  pose proof (named_twice_truthy _ _ Htwice) as Ht.
  pose proof (getConnectedTools_enforced raw convertStructuredTool
                escapeCurlyBrackets Ht) as H.
  destruct (first_duplicate ∅ (tool_names (connectedTools raw))) as [m|] eqn:E.
  - destruct H as [evs H]. exists m, evs. split; [|done].
    apply first_duplicate_Some in E as (a & b & Hnames & [Hm|Hm]).
    { by apply elem_of_empty in Hm. }
    apply list_elem_of_split in Hm as (a1 & a2 & ->).
    rewrite <- app_assoc in Hnames. simpl in Hnames.
    by eapply named_twice_of_names.
  - apply first_duplicate_None in E.
    by destruct (named_twice_not_NoDup name (connectedTools raw)).
Qed.

Lemma C4_witness :
  "search" <> ""
  /\ named_twice "search" (connectedTools demo_connection)
  /\ exists duplicated evs,
       named_twice duplicated (connectedTools demo_connection)
       /\ getConnectedTools (inr demo_connection) true true false
          = (inl (NodeOperationError_of_text (duplicate_message duplicated)), evs).
Proof.
  assert (Htwice : named_twice "search" (connectedTools demo_connection)).
  { exists [], (plain_tool "search"), [N8nToolObject (VStr "calc") (VStr "adds") (VFun 5)],
      (plain_tool "search"), [plain_tool "weather"].
    repeat split; reflexivity. }
  split; [discriminate|]. split; [exact Htwice|].
  apply (C4_duplicate_name_fails_discovery demo_connection true false "search").
  - discriminate.
  - exact Htwice.
Defined.

Lemma first_duplicate_not_NoDup names m :
  first_duplicate ∅ names = Some m -> ~ NoDup names.
Proof.
  intros H Hnd. apply first_duplicate_Some in H as (a & b & -> & [Hm|Hm]).
  { by apply elem_of_empty in Hm. }
  apply NoDup_app in Hnd as (_ & Hdisj & _).
  apply (Hdisj m Hm). by apply elem_of_cons; left.
Qed.

Lemma filter_tools_kept tools :
  Forall (fun t => fst (Orchestrator.check_tool t) = true)
         (fst (Orchestrator.filter_tools tools)).
Proof.
  induction tools as [|t rest IH]; simpl; [constructor|].
  destruct (Orchestrator.check_tool t) as [keep errs] eqn:E.
  destruct (Orchestrator.filter_tools rest) as [kept errs']. simpl in *.
  destruct keep; [|done]. constructor; [by rewrite E | done].
Qed.

Lemma check_tool_true t :
  fst (Orchestrator.check_tool t) = true ->
  truthy (cand_get "name" t) = true
  /\ truthy (cand_get "func" t) || truthy (cand_get "call" t)
     || truthy (cand_get "_call" t) = true.
Proof.
  unfold Orchestrator.check_tool.
  destruct (cand_truthy t); simpl; [|done].
  destruct (truthy (cand_get "name" t)); simpl; [|done].
  destruct (truthy (cand_get "func" t)), (truthy (cand_get "call" t)),
    (truthy (cand_get "_call" t)); simpl; done.
Qed.

(** C5, as stated, fails: a candidate with a name and none of [func],
    [call], [_call] is returned by [getConnectedTools]. *)
Lemma C5_uncallable_tool_is_returned :
  cand_get "func" uncallable_tool = VUndefined
  /\ cand_get "call" uncallable_tool = VUndefined
  /\ cand_get "_call" uncallable_tool = VUndefined
  /\ getConnectedTools (inr (ConnectedArray [uncallable_tool])) true true false
     = (inr [uncallable_tool], [tools_connected [uncallable_tool]]).
Proof. repeat split; vm_compute; reflexivity. Qed.

(** C5, amended: with uniqueness enforcement on, every tool
    [getConnectedTools] returns is an object-like value with a non-empty
    string name, so a candidate failing either test is left out; and the
    call only fails when a valid name occurs twice, so such a candidate
    never makes it fail.  Whether a tool has something to call is not
    looked at here: [SapAiCoreLlm.execute] filters the returned list and
    keeps the tools with a truthy [name] and a truthy [func], [call] or
    [_call]. *)
Theorem C5_validation_filtering (raw : Connection)
    (convertStructuredTool escapeCurlyBrackets : bool) :
  match fst (getConnectedTools (inr raw) true convertStructuredTool
               escapeCurlyBrackets) with
  | inr tools => Forall (fun t => is_Some (valid_name t)) tools
  | inl _ => ~ NoDup (tool_names (connectedTools raw))
  end
  /\ Forall (fun t =>
               truthy (cand_get "name" t) = true
               /\ truthy (cand_get "func" t) || truthy (cand_get "call" t)
                  || truthy (cand_get "_call" t) = true)
            (fst (fst (Orchestrator.load_tools (inr raw)))).
Proof.
  split.
  - destruct (connection_truthy raw) eqn:Ht.
    + pose proof (getConnectedTools_enforced raw convertStructuredTool
                    escapeCurlyBrackets Ht) as H.
      destruct (first_duplicate ∅ (tool_names (connectedTools raw))) as [m|] eqn:E.
      * destruct H as [evs ->]. simpl. by eapply first_duplicate_not_NoDup.
      * by destruct H as (tools & evs & -> & Hall).
    + unfold getConnectedTools. rewrite Ht. simpl. constructor.
  - unfold Orchestrator.load_tools.
    destruct (getConnectedTools (inr raw) true true false) as [[e|rawTools] evs].
    + simpl. constructor.
    + pose proof (filter_tools_kept rawTools) as Hkept.
      destruct (Orchestrator.filter_tools rawTools) as [tools errs]. simpl in *.
      eapply Forall_impl; [exact Hkept|]. intros t. apply check_tool_true.
Qed.

(** C9: without uniqueness enforcement the call resolves to the
    connected tools as flattened (an empty list when nothing is
    connected), whatever the two other flags are, and emits no
    telemetry: no entry is validated, compared, escaped or converted. *)
Theorem C9_unenforced_returns_connected_tools (raw : Connection)
    (convertStructuredTool escapeCurlyBrackets : bool) :
  getConnectedTools (inr raw) false convertStructuredTool escapeCurlyBrackets
  = (inr (if connection_truthy raw then connectedTools raw else []), []).
Proof.
  unfold getConnectedTools. by destruct (connection_truthy raw).
Qed.

End ConnectedTools.

(** ** Failed-attempt handlers *)
Section FailedAttempts.

Variable StringToNumber : string -> option Z.

Lemma includes_listed n :
  existsb (Z.eqb n) STATUS_NO_RETRY = listed_status n.
Proof.
  unfold STATUS_NO_RETRY, listed_status. simpl.
  apply eq_true_iff_eq.
  rewrite !orb_true_iff, andb_true_iff, !Z.eqb_eq, !Z.leb_le.
  intuition (try lia; try discriminate).
Qed.

Lemma falsy_status_not_listed status :
  truthy status = false ->
  match ToNumber StringToNumber status with Some n => listed_status n | None => false end = false.
Proof.
  destruct status as [ | | [] | n | s | | | ]; simpl; try done.
  - destruct (Z.eqb_spec n 0); [by subst | done].
  - destruct (String.eqb s ""); done.
Qed.

Lemma strict_eq_string v s :
  strict_eq v (VStr s) = match v with VStr x => String.eqb x s | _ => false end.
Proof. by destruct v. Qed.

Lemma includes_status_listed status :
  includes_status StringToNumber status
  = match ToNumber StringToNumber status with
    | Some n => listed_status n
    | None => false
    end.
Proof.
  unfold includes_status.
  destruct (ToNumber StringToNumber status); [apply includes_listed | done].
Qed.

Lemma handler_classifies error :
  n8nDefaultFailedAttemptHandler StringToNumber error
  = if non_retryable StringToNumber error then inl error else inr tt.
Proof.
  unfold n8nDefaultFailedAttemptHandler, non_retryable, cancellation,
    message_startsWith.
  rewrite !strict_eq_string, includes_status_listed.
  assert (Hstatus :
            truthy (status_of error)
            && match ToNumber StringToNumber (status_of error) with
               | Some n => listed_status n
               | None => false
               end
            = match ToNumber StringToNumber (status_of error) with
              | Some n => listed_status n
              | None => false
              end).
  { destruct (truthy (status_of error)) eqn:Et; [done|].
    by rewrite falsy_status_not_listed. }
  rewrite Hstatus. clear Hstatus.
  generalize (match ToNumber StringToNumber (status_of error) with
              | Some n => listed_status n
              | None => false
              end).
  intros listed.
  destruct (thrown_get "message" error) as [ | | | | m | | | ];
    destruct (thrown_get "name" error) as [ | | | | nm | | | ];
    destruct (thrown_get "code" error) as [ | | | | cd | | | ];
    repeat match goal with
           | |- context [String.prefix ?a ?b] => destruct (String.prefix a b)
           | |- context [String.eqb ?a ?b] => destruct (String.eqb a b)
           end;
    by destruct listed.
Qed.

Lemma listed_status_excludes n :
  n = 408 \/ 500 <= n -> listed_status n = false.
Proof.
  intros H. unfold listed_status.
  apply orb_false_iff. split.
  - apply andb_false_iff. right. apply Z.leb_gt. lia.
  - apply Z.eqb_neq. lia.
Qed.

(** C8: the default handler throws the error it was given exactly when
    its status ([response.status], else [status], read as a number) is
    400 to 407 or 409, or it carries a cancellation signal (a message
    starting with [Cancel] or [AbortError], the name [AbortError], the
    code [ECONNABORTED]); otherwise it returns.  In particular 408 and
    every status from 500 up are left retryable. *)
Theorem C8_retry_classification (error : Thrown) :
  n8nDefaultFailedAttemptHandler StringToNumber error
  = (if non_retryable StringToNumber error then inl error else inr tt)
  /\ (forall n,
        ToNumber StringToNumber (status_of error) = Some n ->
        n = 408 \/ 500 <= n ->
        cancellation error = false ->
        n8nDefaultFailedAttemptHandler StringToNumber error = inr tt).
Proof.
  split; [apply handler_classifies|].
  intros n Hn Hrange Hc. rewrite handler_classifies.
  unfold non_retryable. by rewrite Hn, Hc, listed_status_excludes.
Qed.

End FailedAttempts.

Lemma C8_witness :
  n8nDefaultFailedAttemptHandler decimal (http_error 404 2) = inl (http_error 404 2)
  /\ n8nDefaultFailedAttemptHandler decimal (http_error 408 2) = inr tt
  /\ n8nDefaultFailedAttemptHandler decimal (http_error 503 2) = inr tt.
Proof.
  split; [|split].
  - exact (proj1 (C8_retry_classification decimal (http_error 404 2))).
  - apply (proj2 (C8_retry_classification decimal (http_error 408 2)) 408).
    + reflexivity.
    + left. reflexivity.
    + reflexivity.
  - apply (proj2 (C8_retry_classification decimal (http_error 503 2)) 503).
    + reflexivity.
    + right. lia.
    + reflexivity.
Defined.

Section LlmFailedAttempts.

Variable StringToNumber : string -> option Z.
Variable lib : ApiErrorLib.




(** The handler on the errors of an HTTP client, whatever texts the
    library chooses: 503 with retries left is passed over, 503 without
    and 401 are wrapped. *)
Example llm_handler_on_http_errors :
  makeN8nLlmFailedAttemptHandler decimal lib None (http_error 503 2) = inr tt
  /\ makeN8nLlmFailedAttemptHandler decimal lib None (http_error 503 0)
     = inl (Structured NodeApiErrorK
              (api_message lib (http_error 503 0))
              (api_description lib (http_error 503 0))
              (Some "configuration-node") (Some (http_error 503 0)))
  /\ makeN8nLlmFailedAttemptHandler decimal lib None (http_error 401 2)
     = inl (Structured NodeApiErrorK
              (api_message lib (http_error 401 2))
              (api_description lib (http_error 401 2))
              (Some "configuration-node") (Some (http_error 401 2))).
Proof. repeat split. Qed.

End LlmFailedAttempts.

(** ** The tool-calling round *)
Section ToolRound.

Import Orchestrator.

Context {W H : Type}.
Variable env : Collaborators W H.
Variables (tools : list Candidate) (systemMessage userMessage : Val).

Lemma run_with_tools w :
  tools <> [] ->
  run env tools systemMessage userMessage w
  = try_catch (with_tools env tools systemMessage userMessage)
              (fallback env systemMessage userMessage) w.
Proof.
  intros Hne. unfold run. by destruct tools.
Qed.

(** C1: in a round whose first response asks for three tools, each
    found in the tool set, where exactly one of the three invocations
    throws, the loop still resolves all three directives: it ends with
    exactly three steps, in the order of the directives, one carrying
    the error text and two carrying outputs.  The conversation is then
    resubmitted to the bound endpoint, extended by the assistant turn
    with its three directives and by one [tool] message per directive
    (the JSON text of the output, or [Error: ] and the error text,
    under the id of the directive); the answer of the endpoint to that
    conversation is the final output, returned with the three steps. *)
Theorem C1_per_tool_isolation
    (w0 w1 w2 w3 w4 w5 : W) (modelWithTools : H)
    (response : Response) (c1 c2 c3 : ToolCall)
    (t1 t2 t3 : Candidate) (r1 r2 r3 : Thrown + Val) :
  let original :=
    [{| role := "system"; message_content := systemMessage;
        message_tool_calls := None; tool_call_id := VUndefined |};
     {| role := "user"; message_content := userMessage;
        message_tool_calls := None; tool_call_id := VUndefined |}] in
  let step (c : ToolCall) (r : Thrown + Val) :=
    match r with
    | inr toolResult => ToolOutput (id c) (name c) toolResult
    | inl toolError => ToolFailure (id c) (name c) (error_text toolError)
    end in
  let reply (c : ToolCall) (r : Thrown + Val) :=
    {| role := "tool";
       message_content :=
         match r with
         | inr toolResult =>
             match JSON_stringify toolResult with
             | Some text => VStr text
             | None => VUndefined
             end
         | inl toolError =>
             if truthy (error_text toolError)
             then VStr ("Error: " +:+ String_ (error_text toolError))
             else VUndefined
         end;
       message_tool_calls := None;
       tool_call_id := id c |} in
  let extended :=
    original
    ++ [{| role := "assistant"; message_content := content response;
           message_tool_calls := Some [c1; c2; c3];
           tool_call_id := VUndefined |};
        reply c1 r1; reply c2 r2; reply c3 r3] in
  tools <> [] ->
  bindTools env tools w0 = (inr modelWithTools, w1) ->
  invoke_bound env modelWithTools original w1 = (inr response, w2) ->
  tool_calls response = Some [c1; c2; c3] ->
  find_tool tools c1 = Some t1 ->
  find_tool tools c2 = Some t2 ->
  find_tool tools c3 = Some t3 ->
  tool_invoke env t1 (args c1) w2 = (r1, w3) ->
  tool_invoke env t2 (args c2) w3 = (r2, w4) ->
  tool_invoke env t3 (args c3) w4 = (r3, w5) ->
  count threw [r1; r2; r3] = 1%nat ->
  exists steps,
    execute_tool_calls env tools [c1; c2; c3] w2 = (steps, w5)
    /\ steps = [step c1 r1; step c2 r2; step c3 r3]
    /\ length steps = 3%nat
    /\ count carries_error steps = 1%nat
    /\ count carries_output steps = 2%nat
    /\ map carries_error steps = map threw [r1; r2; r3]
    /\ forall finalResponse w6,
         invoke_bound env modelWithTools extended w5 = (inr finalResponse, w6) ->
         run env tools systemMessage userMessage w0
         = (inr {| output := content finalResponse;
                   intermediateSteps := steps;
                   toolsUsed := length tools;
                   executionType := "sap_ai_core_with_tools";
                   toolCalls := Some [c1; c2; c3];
                   error := None |}, w6).
Proof.
  intros original step reply extended
    Hne Hbind Hfirst Hcalls Hf1 Hf2 Hf3 Hi1 Hi2 Hi3 Hone.
  assert (Hloop : execute_tool_calls env tools [c1; c2; c3] w2
                  = ([step c1 r1; step c2 r2; step c3 r3], w5)).
  { simpl. by rewrite Hf1, Hi1, Hf2, Hi2, Hf3, Hi3. }
  assert (Hsent : final_messages (conversation systemMessage userMessage) response
                    [step c1 r1; step c2 r2; step c3 r3]
                  = extended).
  { unfold final_messages, extended, original, conversation, plain_message.
    rewrite Hcalls. simpl. repeat f_equal; by destruct r1, r2, r3. }
  eexists. split; [exact Hloop|]. split; [reflexivity|].
  repeat split.
  - destruct r1, r2, r3; simpl in Hone; try discriminate; done.
  - destruct r1, r2, r3; simpl in Hone; try discriminate; done.
  - by destruct r1, r2, r3.
  - intros finalResponse w6 Hfinal.
    rewrite run_with_tools by done.
    unfold try_catch, with_tools, bind.
    change (conversation systemMessage userMessage) with original at 1.
    rewrite Hbind, Hfirst. unfold wants_tools. rewrite Hcalls.
    by rewrite Hloop, Hsent, Hfinal.
Qed.

(** The [catch] also covers the resubmission: when it throws, the steps
    of the round are dropped and the fallback takes over. *)
Lemma run_resubmission_throws (w0 w1 w2 w3 w4 : W) (modelWithTools : H)
    (response : Response) (calls : list ToolCall) (steps : list ToolResult)
    (agentError : Thrown) :
  tools <> [] ->
  bindTools env tools w0 = (inr modelWithTools, w1) ->
  invoke_bound env modelWithTools (conversation systemMessage userMessage) w1
  = (inr response, w2) ->
  wants_tools response = Some calls ->
  execute_tool_calls env tools calls w2 = (steps, w3) ->
  invoke_bound env modelWithTools
    (final_messages (conversation systemMessage userMessage) response steps) w3
  = (inl agentError, w4) ->
  run env tools systemMessage userMessage w0
  = fallback env systemMessage userMessage agentError w4.
Proof.
  intros Hne Hbind Hfirst Hcalls Hloop Hfinal.
  rewrite run_with_tools by done.
  unfold try_catch, with_tools, bind.
  by rewrite Hbind, Hfirst, Hcalls, Hloop, Hfinal.
Qed.

(** Without tools the conversation goes to the unbound model at once. *)
Lemma run_without_tools w :
  run env [] systemMessage userMessage w
  = match invoke env (conversation systemMessage userMessage) w with
    | (inr response, w') =>
        (inr {| output := content response; intermediateSteps := [];
                toolsUsed := 0; executionType := "sap_ai_core_direct";
                toolCalls := None; error := None |}, w')
    | (inl e, w') => (inl e, w')
    end.
Proof.
  unfold run, bind, ret. simpl.
  by destruct (invoke env (conversation systemMessage userMessage) w) as [[e|r] w'].
Qed.

(** The round with its [toolErrors] computes the same result as [run]. *)
Lemma round_run toolErrors w :
  fst (run env tools systemMessage userMessage w)
  = match fst (round env tools toolErrors systemMessage userMessage w) with
    | inr outcome => inr (fst outcome)
    | inl e => inl e
    end
  /\ snd (run env tools systemMessage userMessage w)
     = snd (round env tools toolErrors systemMessage userMessage w).
Proof.
  unfold run, round, try_catch, bind, ret.
  destruct (0 <? length tools)%nat.
  - destruct (with_tools env tools systemMessage userMessage w) as [[e|r] w'];
      [|done].
    unfold fallback, bind, ret.
    by destruct (invoke env (conversation systemMessage userMessage) w')
      as [[e'|r'] w''].
  - by destruct (invoke env (conversation systemMessage userMessage) w)
      as [[e'|r'] w''].
Qed.

(** C2: with a non-empty tool set, when [bindTools] or the first
    [invoke] on the bound endpoint throws, [run] goes on to submit the
    original conversation (the system message and the user message) to
    the unbound model.  When that submission answers, [run] returns the
    fallback result: the answer as output, [toolsUsed] 0, no
    intermediate steps, and the [error] text [Tool execution failed: ]
    followed by the error message.  The item handed to the caller
    repeats output, [toolsUsed] and the execution type; it has no
    [error] member, the message reaches the caller as the last entry of
    [toolErrors], [SAP AI Core tool execution error: ] followed by the
    error message.  The exception of the failed protocol never reaches
    the caller: the only one that can is the direct submission's own. *)
Theorem C2_fallback_on_protocol_failure (w0 w1 : W) (agentError : Thrown) :
  let original :=
    [{| role := "system"; message_content := systemMessage;
        message_tool_calls := None; tool_call_id := VUndefined |};
     {| role := "user"; message_content := userMessage;
        message_tool_calls := None; tool_call_id := VUndefined |}] in
  tools <> [] ->
  (bindTools env tools w0 = (inl agentError, w1)
   \/ exists modelWithTools w,
        bindTools env tools w0 = (inr modelWithTools, w)
        /\ invoke_bound env modelWithTools original w = (inl agentError, w1)) ->
  (forall response w2,
     invoke env original w1 = (inr response, w2) ->
     run env tools systemMessage userMessage w0
     = (inr {| output := content response;
               intermediateSteps := [];
               toolsUsed := 0;
               executionType := "direct_llm_fallback";
               toolCalls := None;
               error := Some ("Tool execution failed: "
                              +:+ String_ (error_text agentError)) |}, w2)
     /\ "Tool execution failed: " +:+ String_ (error_text agentError) <> ""
     /\ forall modelName resourceGroup verboseLogging toolErrors,
          exists item,
            execute_item env modelName resourceGroup verboseLogging tools
              toolErrors systemMessage userMessage w0
            = (inr (VObj [("json", VObj item)]), w2)
            /\ Js.lookup "output" item = Some (content response)
            /\ Js.lookup "toolsUsed" item = Some (VNum 0)
            /\ Js.lookup "executionType" item = Some (VStr "direct_llm_fallback")
            /\ Js.lookup "intermediateSteps" item = Some (VArr [])
            /\ Js.lookup "error" item = None
            /\ Js.lookup "toolErrors" item
               = Some (VArr (map VStr
                               (toolErrors
                                ++ ["SAP AI Core tool execution error: "
                                    +:+ String_ (error_text agentError)]))))
  /\ (forall e w2,
        invoke env original w1 = (inl e, w2) ->
        run env tools systemMessage userMessage w0 = (inl e, w2)
        /\ forall modelName resourceGroup verboseLogging toolErrors,
             execute_item env modelName resourceGroup verboseLogging tools
               toolErrors systemMessage userMessage w0
             = (inl e, w2)).
Proof.
  intros original Hne Hfail.
  assert (Hrun : run env tools systemMessage userMessage w0
                 = fallback env systemMessage userMessage agentError w1).
  { rewrite run_with_tools by done.
    unfold try_catch, with_tools, bind.
    change (conversation systemMessage userMessage) with original.
    destruct Hfail as [-> | (m & w & -> & ->)]; reflexivity. }
  assert (Hround : forall toolErrors,
            round env tools toolErrors systemMessage userMessage w0
            = match fallback env systemMessage userMessage agentError w1 with
              | (inr result, w2) =>
                  (inr (result, toolErrors ++ [fallback_toolError agentError]), w2)
              | (inl e, w2) => (inl e, w2)
              end).
  { intros toolErrors. unfold round.
    destruct tools as [|t ts]; [done|]. simpl.
    unfold try_catch, with_tools, bind.
    change (conversation systemMessage userMessage) with original.
    destruct Hfail as [-> | (m & w & -> & ->)]; simpl;
      by destruct (fallback env systemMessage userMessage agentError w1)
        as [[e|r] w']. }
  rewrite Hrun. unfold execute_item, bind.
  unfold fallback, bind, ret in *.
  change (conversation systemMessage userMessage) with original in *.
  split.
  - intros response w2 Hdirect. rewrite Hdirect in *.
    split; [reflexivity|]. split; [discriminate|].
    intros modelName resourceGroup verboseLogging toolErrors.
    rewrite Hround. eexists. split; [reflexivity|].
    unfold outputData. cbn [fst snd output toolsUsed executionType intermediateSteps].
    repeat split.
    + destruct toolErrors; destruct verboseLogging; reflexivity.
    + destruct toolErrors; reflexivity.
  - intros e w2 Hdirect. rewrite Hdirect in *. split; [reflexivity|].
    intros modelName resourceGroup verboseLogging toolErrors.
    by rewrite Hround.
Qed.

End ToolRound.

Lemma C1_witness :
  exists steps,
    Orchestrator.execute_tool_calls Orchestrator.demo_env Orchestrator.demo_tools
      [Orchestrator.demo_call "1" "search"; Orchestrator.demo_call "2" "calc";
       Orchestrator.demo_call "3" "weather"]
      ["bindTools"; "invoke (bound)"]
    = (steps, ["bindTools"; "invoke (bound)"; "search"; "calc"; "weather"])
    /\ steps
       = [Orchestrator.ToolOutput (VStr "1") (VStr "search")
            (VObj [("answer", VStr "search")]);
          Orchestrator.ToolFailure (VStr "2") (VStr "calc")
            (VStr "division by zero");
          Orchestrator.ToolOutput (VStr "3") (VStr "weather")
            (VObj [("answer", VStr "weather")])]
    /\ Orchestrator.count Orchestrator.carries_error steps = 1%nat
    /\ Orchestrator.count Orchestrator.carries_output steps = 2%nat
    /\ Orchestrator.run Orchestrator.demo_env Orchestrator.demo_tools
         (VStr "You are a helpful AI assistant.") (VStr "Weather?") []
       = (inr {| Orchestrator.output := VStr "It is sunny.";
                 Orchestrator.intermediateSteps := steps;
                 Orchestrator.toolsUsed := 3;
                 Orchestrator.executionType := "sap_ai_core_with_tools";
                 Orchestrator.toolCalls :=
                   Orchestrator.tool_calls Orchestrator.demo_response;
                 Orchestrator.error := None |},
          ["bindTools"; "invoke (bound)"; "search"; "calc"; "weather";
           "invoke (bound, with tool results)"]).
Proof.
  destruct (C1_per_tool_isolation Orchestrator.demo_env Orchestrator.demo_tools
              (VStr "You are a helpful AI assistant.") (VStr "Weather?")
              []
              ["bindTools"]
              ["bindTools"; "invoke (bound)"]
              ["bindTools"; "invoke (bound)"; "search"]
              ["bindTools"; "invoke (bound)"; "search"; "calc"]
              ["bindTools"; "invoke (bound)"; "search"; "calc"; "weather"]
              tt Orchestrator.demo_response
              (Orchestrator.demo_call "1" "search")
              (Orchestrator.demo_call "2" "calc")
              (Orchestrator.demo_call "3" "weather")
              (plain_tool "search") (plain_tool "calc") (plain_tool "weather")
              (inr (VObj [("answer", VStr "search")]))
              (inl Orchestrator.division_by_zero)
              (inr (VObj [("answer", VStr "weather")])))
    as (steps & Hloop & Hsteps & _ & Herror & Houtput & _ & Hrun);
    try reflexivity; [discriminate|].
  exists steps. split; [exact Hloop|]. split; [exact Hsteps|].
  split; [exact Herror|]. split; [exact Houtput|].
  apply (Hrun Orchestrator.demo_final_response). reflexivity.
Defined.

(** The round of the example, run to its end. *)
Example demo_round_completes :
  Orchestrator.run Orchestrator.demo_env Orchestrator.demo_tools
    (VStr "You are a helpful AI assistant.") (VStr "Weather?") []
  = (inr {| Orchestrator.output := VStr "It is sunny.";
            Orchestrator.intermediateSteps :=
              [Orchestrator.ToolOutput (VStr "1") (VStr "search")
                 (VObj [("answer", VStr "search")]);
               Orchestrator.ToolFailure (VStr "2") (VStr "calc")
                 (VStr "division by zero");
               Orchestrator.ToolOutput (VStr "3") (VStr "weather")
                 (VObj [("answer", VStr "weather")])];
            Orchestrator.toolsUsed := 3;
            Orchestrator.executionType := "sap_ai_core_with_tools";
            Orchestrator.toolCalls :=
              Orchestrator.tool_calls Orchestrator.demo_response;
            Orchestrator.error := None |},
     ["bindTools"; "invoke (bound)"; "search"; "calc"; "weather";
      "invoke (bound, with tool results)"]).
Proof. reflexivity. Qed.

Lemma C2_witness :
  Orchestrator.run Orchestrator.demo_env_unbound Orchestrator.demo_tools
    (VStr "You are a helpful AI assistant.") (VStr "Weather?") []
  = (inr {| Orchestrator.output := VStr "I cannot use tools.";
            Orchestrator.intermediateSteps := [];
            Orchestrator.toolsUsed := 0;
            Orchestrator.executionType := "direct_llm_fallback";
            Orchestrator.toolCalls := None;
            Orchestrator.error :=
              Some "Tool execution failed: bindTools is not supported" |},
     ["bindTools"; "invoke (direct)"])
  /\ exists item,
       Orchestrator.execute_item Orchestrator.demo_env_unbound
         (VStr "gpt-4o") (VStr "default") false Orchestrator.demo_tools []
         (VStr "You are a helpful AI assistant.") (VStr "Weather?") []
       = (inr (VObj [("json", VObj item)]), ["bindTools"; "invoke (direct)"])
       /\ Js.lookup "toolsUsed" item = Some (VNum 0)
       /\ Js.lookup "error" item = None
       /\ Js.lookup "toolErrors" item
          = Some (VArr [VStr "SAP AI Core tool execution error: bindTools is not supported"]).
Proof.
  destruct (C2_fallback_on_protocol_failure Orchestrator.demo_env_unbound
              Orchestrator.demo_tools (VStr "You are a helpful AI assistant.")
              (VStr "Weather?") [] ["bindTools"]
              (Raised true (VObj [("message", VStr "bindTools is not supported")])))
    as [Hanswered _]; [discriminate | left; reflexivity |].
  destruct (Hanswered Orchestrator.demo_direct_response
              ["bindTools"; "invoke (direct)"] eq_refl)
    as (Hrun & _ & Hitem).
  split; [exact Hrun|].
  destruct (Hitem (VStr "gpt-4o") (VStr "default") false [])
    as (item & Hexec & _ & Hused & _ & _ & Herr & Herrors).
  exists item. by repeat split.
Defined.

(** ** Call interception *)
Section Interception.

Import LogWrapper.

Context {W : Type}.
Variables (host : Host) (inst : Instance W).

Lemma wrapped_call_logged op args st :
  has_addInputData host = true ->
  wrapped_call host inst op args st
  = match callMethodAsync host inst (operation_name op) (forwarded op args)
            (connection_type op) (length (sink st)) (passed_target op)
            (record (InputData (connection_type op)
                       (items (input_json inst op args))) st) with
    | (inr response, st') =>
        after_call host inst op args (length (sink st)) response st'
    | (inl e, st') => (inl e, st')
    end.
Proof.
  intros Hin. unfold wrapped_call. rewrite Hin. reflexivity.
Qed.

Lemma callMethodAsync_outcome op args index st :
  exists st',
    callMethodAsync host inst (operation_name op) (forwarded op args)
      (connection_type op) index (passed_target op) st
    = (match fst (delegate inst op args (world st)) with
       | inr V => inr V
       | inl E => inl (normalized host op E)
       end, st')
    /\ world st' = snd (delegate inst op args (world st)).
Proof.
  unfold callMethodAsync, apply_method, delegate.
  destruct (target_method inst (operation_name op)
              (default ThisNull (passed_target op)) (forwarded op args)
              (world st)) as [[E|V] w'] eqn:Ed; simpl.
  - unfold normalized, new_NodeOperationError. simpl.
    destruct (truthy (operation_message (error_lib host) E)).
    + destruct (truthy (operation_description (error_lib host) E)) eqn:Td.
      * eexists. split; [reflexivity|]. by destruct (has_addOutputData host).
      * eexists. split; [reflexivity|]. by destruct (has_addOutputData host).
    + eexists. split; [reflexivity|]. by destruct (has_addOutputData host).
  - eexists. split; reflexivity.
Qed.

Lemma after_call_returns op args index V st :
  has_addOutputData host = true ->
  completes inst op V (world st) ->
  exists st', after_call host inst op args index V st = (inr (returned op V), st').
Proof.
  intros Hout Hc.
  destruct op; unfold after_call, bind, addOutputData, logAiEvent, ret,
    chatHistory_read, lift; rewrite ?Hout; simpl; eauto.
  - (* saveContext reads the history back *)
    destruct Hc as (history & w' & ->). rewrite ?Hout. eauto.
  - (* the retriever closure reads [response[0]] *)
    destruct Hc as [Hu Hn].
    destruct V as [ | | b | n | s | i | l | fs ]; try done; simpl;
      rewrite ?Hout; eauto.
    + destruct s; simpl; rewrite ?Hout; eauto.
    + destruct l; simpl; rewrite ?Hout; eauto.
Qed.

Lemma unlogged_call_outcome op args st :
  unlogged_call inst op args st
  = match direct inst op args (world st) with
    | (inr V, w) =>
        (inr (returned op V),
         {| world := w; sink := sink st; telemetry := telemetry st |})
    | (inl E, w) =>
        (inl E, {| world := w; sink := sink st; telemetry := telemetry st |})
    end.
Proof.
  unfold unlogged_call, bind, apply_method, direct.
  destruct (target_method inst (operation_name op) ThisTarget
              (forwarded op args) (world st)) as [[E|V] w]; [done|].
  by destruct op.
Qed.

Lemma normalized_is_structured op E :
  instanceof_NodeOperationError (normalized host op E) = true.
Proof.
  unfold normalized.
  by destruct (truthy (operation_message (error_lib host) E)).
Qed.

Lemma logWrapper_Some prop op :
  logWrapper inst prop = Some op ->
  recognised inst op = true /\ prop = operation_name op
  /\ in_target inst prop = true.
Proof.
  unfold logWrapper. intros Hfind. apply find_some in Hfind as [_ Hop].
  apply andb_true_iff in Hop as [Hop Hin].
  apply andb_true_iff in Hop as [Hrec Hname].
  apply String.eqb_eq in Hname. done.
Qed.

(** C6, amended: take [embedDocuments] or [embedQuery], or any other
    intercepted operation that does not use its receiver.  On a host
    with [addInputData] and [addOutputData], when the underlying
    operation returns [V], the wrapped call returns [V] for
    [loadMemoryVariables], [getMessages], [getRelevantDocuments] (for a
    [V] that is not [null] or [undefined]), [embedDocuments],
    [embedQuery], [compressDocuments], [splitText] and
    [similaritySearch], and for [saveContext] once the chat history has
    been read back; the tool's [_call] returns [V] when it is a string
    and its JSON text otherwise; [addMessage] returns [undefined].  When
    the underlying operation throws [E], the wrapped call throws a
    [NodeOperationError]: the one built from [E] with functionality
    [configuration-node], its description defaulting to its message, or,
    when that error has no message, one that names the node and the
    input.  On a host without [addInputData] every intercepted
    operation is called on the target and its result or exception is
    passed on (with the same two exceptions for [_call] and
    [addMessage]). *)
Theorem C6_interception_contract (prop : string) (op : Operation)
    (args : list Val) (st : State W) :
  logWrapper inst prop = Some op ->
  (has_addInputData host = true ->
   op = EmbedDocuments \/ op = EmbedQuery \/ receiver_free inst op ->
   match direct inst op args (world st) with
   | (inr V, w) =>
       has_addOutputData host = true ->
       completes inst op V w ->
       exists st', call host inst prop args st = (inr (returned op V), st')
   | (inl E, w) =>
       exists st',
         call host inst prop args st = (inl (normalized host op E), st')
         /\ instanceof_NodeOperationError (normalized host op E) = true
         /\ (truthy (operation_message (error_lib host) E) = true ->
             thrown_cause (normalized host op E) = Some E
             /\ thrown_functionality (normalized host op E)
                = Some "configuration-node"
             /\ thrown_get "message" (normalized host op E)
                = operation_message (error_lib host) E)
   end)
  /\ (has_addInputData host = false ->
      call host inst prop args st
      = match direct inst op args (world st) with
        | (inr V, w) =>
            (inr (returned op V),
             {| world := w; sink := sink st; telemetry := telemetry st |})
        | (inl E, w) =>
            (inl E, {| world := w; sink := sink st; telemetry := telemetry st |})
        end).
Proof.
  intros Htrap. unfold call. rewrite Htrap. split.
  - intros Hin Hreceiver. rewrite wrapped_call_logged by done.
    assert (Hsame : delegate inst op args (world st)
                    = direct inst op args (world st)).
    { unfold delegate, direct.
      destruct Hreceiver as [-> | [-> | Hfree]]; [reflexivity | reflexivity |].
      apply Hfree. }
    destruct (callMethodAsync_outcome op args (length (sink st))
                (record (InputData (connection_type op)
                           (items (input_json inst op args))) st))
      as (st1 & Hcall & Hw).
    change (world (record (InputData (connection_type op)
                             (items (input_json inst op args))) st))
      with (world st) in Hcall, Hw.
    rewrite Hcall. clear Hcall. rewrite Hsame in *.
    destruct (direct inst op args (world st)) as [[E|V] w] eqn:Ed;
      cbn [fst snd] in *.
    + eexists. split; [reflexivity|].
      split; [apply normalized_is_structured|].
      intros Hmessage. unfold normalized. by rewrite Hmessage.
    + intros Hout Hc. apply after_call_returns; [done|]. by rewrite Hw.
  - intros Hin. unfold wrapped_call. rewrite Hin. apply unlogged_call_outcome.
Qed.

End Interception.

(** C6, as stated, fails: a recognized tool whose [_call] resolves to a
    list of numbers is wrapped into a [_call] that resolves to a string. *)
Lemma C6_tool_result_is_stringified :
  LogWrapper.logWrapper LogWrapper.demo_tool "_call" = Some LogWrapper.ToolCall
  /\ (forall receiver,
        LogWrapper.target_method LogWrapper.demo_tool "_call" receiver
          [VStr "Paris"] tt
        = (inr LogWrapper.forecast, tt))
  /\ fst (LogWrapper.call LogWrapper.demo_host LogWrapper.demo_tool
            "_call" [VStr "Paris"] LogWrapper.empty_state)
     = inr (VStr "[21,19]")
  /\ VStr "[21,19]" <> LogWrapper.forecast.
Proof. repeat split; try reflexivity. discriminate. Qed.

Lemma C6_witness :
  (exists st',
     LogWrapper.call LogWrapper.demo_host LogWrapper.demo_tool
       "_call" [VStr "Paris"] LogWrapper.empty_state
     = (inr (LogWrapper.returned LogWrapper.ToolCall LogWrapper.forecast), st'))
  /\ (exists st',
        LogWrapper.call LogWrapper.demo_host LogWrapper.demo_tool
          "_call" [VStr ""] LogWrapper.empty_state
        = (inl (LogWrapper.normalized LogWrapper.demo_host LogWrapper.ToolCall
                  (Raised true (VObj [("message", VStr "empty query")]))), st')
        /\ instanceof_NodeOperationError
             (LogWrapper.normalized LogWrapper.demo_host LogWrapper.ToolCall
                (Raised true (VObj [("message", VStr "empty query")]))) = true
        /\ thrown_get "message"
             (LogWrapper.normalized LogWrapper.demo_host LogWrapper.ToolCall
                (Raised true (VObj [("message", VStr "empty query")])))
           = VStr "empty query").
Proof.
  assert (Hfree : LogWrapper.receiver_free LogWrapper.demo_tool LogWrapper.ToolCall).
  { intros receiver args w. reflexivity. }
  split.
  - apply (proj1 (C6_interception_contract LogWrapper.demo_host
                    LogWrapper.demo_tool "_call" LogWrapper.ToolCall
                    [VStr "Paris"] LogWrapper.empty_state eq_refl)
             eq_refl (or_intror (or_intror Hfree)) eq_refl).
    exact I.
  - destruct (proj1 (C6_interception_contract LogWrapper.demo_host
                       LogWrapper.demo_tool "_call" LogWrapper.ToolCall
                       [VStr ""] LogWrapper.empty_state eq_refl)
                eq_refl (or_intror (or_intror Hfree)))
      as (st' & Hcall & Hkind & Htexts).
    exists st'. split; [exact Hcall|]. split; [exact Hkind|].
    apply (Htexts eq_refl).
Defined.

(** ** Tool discovery: what is delivered and what is reported *)
Section Discovery.

Implicit Types (tool : Candidate) (st : LoopState).

Lemma tool_names_app (l1 l2 : list Candidate) :
  tool_names (l1 ++ l2) = tool_names l1 ++ tool_names l2.
Proof. unfold tool_names. apply omap_app. Qed.

Lemma processTool_rethrows conv esc tool st e st' :
  processTool conv esc tool st = Rethrow e st' ->
  exists n, e = NodeOperationError_of_text (duplicate_message n).
Proof.
  unfold processTool.
  destruct (negb (cand_truthy tool) || negb (cand_is_object tool)); [done|].
  destruct (cand_get "name" tool); try done.
  destruct (String.eqb s ""); [done|].
  destruct (bool_decide (s ∈ seenNames st)).
  { intros [= <- _]. eauto. }
  destruct (escape_description esc tool) as [e'|tool']; [done|].
  destruct (conv && instanceof_N8nTool tool'); [|done].
  by destruct (asDynamicTool tool').
Qed.

Lemma processTools_rethrows conv esc tools st e st' :
  processTools conv esc tools st = Rethrow e st' ->
  exists n, e = NodeOperationError_of_text (duplicate_message n).
Proof.
  revert st. induction tools as [|tool rest IH]; intros st; simpl; [done|].
  destruct (processTool conv esc tool st) as [st1|e1 st1] eqn:E.
  - apply IH.
  - intros [= <- _]. by eapply processTool_rethrows.
Qed.

(** The loop only ever appends to [finalTools]; what it appends carries
    names of the candidates, in their order, none of them seen before. *)
Lemma processTools_names conv esc tools st st' :
  processTools conv esc tools st = Continue st' ->
  NoDup (tool_names (finalTools st)) ->
  (forall n, n ∈ tool_names (finalTools st) -> n ∈ seenNames st) ->
  exists added,
    finalTools st' = finalTools st ++ added
    /\ NoDup (tool_names (finalTools st'))
    /\ Forall (fun t => is_Some (valid_name t)) added
    /\ tool_names added `sublist_of` tool_names tools.
Proof.
  revert st. induction tools as [|tool rest IH]; intros st Hrun Hnd Hseen.
  { simpl in Hrun. injection Hrun as <-. exists []. rewrite app_nil_r.
    repeat split; try done. }
  simpl in Hrun. unfold tool_names at 3. simpl. fold (tool_names rest).
  destruct (valid_name tool) as [n|] eqn:Hv.
  - destruct (decide (n ∈ seenNames st)) as [Hin|Hnotin].
    { destruct (processTool_duplicate conv esc tool st n Hv Hin) as [st1 E].
      by rewrite E in Hrun. }
    destruct (processTool_fresh conv esc tool st n Hv Hnotin)
      as (st1 & E & Hnames & Htools).
    rewrite E in Hrun.
    destruct Htools as [Hsame|[tool' [Hpush Hv']]].
    + destruct (IH st1 Hrun) as (added & Hfinal & Hnd' & Hvalid & Hsub).
      * by rewrite Hsame.
      * intros m Hm. rewrite Hsame in Hm. rewrite Hnames.
        apply elem_of_union. right. by apply Hseen.
      * exists added. rewrite Hfinal, Hsame. repeat split; try done.
        -- by rewrite <- Hsame, <- Hfinal.
        -- by apply sublist_cons.
    + assert (Hn : tool_names (finalTools st1) = tool_names (finalTools st) ++ [n]).
      { rewrite Hpush, tool_names_app. unfold tool_names at 2. simpl.
        by rewrite Hv'. }
      destruct (IH st1 Hrun) as (added & Hfinal & Hnd' & Hvalid & Hsub).
      * rewrite Hn. apply NoDup_app. repeat split; try done.
        -- intros m Hm Hm'. apply list_elem_of_singleton in Hm' as ->.
           apply Hnotin. by apply Hseen.
        -- apply NoDup_singleton.
      * intros m Hm. rewrite Hn in Hm. rewrite Hnames.
        apply elem_of_union. apply elem_of_app in Hm as [Hm|Hm].
        -- right. by apply Hseen.
        -- left. apply list_elem_of_singleton in Hm as ->.
           by apply elem_of_singleton.
      * exists (tool' :: added). rewrite Hfinal, Hpush, <- app_assoc.
        repeat split; try done.
        -- by rewrite app_assoc, <- Hpush, <- Hfinal.
        -- constructor; [by rewrite Hv'|done].
        -- unfold tool_names at 1. simpl. rewrite Hv'. simpl.
           by apply sublist_skip.
  - rewrite processTool_invalid in Hrun by done.
    by apply IH.
Qed.

Lemma valid_names_map (tools : list Candidate) :
  Forall (fun t => is_Some (valid_name t)) tools ->
  map (cand_get "name") tools = map VStr (tool_names tools).
Proof.
  induction 1 as [|t rest [n Hn] _ IH]; [done|].
  unfold tool_names. simpl. rewrite Hn. simpl. fold (tool_names rest).
  apply valid_name_get in Hn as (_ & _ & -> & _). by rewrite IH.
Qed.

(** X1: with [enforceUniqueNames], the tools [getConnectedTools] resolves
    to carry pairwise distinct names; these names are names of connected
    candidates and come in the order of the connection. *)
Theorem getConnectedTools_names_distinct (raw : Connection)
    (convertStructuredTool escapeCurlyBrackets : bool) :
  match fst (getConnectedTools (inr raw) true convertStructuredTool
               escapeCurlyBrackets) with
  | inr tools =>
      NoDup (map (cand_get "name") tools)
      /\ map (cand_get "name") tools = map VStr (tool_names tools)
      /\ tool_names tools `sublist_of` tool_names (connectedTools raw)
  | inl _ => True
  end.
Proof.
  unfold getConnectedTools.
  destruct (connection_truthy raw); simpl.
  2: { repeat split; [constructor | apply sublist_nil_l]. }
  destruct (processTools convertStructuredTool escapeCurlyBrackets
              (connectedTools raw)
              {| seenNames := ∅; finalTools := []; events := [] |})
    as [st|e st] eqn:E.
  - destruct (processTools_names _ _ _ _ _ E) as (added & Hfinal & Hnd & Hvalid & Hsub).
    { constructor. }
    { intros n Hn. by apply elem_of_nil in Hn. }
    simpl in Hfinal. subst added. simpl.
    rewrite (valid_names_map _ Hvalid). repeat split; try done.
    apply NoDup_fmap_2; [|done]. by intros x y [= ->].
  - unfold connection_failed.
    by destruct (instanceof_NodeOperationError e).
Qed.

(** X2: whatever the host's connection data and the three flags are,
    [getConnectedTools] throws nothing but a [NodeOperationError], and
    its last telemetry record then is [tool-connection-error]; when it
    resolves it has either logged nothing (nothing connected, or no
    enforcement) or ended on the [tools-connected] record of the very
    list it returns. *)
Theorem getConnectedTools_outcome (data : Thrown + Connection)
    (enforceUniqueNames convertStructuredTool escapeCurlyBrackets : bool) :
  match getConnectedTools data enforceUniqueNames convertStructuredTool
          escapeCurlyBrackets with
  | (inl error, evs) =>
      instanceof_NodeOperationError error = true
      /\ exists evs' d,
           evs = evs' ++ [{| event_name := "tool-connection-error";
                             event_data := d |}]
  | (inr tools, evs) =>
      (enforceUniqueNames = false -> evs = [])
      /\ (evs = [] \/ last evs = Some (tools_connected tools))
  end.
Proof.
  assert (Hfailed : forall e evs,
            exists error d,
              connection_failed e evs
              = (inl error, evs ++ [{| event_name := "tool-connection-error";
                                       event_data := d |}])
              /\ instanceof_NodeOperationError error = true).
  { intros e evs. unfold connection_failed.
    destruct (instanceof_NodeOperationError e) eqn:He; eauto. }
  unfold getConnectedTools.
  destruct data as [e|raw].
  { destruct (Hfailed e []) as (error & d & -> & He). eauto. }
  destruct (connection_truthy raw); simpl; [|by auto].
  destruct enforceUniqueNames; simpl; [|by auto].
  destruct (processTools convertStructuredTool escapeCurlyBrackets
              (connectedTools raw)
              {| seenNames := ∅; finalTools := []; events := [] |})
    as [st|e st] eqn:E.
  - split; [done|]. right. by rewrite last_snoc.
  - destruct (Hfailed e (events st)) as (error & d & -> & He). eauto.
Qed.

Lemma processTools_plain tools st :
  NoDup (tool_names tools) ->
  (forall n, n ∈ tool_names tools -> n ∉ seenNames st) ->
  exists seen,
    processTools false false tools st
    = Continue {| seenNames := seen;
                  finalTools := finalTools st ++ List.filter accepted tools;
                  events := events st |}.
Proof.
  revert st. induction tools as [|tool rest IH]; intros st Hnd Hfresh; simpl.
  { rewrite app_nil_r. destruct st. eauto. }
  unfold tool_names in Hnd, Hfresh. simpl in Hnd, Hfresh.
  unfold accepted at 1.
  destruct (valid_name tool) as [n|] eqn:Hv.
  - simpl in Hnd, Hfresh. apply NoDup_cons in Hnd as [Hn Hnd].
    pose proof Hv as Hv'. apply valid_name_get in Hv' as (Ht & Ho & Hname & Hne).
    unfold processTool. rewrite Ht, Ho, Hname. simpl.
    assert (String.eqb n "" = false) as -> by by apply String.eqb_neq.
    rewrite bool_decide_eq_false_2 by (apply Hfresh; by apply elem_of_cons; left).
    unfold escape_description. simpl.
    destruct (IH (push tool (add_name n st))) as [seen ->]; [done| |].
    { intros m Hm. simpl. intros Hin.
      apply elem_of_union in Hin as [Hin|Hin].
      - apply elem_of_singleton in Hin as ->. done.
      - revert Hin. apply Hfresh. by apply elem_of_cons; right. }
    simpl. rewrite <- app_assoc. simpl. eauto.
  - rewrite processTool_invalid by done. by apply IH.
Qed.

(** X3: with conversion and escaping off, unique-name discovery returns
    exactly the connected candidates that are object-like values with a
    non-empty string name, in connection order and unchanged, provided
    no such name occurs twice. *)
Theorem getConnectedTools_keeps_valid (raw : Connection) :
  NoDup (tool_names (connectedTools raw)) ->
  fst (getConnectedTools (inr raw) true false false)
  = inr (List.filter accepted (connectedTools raw)).
Proof.
  intros Hnd. unfold getConnectedTools.
  destruct (connection_truthy raw) eqn:Ht; simpl.
  - destruct (processTools_plain (connectedTools raw)
                {| seenNames := ∅; finalTools := []; events := [] |} Hnd)
      as [seen ->]; [|done].
    intros n _. apply not_elem_of_empty.
  - destruct raw as [ts|c]; [done|]. simpl in Ht.
    destruct c as [v| | |]; try done.
    destruct v; try done; simpl in *;
      unfold accepted, valid_name; simpl; by rewrite Ht.
Qed.

End Discovery.

Lemma getConnectedTools_keeps_valid_witness :
  fst (getConnectedTools (inr three_candidates) true false false)
  = inr (List.filter accepted (connectedTools three_candidates)).
Proof.
  apply (getConnectedTools_keeps_valid three_candidates).
  apply (bool_decide_unpack _). vm_compute. exact I.
Defined.

(** ** Loading the tools and running the round *)
Section Degradation.

Import Orchestrator.

Context {W H : Type}.
Variable env : Collaborators W H.

Lemma load_tools_duplicate (raw : Connection) (name : string) :
  name <> "" ->
  named_twice name (connectedTools raw) ->
  exists duplicated evs,
    getConnectedTools (inr raw) true true false
    = (inl (NodeOperationError_of_text (duplicate_message duplicated)), evs)
    /\ load_tools (inr raw)
       = ([], ["Tool loading error: " +:+ duplicate_message duplicated], evs).
Proof.
  intros Hne Htwice.
  pose proof (named_twice_truthy _ _ Htwice) as Ht.
  pose proof (getConnectedTools_enforced raw true false Ht) as Hget.
  destruct (first_duplicate ∅ (tool_names (connectedTools raw))) as [m|] eqn:E.
  - destruct Hget as [evs Hget]. exists m, evs. split; [done|].
    unfold load_tools. by rewrite Hget.
  - apply first_duplicate_None in E.
    by destruct (named_twice_not_NoDup name (connectedTools raw)).
Qed.

(** X4: two connected tools with the same name do not fail the node:
    the discovery error is caught, recorded as the only entry of
    [toolErrors], and the item is answered by the model without tools
    ([sap_ai_core_direct]); no tool-aware endpoint is bound. *)
Theorem duplicate_names_degrade_to_direct (raw : Connection) (name : string)
    (systemMessage userMessage : Val) (w : W) :
  name <> "" ->
  named_twice name (connectedTools raw) ->
  exists duplicated evs,
    load_tools (inr raw)
    = ([], ["Tool loading error: " +:+ duplicate_message duplicated], evs)
    /\ run env (fst (fst (load_tools (inr raw)))) systemMessage userMessage w
       = match invoke env (conversation systemMessage userMessage) w with
         | (inr response, w') =>
             (inr {| output := content response; intermediateSteps := [];
                     toolsUsed := 0; executionType := "sap_ai_core_direct";
                     toolCalls := None; error := None |}, w')
         | (inl e, w') => (inl e, w')
         end.
Proof.
  intros Hne Htwice.
  destruct (load_tools_duplicate raw name Hne Htwice) as (m & evs & _ & Hload).
  exists m, evs. split; [done|]. rewrite Hload. simpl.
  apply run_without_tools.
Qed.

Lemma execute_tool_calls_length tools calls w :
  (length (fst (execute_tool_calls env tools calls w)) <= length calls)%nat.
Proof.
  revert w. induction calls as [|c rest IH]; intros w; simpl; [done|].
  destruct (find_tool tools c) as [t|].
  - destruct (tool_invoke env t (args c) w) as [r w1].
    specialize (IH w1).
    destruct (execute_tool_calls env tools rest w1) as [entries w2].
    simpl in *. lia.
  - specialize (IH w). lia.
Qed.

(** X5: the loop over the model's directives makes one step for each
    directive that names a loaded tool, in the order of the directives
    and under the directive's id; a directive that names no loaded tool
    leaves no step, no error and invokes nothing. *)
Theorem execute_tool_calls_known (tools : list Candidate)
    (calls : list ToolCall) (w : W) :
  map result_call_id (fst (execute_tool_calls env tools calls w))
  = map id (List.filter (known_tool tools) calls)
  /\ (List.filter (known_tool tools) calls = [] ->
      execute_tool_calls env tools calls w = ([], w)).
Proof.
  split.
  - revert w. induction calls as [|c rest IH]; intros w; simpl; [done|].
    unfold known_tool at 1.
    destruct (find_tool tools c) as [t|].
    + destruct (tool_invoke env t (args c) w) as [r w1].
      specialize (IH w1).
      destruct (execute_tool_calls env tools rest w1) as [entries w2].
      simpl in *. rewrite IH. by destruct r.
    + apply IH.
  - revert w. induction calls as [|c rest IH]; intros w; simpl; [done|].
    unfold known_tool at 1.
    destruct (find_tool tools c) as [t|]; [done|]. apply IH.
Qed.

(** X6: every result of the round falls under exactly one of the four
    execution types, with the bookkeeping that goes with it: without
    tools it is [sap_ai_core_direct]; with tools it is either a tool
    round (no more steps than directives), a direct response (no
    steps), or the fallback, the only one that carries an [error] and
    the only one with tools loaded that reports none used. *)
Theorem run_result_cases (tools : list Candidate)
    (systemMessage userMessage : Val) (w w' : W) (result : Result) :
  run env tools systemMessage userMessage w = (inr result, w') ->
  match tools with
  | [] =>
      executionType result = "sap_ai_core_direct"
      /\ toolsUsed result = 0%nat /\ intermediateSteps result = []
      /\ error result = None
  | _ :: _ =>
      (executionType result = "sap_ai_core_with_tools"
       /\ toolsUsed result = length tools /\ error result = None
       /\ exists calls, toolCalls result = Some calls /\ calls <> []
                        /\ (length (intermediateSteps result) <= length calls)%nat)
      \/ (executionType result = "sap_ai_core_direct_response"
          /\ toolsUsed result = length tools /\ error result = None
          /\ intermediateSteps result = [])
      \/ (executionType result = "direct_llm_fallback"
          /\ toolsUsed result = 0%nat /\ intermediateSteps result = []
          /\ exists message, error result = Some message)
  end.
Proof.
  intros Hrun. destruct tools as [|t ts] eqn:Et.
  { rewrite run_without_tools in Hrun.
    destruct (invoke env (conversation systemMessage userMessage) w)
      as [[e|r] w1]; [done|].
    by injection Hrun as <- <-. }
  rewrite <- Et in *.
  assert (Hfallback : forall agentError w1,
            fallback env systemMessage userMessage agentError w1 = (inr result, w') ->
            executionType result = "direct_llm_fallback"
            /\ toolsUsed result = 0%nat /\ intermediateSteps result = []
            /\ exists message, error result = Some message).
  { intros agentError w1. unfold fallback, bind, ret.
    destruct (invoke env (conversation systemMessage userMessage) w1)
      as [[e|r] w2]; [done|].
    intros [= <- <-]. simpl. eauto. }
  rewrite run_with_tools in Hrun by (by rewrite Et).
  unfold try_catch, with_tools, bind in Hrun.
  destruct (bindTools env tools w) as [[e|m] w1].
  { right. right. by eapply Hfallback. }
  destruct (invoke_bound env m (conversation systemMessage userMessage) w1)
    as [[e|response] w2].
  { right. right. by eapply Hfallback. }
  destruct (wants_tools response) as [calls|] eqn:Ew.
  - pose proof (execute_tool_calls_length tools calls w2) as Hlen.
    destruct (execute_tool_calls env tools calls w2) as [steps w3].
    destruct (invoke_bound env m
                (final_messages (conversation systemMessage userMessage)
                   response steps) w3) as [[e|final] w4].
    { right. right. by eapply Hfallback. }
    left. unfold ret in Hrun. injection Hrun as <- <-. simpl.
    repeat split.
    unfold wants_tools in Ew.
    destruct (tool_calls response) as [[|c cs]|]; try done.
    injection Ew as <-. eexists. split; [done|]. split; [done|]. exact Hlen.
  - right. left. unfold ret in Hrun. by injection Hrun as <- <-.
Qed.

End Degradation.

Lemma duplicate_names_degrade_to_direct_witness :
  exists duplicated evs,
    Orchestrator.load_tools (inr demo_connection)
    = ([], ["Tool loading error: " +:+ duplicate_message duplicated], evs)
    /\ Orchestrator.run Orchestrator.demo_env
         (fst (fst (Orchestrator.load_tools (inr demo_connection))))
         (VStr "You are a helpful AI assistant.") (VStr "Weather?") []
       = match Orchestrator.invoke Orchestrator.demo_env
                 (Orchestrator.conversation
                    (VStr "You are a helpful AI assistant.") (VStr "Weather?")) [] with
         | (inr response, w') =>
             (inr {| Orchestrator.output := Orchestrator.content response;
                     Orchestrator.intermediateSteps := [];
                     Orchestrator.toolsUsed := 0;
                     Orchestrator.executionType := "sap_ai_core_direct";
                     Orchestrator.toolCalls := None;
                     Orchestrator.error := None |}, w')
         | (inl e, w') => (inl e, w')
         end.
Proof.
  apply (duplicate_names_degrade_to_direct Orchestrator.demo_env
           demo_connection "search").
  - discriminate.
  - exists [], (plain_tool "search"),
      [N8nToolObject (VStr "calc") (VStr "adds") (VFun 5)],
      (plain_tool "search"), [plain_tool "weather"].
    repeat split; reflexivity.
Defined.

Lemma run_result_cases_witness :
  exists result w',
    Orchestrator.run Orchestrator.demo_env Orchestrator.demo_tools
      (VStr "You are a helpful AI assistant.") (VStr "Weather?") []
    = (inr result, w')
    /\ ((Orchestrator.executionType result = "sap_ai_core_with_tools"
         /\ Orchestrator.toolsUsed result = length Orchestrator.demo_tools
         /\ Orchestrator.error result = None
         /\ exists calls,
              Orchestrator.toolCalls result = Some calls /\ calls <> []
              /\ (length (Orchestrator.intermediateSteps result)
                  <= length calls)%nat)
        \/ (Orchestrator.executionType result = "sap_ai_core_direct_response"
            /\ Orchestrator.toolsUsed result = length Orchestrator.demo_tools
            /\ Orchestrator.error result = None
            /\ Orchestrator.intermediateSteps result = [])
        \/ (Orchestrator.executionType result = "direct_llm_fallback"
            /\ Orchestrator.toolsUsed result = 0%nat
            /\ Orchestrator.intermediateSteps result = []
            /\ exists message, Orchestrator.error result = Some message)).
Proof.
  eexists _, _. split; [reflexivity|].
  exact (run_result_cases Orchestrator.demo_env Orchestrator.demo_tools
           (VStr "You are a helpful AI assistant.") (VStr "Weather?") [] _ _
           eq_refl).
Defined.

(** ** Call interception: what the host's record receives *)
Section Bookkeeping.

Import LogWrapper.

Context {W : Type}.
Variables (host : Host) (inst : Instance W).

Lemma callMethodAsync_sink op args index st :
  has_addOutputData host = true ->
  match callMethodAsync host inst (operation_name op) (forwarded op args)
          (connection_type op) index (passed_target op) st with
  | (inr V, st') =>
      sink st' = sink st /\ telemetry st' = telemetry st
      /\ exists w, delegate inst op args (world st) = (inr V, w)
  | (inl e, st') =>
      exists E w,
        delegate inst op args (world st) = (inl E, w)
        /\ sink st'
           = sink st ++ [OutputData (connection_type op) index
                           (inl (new_NodeOperationError (error_lib host) E
                                   (Some "configuration-node"))) VUndefined]
  end.
Proof.
  intros Hout. unfold callMethodAsync, apply_method, delegate.
  destruct (target_method inst (operation_name op)
              (default ThisNull (passed_target op)) (forwarded op args)
              (world st)) as [[E|V] w] eqn:Ed; simpl.
  - rewrite Hout.
    destruct (truthy (operation_message (error_lib host) E));
      [destruct (truthy (operation_description (error_lib host) E))|];
      exists E, w; by split.
  - eauto.
Qed.

Lemma after_call_sink op args index V st :
  has_addOutputData host = true ->
  match after_call host inst op args index V st with
  | (inr v, st') =>
      exists json metadata,
        sink st' = sink st ++ [OutputData (connection_type op) index
                                 (inr (items json)) metadata]
  | (inl e, st') => sink st' = sink st
  end.
Proof.
  intros Hout.
  destruct op; unfold after_call, bind, addOutputData, logAiEvent, ret,
    chatHistory_read, lift; rewrite ?Hout; simpl; eauto.
  - destruct (chatHistory_getMessages inst (world st)) as [[e|h] w]; simpl;
      rewrite ?Hout; eauto.
  - destruct (first_element V) as [e|first]; simpl; rewrite ?Hout; eauto.
Qed.

(** X7: on a host with both sinks, an intercepted call files its input
    record first and then at most one output record, under the same
    connection type and under the run index the input record was given.
    A call that returns has filed a data record; when the underlying
    operation throws, the record filed is the [NodeOperationError] built
    from what it threw. *)
Theorem intercepted_call_records (prop : string) (op : Operation)
    (args : list Val) (st : State W) :
  logWrapper inst prop = Some op ->
  has_addInputData host = true ->
  has_addOutputData host = true ->
  exists outs,
    sink (snd (call host inst prop args st))
    = sink st
      ++ InputData (connection_type op) (items (input_json inst op args)) :: outs
    /\ match fst (call host inst prop args st),
             fst (delegate inst op args (world st)) with
       | inr _, _ =>
           exists json metadata,
             outs = [OutputData (connection_type op) (length (sink st))
                       (inr (items json)) metadata]
       | inl _, inl E =>
           outs = [OutputData (connection_type op) (length (sink st))
                     (inl (new_NodeOperationError (error_lib host) E
                             (Some "configuration-node"))) VUndefined]
       | inl _, inr _ => outs = []
       end.
Proof.
  intros Htrap Hin Hout. unfold call. rewrite Htrap.
  rewrite wrapped_call_logged by done.
  set (st1 := record (InputData (connection_type op)
                        (items (input_json inst op args))) st).
  pose proof (callMethodAsync_sink op args (length (sink st)) st1 Hout) as Hcall.
  destruct (callMethodAsync host inst (operation_name op) (forwarded op args)
              (connection_type op) (length (sink st)) (passed_target op) st1)
    as [[e|V] st2].
  - destruct Hcall as (E & w & Hd & Hsink).
    change (world st1) with (world st) in Hd. rewrite Hd. simpl.
    eexists. split; [|reflexivity]. rewrite Hsink. simpl.
    by rewrite <- app_assoc.
  - destruct Hcall as (Hsink & _ & w & Hd).
    change (world st1) with (world st) in Hd. rewrite Hd. simpl.
    pose proof (after_call_sink op args (length (sink st)) V st2 Hout) as Hafter.
    destruct (after_call host inst op args (length (sink st)) V st2)
      as [[e|v] st3]; simpl.
    + exists []. split; [|done]. by rewrite Hafter, Hsink.
    + destruct Hafter as (json & metadata & Hafter).
      eexists. split; [|eauto]. rewrite Hafter, Hsink. simpl.
      by rewrite <- app_assoc.
Qed.

Lemma after_call_without_output op args index V st :
  has_addOutputData host = false ->
  exists e st', after_call host inst op args index V st = (inl e, st')
                /\ sink st' = sink st.
Proof.
  intros Hout.
  destruct op; unfold after_call, bind, addOutputData, logAiEvent, ret,
    chatHistory_read, lift; rewrite ?Hout; simpl; eauto.
  - destruct (chatHistory_getMessages inst (world st)) as [[e|h] w]; simpl;
      rewrite ?Hout; eauto.
  - destruct (first_element V) as [e|first]; simpl; rewrite ?Hout; eauto.
Qed.

(** X8: on a host that has [addInputData] but no [addOutputData], no
    intercepted call ever returns: the input record is filed, the
    underlying operation is carried out, and the caller gets an
    exception even when the operation succeeded, because the closure
    calls [addOutputData] without testing for it. *)
Theorem intercepted_call_needs_output_sink (prop : string) (op : Operation)
    (args : list Val) (st : State W) :
  logWrapper inst prop = Some op ->
  has_addInputData host = true ->
  has_addOutputData host = false ->
  exists e st',
    call host inst prop args st = (inl e, st')
    /\ sink st'
       = sink st ++ [InputData (connection_type op)
                       (items (input_json inst op args))].
Proof.
  intros Htrap Hin Hout. unfold call. rewrite Htrap.
  rewrite wrapped_call_logged by done.
  set (st1 := record (InputData (connection_type op)
                        (items (input_json inst op args))) st).
  unfold callMethodAsync, apply_method.
  destruct (target_method inst (operation_name op)
              (default ThisNull (passed_target op)) (forwarded op args)
              (world st1)) as [[E|V] w]; simpl.
  - rewrite Hout.
    destruct (truthy (operation_message (error_lib host) E));
      [destruct (truthy (operation_description (error_lib host) E))|];
      eexists _, _; split; reflexivity.
  - match goal with
    | |- context [after_call host inst op args ?i V ?s] =>
        destruct (after_call_without_output op args i V s Hout)
          as (e & st' & -> & Hsink)
    end.
    exists e, st'. split; [done|]. by rewrite Hsink.
Qed.

(** X30: on a host with [addInputData], the closure of every
    intercepted operation other than [embedDocuments] and [embedQuery]
    leaves [target] out of what it hands to [callMethodAsync], which
    then applies the method to [null].  A method that throws [E]
    without its receiver therefore fails on such a host, with the
    error normalized from [E], whatever it does as a method of the
    target; on a host without [addInputData] the same operation is
    called on the target and its outcome is passed on. *)
Theorem logged_call_loses_receiver (prop : string) (op : Operation)
    (args : list Val) (st : State W) (E : Thrown) (w : W) :
  logWrapper inst prop = Some op ->
  op <> EmbedDocuments -> op <> EmbedQuery ->
  target_method inst (operation_name op) ThisNull (forwarded op args) (world st)
  = (inl E, w) ->
  (has_addInputData host = true ->
   exists st',
     call host inst prop args st = (inl (normalized host op E), st')
     /\ world st' = w)
  /\ (has_addInputData host = false ->
      call host inst prop args st
      = match target_method inst (operation_name op) ThisTarget
                (forwarded op args) (world st) with
        | (inr V, w') =>
            (inr (returned op V),
             {| world := w'; sink := sink st; telemetry := telemetry st |})
        | (inl E', w') =>
            (inl E', {| world := w'; sink := sink st; telemetry := telemetry st |})
        end).
Proof.
  intros Htrap Hdocs Hquery Hnull. unfold call. rewrite Htrap. split.
  - intros Hin. rewrite wrapped_call_logged by done.
    destruct (callMethodAsync_outcome host inst op args (length (sink st))
                (record (InputData (connection_type op)
                           (items (input_json inst op args))) st))
      as (st1 & Hcall & Hw).
    change (world (record (InputData (connection_type op)
                             (items (input_json inst op args))) st))
      with (world st) in Hcall, Hw.
    assert (Hdelegate : delegate inst op args (world st) = (inl E, w)).
    { unfold delegate. by destruct op. }
    rewrite Hdelegate in Hcall, Hw. rewrite Hcall. eauto.
  - intros Hin. unfold wrapped_call. rewrite Hin.
    apply (unlogged_call_outcome inst).
Qed.

End Bookkeeping.

Lemma logged_call_loses_receiver_witness :
  (exists st',
     LogWrapper.call LogWrapper.demo_host method_tool "_call" [VStr "Paris"]
       LogWrapper.empty_state
     = (inl (LogWrapper.normalized LogWrapper.demo_host LogWrapper.ToolCall
               (TypeError "Cannot read properties of null (reading 'func')")),
        st')
     /\ LogWrapper.world st' = tt)
  /\ LogWrapper.call host_without_input method_tool "_call" [VStr "Paris"]
       LogWrapper.empty_state
     = (inr (VStr "sunny"), LogWrapper.empty_state).
Proof.
  split.
  - apply (proj1 (logged_call_loses_receiver LogWrapper.demo_host method_tool
                    "_call" LogWrapper.ToolCall [VStr "Paris"]
                    LogWrapper.empty_state
                    (TypeError "Cannot read properties of null (reading 'func')")
                    tt eq_refl ltac:(discriminate) ltac:(discriminate) eq_refl)).
    reflexivity.
  - apply (proj2 (logged_call_loses_receiver host_without_input method_tool
                    "_call" LogWrapper.ToolCall [VStr "Paris"]
                    LogWrapper.empty_state
                    (TypeError "Cannot read properties of null (reading 'func')")
                    tt eq_refl ltac:(discriminate) ltac:(discriminate) eq_refl)).
    reflexivity.
Defined.

Lemma intercepted_call_records_witness :
  exists outs,
    LogWrapper.sink
      (snd (LogWrapper.call LogWrapper.demo_host LogWrapper.demo_tool
              "_call" [VStr "Paris"] LogWrapper.empty_state))
    = [] ++ LogWrapper.InputData "ai_tool"
              (LogWrapper.items [("query", VStr "Paris")]) :: outs
    /\ exists json metadata,
         outs = [LogWrapper.OutputData "ai_tool" 0
                   (inr (LogWrapper.items json)) metadata].
Proof.
  exact (intercepted_call_records LogWrapper.demo_host LogWrapper.demo_tool
           "_call" LogWrapper.ToolCall [VStr "Paris"] LogWrapper.empty_state
           eq_refl eq_refl eq_refl).
Defined.

Lemma intercepted_call_needs_output_sink_witness :
  exists e st',
    LogWrapper.call host_without_output LogWrapper.demo_tool
      "_call" [VStr "Paris"] LogWrapper.empty_state
    = (inl e, st')
    /\ LogWrapper.sink st'
       = [] ++ [LogWrapper.InputData "ai_tool"
                  (LogWrapper.items [("query", VStr "Paris")])].
Proof.
  exact (intercepted_call_needs_output_sink host_without_output
           LogWrapper.demo_tool "_call" LogWrapper.ToolCall [VStr "Paris"]
           LogWrapper.empty_state eq_refl eq_refl eq_refl).
Defined.

(** ** Brace escaping, applied twice *)
Section EscapingTwice.

Implicit Types (c x : ascii) (s t : list ascii).

(** The length a run of [n] braces has after escaping. *)
Lemma escaped_run_stable n :
  let m := if (n =? 1)%nat then 2%nat else if (n =? 3)%nat then 4%nat else n in
  (if (m =? 1)%nat then 2%nat else if (m =? 3)%nat then 4%nat else m) = m
  /\ (n <= m)%nat /\ (m <> 1)%nat.
Proof. destruct n as [|[|[|[|n]]]]; simpl; lia. Qed.

Lemma first_run x t :
  exists n post, x :: t = repeat x (S n) ++ post /\ head post <> Some x.
Proof.
  induction t as [|y t IH].
  - exists 0%nat, []. by split.
  - destruct (decide (y = x)) as [->|Hne].
    + destruct IH as (n & post & E & Hpost).
      exists (S n), post. split; [|done].
      change (repeat x (S (S n)) ++ post) with (x :: (repeat x (S n) ++ post)).
      by rewrite <- E.
    + exists 0%nat, (y :: t). split; [done|]. simpl. congruence.
Qed.

Lemma replace_triple_other c x t :
  x <> c -> replace_triple c None (x :: t) = x :: replace_triple c None t.
Proof.
  intros Hne. rewrite replace_triple_eq.
  assert (triple_at c None (x :: t) = false) as ->.
  { destruct t as [|y [|z u]]; try done. simpl.
    assert (is_char c x = false) as ->; [|done].
    destruct (is_char c x) eqn:E; [|done]. by apply is_char_eq in E. }
  f_equal. apply replace_triple_prev. left.
  apply opt_is_char_false. congruence.
Qed.

Lemma replace_single_other c x t :
  x <> c -> replace_single c None (x :: t) = x :: replace_single c None t.
Proof.
  intros Hne. rewrite replace_single_eq.
  assert (single_at c None (x :: t) = false) as ->.
  { simpl. assert (is_char c x = false) as ->; [|done].
    destruct (is_char c x) eqn:E; [|done]. by apply is_char_eq in E. }
  f_equal. apply replace_single_prev. left.
  apply opt_is_char_false. congruence.
Qed.

Lemma escape_chars_other x t :
  x <> lbrace -> x <> rbrace -> escape_chars (x :: t) = x :: escape_chars t.
Proof.
  intros Hl Hr. unfold escape_chars.
  by rewrite (replace_triple_other lbrace), (replace_triple_other rbrace),
    (replace_single_other lbrace), (replace_single_other rbrace).
Qed.

(** The shape of an escaped text, one leading run at a time. *)
Lemma escape_chars_cases x t :
  (x <> lbrace /\ x <> rbrace /\ escape_chars (x :: t) = x :: escape_chars t)
  \/ ((x = lbrace \/ x = rbrace)
      /\ exists n post,
           x :: t = repeat x (S n) ++ post /\ head post <> Some x
           /\ escape_chars (x :: t)
              = repeat x (if (S n =? 1)%nat then 2%nat
                          else if (S n =? 3)%nat then 4%nat else S n)
                ++ escape_chars post).
Proof.
  destruct (decide (x = lbrace)) as [Hl|Hl];
    [|destruct (decide (x = rbrace)) as [Hr|Hr]].
  3: { left. split; [done|]. split; [done|]. by apply escape_chars_other. }
  all: right; split; [auto|];
    destruct (first_run x t) as (n & post & E & Hpost);
    exists n, post; split; [done|]; split; [done|];
    rewrite E;
    apply (escape_chars_run x (S n) [] post); auto; lia.
Qed.

Lemma escape_chars_idempotent s :
  escape_chars (escape_chars s) = escape_chars s.
Proof.
  remember (length s) as k eqn:Hk. revert s Hk.
  induction k as [k IH] using lt_wf_ind. intros [|x t] Hk; [done|].
  destruct (escape_chars_cases x t)
    as [(Hl & Hr & ->)|(Hc & n & post & E & Hpost & ->)].
  - rewrite escape_chars_other by done. f_equal.
    apply (IH (length t)); [subst k; simpl; lia | done].
  - destruct (escaped_run_stable (S n)) as (Hstable & Hle & Hne).
    set (m := if (S n =? 1)%nat then 2%nat
              else if (S n =? 3)%nat then 4%nat else S n) in *.
    assert (Hrun : escape_chars (repeat x m ++ escape_chars post)
                   = repeat x m ++ escape_chars (escape_chars post)).
    { rewrite <- Hstable at 2.
      apply (escape_chars_run x m [] (escape_chars post)); try done.
      - lia.
      - by rewrite escape_chars_head. }
    rewrite Hrun. f_equal.
    apply (IH (length post)); [|done].
    subst k. rewrite E, length_app, repeat_length. lia.
Qed.

Lemma escape_chars_length s : (length s <= length (escape_chars s))%nat.
Proof.
  remember (length s) as k eqn:Hk. revert s Hk.
  induction k as [k IH] using lt_wf_ind. intros [|x t] Hk; [subst; simpl; lia|].
  destruct (escape_chars_cases x t)
    as [(Hl & Hr & ->)|(Hc & n & post & E & Hpost & ->)].
  - pose proof (IH (length t) ltac:(subst k; simpl; lia) t eq_refl).
    subst k. simpl. lia.
  - destruct (escaped_run_stable (S n)) as (_ & Hle & _).
    assert (Hlt : (length post < k)%nat).
    { subst k. rewrite E, length_app, repeat_length. lia. }
    pose proof (IH (length post) Hlt post eq_refl).
    subst k. rewrite E, !length_app, !repeat_length. lia.
Qed.

(** X9: escaping is idempotent, so a description that was escaped once
    is not changed by a second escaping; and an escaped text holds no
    lone brace: every brace in it has an equal neighbour. *)
Theorem escapeSingleCurlyBrackets_idempotent (text : option string) :
  escapeSingleCurlyBrackets (escapeSingleCurlyBrackets text)
  = escapeSingleCurlyBrackets text
  /\ forall escaped pre post c,
       escapeSingleCurlyBrackets text = Some escaped ->
       c = lbrace \/ c = rbrace ->
       escaped = pre +:+ String c "" +:+ post ->
       last_char pre = Some c \/ first_char post = Some c.
Proof.
  split.
  - destruct text as [t|]; [|done]. simpl. f_equal. unfold escape_text.
    by rewrite list_ascii_of_string_of_list_ascii, escape_chars_idempotent.
  - intros escaped pre post c Hesc Hc Hsplit.
    destruct text as [t|]; [|done]. simpl in Hesc. injection Hesc as <-.
    destruct (decide (last_char pre = Some c)) as [|Hpre]; [by left|].
    destruct (decide (first_char post = Some c)) as [|Hpost]; [by right|].
    exfalso.
    pose proof (escape_text_context c (String c "") pre post Hc
                  (or_introl eq_refl) Hpre Hpost) as Hctx.
    rewrite <- Hsplit in Hctx.
    assert (Hidem : escape_text (escape_text t) = escape_text t).
    { unfold escape_text.
      by rewrite list_ascii_of_string_of_list_ascii, escape_chars_idempotent. }
    rewrite Hidem, Hsplit in Hctx.
    apply (f_equal list_ascii_of_string) in Hctx.
    rewrite !list_ascii_of_string_app in Hctx.
    apply (f_equal (@length ascii)) in Hctx.
    rewrite !length_app in Hctx. simpl in Hctx.
    unfold escape_text in Hctx.
    rewrite !list_ascii_of_string_of_list_ascii in Hctx.
    pose proof (escape_chars_length (list_ascii_of_string pre)).
    pose proof (escape_chars_length (list_ascii_of_string post)).
    lia.
Qed.

End EscapingTwice.

(** ** Schema simplification, applied twice *)
Section SimplifyingTwice.

Implicit Types (o : list (string * Val)) (k : string).

Lemma delete_absent k o : Js.lookup k o = None -> Js.delete k o = o.
Proof.
  induction o as [|[k' v] o IH]; simpl; [done|].
  destruct (String.eqb k k'); [done|]. intros H. by rewrite IH.
Qed.

Lemma delete_keywords_absent o :
  (forall k, In k deleted_keywords -> Js.lookup k o = None) ->
  delete_keywords o = o.
Proof.
  unfold delete_keywords.
  induction deleted_keywords as [|d ds IH]; intros Hall; simpl; [done|].
  rewrite delete_absent by (apply Hall; by left).
  apply IH. intros k Hk. apply Hall. by right.
Qed.

Lemma set_existing k v x o :
  Js.lookup k o = Some x -> Js.set k v o = replace_value k v o.
Proof. intros H. unfold Js.set, has_key. by rewrite H. Qed.

Lemma replace_value_comm k k' v v' o :
  k <> k' ->
  replace_value k v (replace_value k' v' o)
  = replace_value k' v' (replace_value k v o).
Proof.
  intros Hne. induction o as [|[k0 x] o IH]; simpl; [done|].
  rewrite IH. f_equal. f_equal.
  destruct (String.eqb k k0) eqn:E, (String.eqb k' k0) eqn:E'; try done.
  apply String.eqb_eq in E, E'. congruence.
Qed.

Lemma replace_value_twice k v v' o :
  replace_value k v (replace_value k v' o) = replace_value k v o.
Proof.
  induction o as [|[k0 x] o IH]; simpl; [done|].
  rewrite IH. by destruct (String.eqb k k0).
Qed.

Lemma lookup_replace_value_same k v x o :
  Js.lookup k o = Some x -> Js.lookup k (replace_value k v o) = Some v.
Proof.
  induction o as [|[k0 y] o IH]; simpl; [done|].
  destruct (String.eqb k k0); [done|]. apply IH.
Qed.

Lemma lookup_replace_value_other k k' v o :
  k <> k' -> Js.lookup k (replace_value k' v o) = Js.lookup k o.
Proof.
  intros Hne. induction o as [|[k0 y] o IH]; simpl; [done|].
  destruct (String.eqb k k0) eqn:E; [|done].
  apply String.eqb_eq in E. subst k0.
  destruct (String.eqb k' k) eqn:E'; [|done].
  apply String.eqb_eq in E'. congruence.
Qed.

Lemma assign_cases k f o :
  (assign_if_truthy k f o = o
   /\ forall x, Js.lookup k o = Some x -> truthy x = false)
  \/ exists x, Js.lookup k o = Some x /\ truthy x = true
               /\ assign_if_truthy k f o = replace_value k (f x) o.
Proof.
  unfold assign_if_truthy. destruct (Js.lookup k o) as [x|] eqn:E.
  - destruct (truthy x) eqn:T.
    + right. exists x. repeat split; try done. by eapply set_existing.
    + left. split; [done|]. by intros ? [= <-].
  - left. by split.
Qed.

Lemma assign_noop k f o :
  (forall x, Js.lookup k o = Some x -> truthy x = false) ->
  assign_if_truthy k f o = o.
Proof.
  intros H. unfold assign_if_truthy.
  destruct (Js.lookup k o) as [x|]; [|done]. by rewrite (H x).
Qed.

Lemma assign_replace k f o x :
  Js.lookup k o = Some x -> truthy x = true ->
  assign_if_truthy k f o = replace_value k (f x) o.
Proof.
  intros E T. unfold assign_if_truthy. rewrite E, T. by eapply set_existing.
Qed.

Lemma assign_comm k k' f g o :
  k <> k' ->
  assign_if_truthy k f (assign_if_truthy k' g o)
  = assign_if_truthy k' g (assign_if_truthy k f o).
Proof.
  intros Hne.
  destruct (assign_cases k f o) as [[E1 F1]|(x & Ex & Tx & E1)];
    destruct (assign_cases k' g o) as [[E2 F2]|(y & Ey & Ty & E2)].
  - by rewrite E2, E1, E2.
  - rewrite E1, E2. apply assign_noop. intros z.
    rewrite lookup_replace_value_other by done. apply F1.
  - rewrite E2, E1. symmetry. apply assign_noop. intros z.
    rewrite lookup_replace_value_other by congruence. apply F2.
  - rewrite E1, E2.
    rewrite (assign_replace k f _ x), (assign_replace k' g _ y); try done.
    + by apply replace_value_comm.
    + by rewrite lookup_replace_value_other by congruence.
    + by rewrite lookup_replace_value_other by done.
Qed.

Lemma assign_twice k f o :
  (forall x, Js.lookup k o = Some x -> truthy x = true -> f (f x) = f x) ->
  assign_if_truthy k f (assign_if_truthy k f o) = assign_if_truthy k f o.
Proof.
  intros Hf.
  destruct (assign_cases k f o) as [[E _]|(x & Ex & Tx & ->)].
  - by rewrite !E.
  - unfold assign_if_truthy.
    rewrite (lookup_replace_value_same k (f x) x) by done.
    destruct (truthy (f x)); [|done].
    rewrite (set_existing k _ (f x))
      by (by eapply lookup_replace_value_same).
    rewrite replace_value_twice. by rewrite Hf.
Qed.

Lemma assigned_map (f : Val -> Val) (l : list (string * Val)) :
  assigned (map (fun kv => (fst kv, f (snd kv))) l)
  = map (fun kv => (fst kv, f (snd kv))) (assigned l).
Proof.
  unfold assigned. induction l as [|[k v] l IH]; [done|]. simpl.
  destruct (String.eqb k "__proto__"); simpl; by rewrite IH.
Qed.

Lemma assigned_twice (l : list (string * Val)) : assigned (assigned l) = assigned l.
Proof.
  unfold assigned. induction l as [|[k v] l IH]; [done|]. simpl.
  destruct (String.eqb k "__proto__") eqn:E; simpl; [done|]. by rewrite E, IH.
Qed.

Lemma Forall_assigned (P : string * Val -> Prop) l :
  Forall P l -> Forall P (assigned l).
Proof.
  unfold assigned. induction 1 as [|[k v] l Hx _ IH]; simpl; [constructor|].
  destruct (String.eqb k "__proto__"); simpl; [done|]. by constructor.
Qed.

Lemma new_properties_twice p :
  Forall (fun kv => simplifySchemaForSapAiCore (simplifySchemaForSapAiCore (snd kv))
                    = simplifySchemaForSapAiCore (snd kv)) (entries p) ->
  new_properties (new_properties p) = new_properties p.
Proof.
  intros Hall.
  assert (Hmap : forall l,
            Forall (fun kv => simplifySchemaForSapAiCore
                                (simplifySchemaForSapAiCore (snd kv))
                              = simplifySchemaForSapAiCore (snd kv)) l ->
            new_properties
              (VObj (map (fun kv => (fst kv, simplifySchemaForSapAiCore (snd kv)))
                       (assigned l)))
            = VObj (map (fun kv => (fst kv, simplifySchemaForSapAiCore (snd kv)))
                      (assigned l))).
  { intros l Hl. unfold new_properties. simpl entries. f_equal.
    rewrite assigned_map, assigned_twice.
    rewrite map_map. apply map_ext_Forall.
    apply Forall_assigned.
    eapply Forall_impl; [exact Hl|]. intros [k v] H. simpl in *. by rewrite H. }
  destruct p; try (by apply (Hmap [])); by apply Hmap.
Qed.

Lemma Forall_indexed_from (P : Val -> Prop) i l :
  Forall P l -> Forall (fun kv => P (snd kv)) (indexed_from i l).
Proof.
  intros H. revert i. induction H as [|x l Hx _ IH]; intros i; simpl;
    constructor; auto.
Qed.

Lemma simplify_index_keys i l :
  simplifySchemaForSapAiCore (VObj (indexed_from i l)) = VObj (indexed_from i l).
Proof.
  rewrite simplifySchemaForSapAiCore_unfold.
  rewrite delete_keywords_absent
    by (intros k Hk; apply lookup_indexed_from;
        unfold deleted_keywords in Hk; simpl in Hk;
        intuition (subst; reflexivity)).
  unfold assign_if_truthy.
  by rewrite !lookup_indexed_from by reflexivity.
Qed.

Lemma simplify_twice v :
  simplifySchemaForSapAiCore (simplifySchemaForSapAiCore v)
  = simplifySchemaForSapAiCore v
  /\ new_properties (new_properties v) = new_properties v.
Proof.
  induction v as [ | | b | n | s | i | l IH | fs IH ] using Val_ind';
    try (split; reflexivity).
  - (* a string *)
    split; [reflexivity|]. apply new_properties_twice. simpl entries.
    apply (Forall_indexed_from
             (fun v => simplifySchemaForSapAiCore (simplifySchemaForSapAiCore v)
                       = simplifySchemaForSapAiCore v)).
    unfold string_chars.
    apply Forall_map. apply Forall_true. intros c. reflexivity.
  - (* an array *)
    split.
    + change (simplifySchemaForSapAiCore (VArr l))
        with (VObj (indexed_from 0 l)).
      apply simplify_index_keys.
    + apply new_properties_twice. simpl entries.
      apply (Forall_indexed_from
               (fun v => simplifySchemaForSapAiCore (simplifySchemaForSapAiCore v)
                         = simplifySchemaForSapAiCore v)).
      eapply Forall_impl; [exact IH|].
      by intros x [Hx _].
  - (* an object *)
    assert (Hmember : forall k x,
              Js.lookup k fs = Some x ->
              simplifySchemaForSapAiCore (simplifySchemaForSapAiCore x)
              = simplifySchemaForSapAiCore x
              /\ new_properties (new_properties x) = new_properties x).
    { intros k x Hx. apply lookup_In in Hx.
      rewrite Forall_forall in IH. apply (IH (k, x)). by apply list_elem_of_In. }
    split.
    2: { apply new_properties_twice. simpl entries.
         eapply Forall_impl; [exact IH|]. by intros x [Hx _]. }
    rewrite !simplifySchemaForSapAiCore_unfold. f_equal.
    set (o1 := delete_keywords fs).
    rewrite delete_keywords_absent.
    2: { intros k Hk.
         rewrite !lookup_assign_other
           by (unfold deleted_keywords in Hk; simpl in Hk;
               intuition (subst; discriminate)).
         by apply lookup_delete_keywords_None. }
    rewrite (assign_comm "properties" "items") by discriminate.
    rewrite (assign_twice "items").
    2: { intros x Hx _. subst o1.
         rewrite !lookup_assign_other in Hx by discriminate.
         rewrite lookup_delete_keywords in Hx
           by (unfold deleted_keywords; simpl; intuition discriminate).
         by destruct (Hmember _ _ Hx). }
    rewrite (assign_twice "properties"); [done|].
    intros x Hx _. subst o1.
    rewrite lookup_delete_keywords in Hx
      by (unfold deleted_keywords; simpl; intuition discriminate).
    by destruct (Hmember _ _ Hx).
Qed.

(** X10: [simplifySchemaForSapAiCore] is idempotent: a schema that was
    simplified once is returned as it is by a second simplification;
    and what it returns is always an object, also for an array and for
    a value that is no schema at all. *)
Theorem simplifySchemaForSapAiCore_idempotent (schema : Val) :
  simplifySchemaForSapAiCore (simplifySchemaForSapAiCore schema)
  = simplifySchemaForSapAiCore schema
  /\ exists fields, simplifySchemaForSapAiCore schema = VObj fields.
Proof.
  split; [apply simplify_twice|].
  destruct schema; by eexists.
Qed.

End SimplifyingTwice.

(** ** Schema sanitising, applied twice *)
Section SanitizingTwice.

Lemma removeRefs_removes_proto v : mentions "__proto__" (removeRefs v) = false.
Proof.
  induction v as [ | | b | n | s | i | l IH | fs IH ] using Val_ind'; try done.
  - simpl. induction IH as [|x l Hx _ IHl]; simpl; [done|].
    by rewrite Hx.
  - simpl. induction IH as [|[k x] fs Hx _ IHfs]; simpl; [done|].
    destruct (String.eqb k "$ref"); [done|].
    destruct (String.eqb k "__proto__") eqn:E; [done|].
    simpl in Hx. rewrite Hx. simpl.
    by rewrite String.eqb_sym, E.
Qed.

Lemma removeRefs_without_refs v :
  mentions "$ref" v = false -> mentions "__proto__" v = false ->
  removeRefs v = v.
Proof.
  induction v as [ | | b | n | s | i | l IH | fs IH ] using Val_ind'; try done.
  - simpl. intros H H'. f_equal.
    induction IH as [|x l Hx _ IHl]; [done|].
    simpl in H, H'. apply orb_false_iff in H as [H1 H2].
    apply orb_false_iff in H' as [H1' H2'].
    simpl. by rewrite Hx, IHl.
  - simpl. intros H H'. f_equal.
    induction IH as [|[k x] fs Hx _ IHfs]; [done|].
    apply orb_false_iff in H as [H1 H2].
    apply orb_false_iff in H1 as [H0 H1].
    apply orb_false_iff in H' as [H1' H2'].
    apply orb_false_iff in H1' as [H0' H1'].
    assert (String.eqb k "$ref" = false) as ->.
    { rewrite String.eqb_sym. exact H0. }
    assert (String.eqb k "__proto__" = false) as ->.
    { rewrite String.eqb_sym. exact H0'. }
    simpl in Hx. by rewrite Hx, IHfs.
Qed.

Lemma json_copy_removeRefs v c :
  json_copy v = Some c -> json_copy (removeRefs c) = Some (removeRefs c).
Proof.
  revert c.
  induction v as [ | | b | n | s | i | l IH | fs IH ] using Val_ind';
    intros c; try done; try (by intros [= <-]).
  - simpl. intros [= <-]. simpl. do 2 f_equal.
    induction IH as [|x l Hx _ IHl]; [done|].
    simpl. rewrite IHl. f_equal.
    destruct (json_copy x) as [y|]; simpl; [|done].
    by rewrite (Hx y).
  - simpl. intros [= <-]. simpl. do 2 f_equal.
    induction IH as [|[k x] fs Hx _ IHfs]; [done|].
    simpl in Hx. destruct (json_copy x) as [y|]; [|done].
    destruct (String.eqb k "$ref"); [done|].
    destruct (String.eqb k "__proto__"); [done|].
    by rewrite (Hx y), IHfs.
Qed.

(** X11: [sanitizeSchema] is idempotent on what it returns.  Besides
    every [$ref] member it drops every member named [__proto__] (the
    assignment [result[key] = ...] defines none), at any depth; a schema
    that is plain JSON data (its deep copy is an equal value) with no
    [$ref] and no [__proto__] member anywhere is returned as it is. *)
Theorem sanitizeSchema_idempotent (schema : Val) :
  match sanitizeSchema schema with
  | inr sanitized =>
      sanitizeSchema sanitized = inr sanitized
      /\ mentions "__proto__" sanitized = false
      /\ (json_copy schema = Some schema ->
          mentions "$ref" schema = false ->
          mentions "__proto__" schema = false ->
          sanitized = schema)
  | inl _ => True
  end.
Proof.
  unfold sanitizeSchema.
  destruct (json_copy schema) as [c|] eqn:E; [|done]. split; [|split].
  - rewrite (json_copy_removeRefs schema c E). f_equal.
    apply removeRefs_without_refs;
      [apply removeRefs_removes_refs | apply removeRefs_removes_proto].
  - apply removeRefs_removes_proto.
  - intros [= ->] Hno Hproto. by apply removeRefs_without_refs.
Qed.

(** A schema with a [__proto__] member, as [JSON.parse] builds it, loses
    that member. *)
Example sanitize_drops_proto_member :
  sanitizeSchema (VObj [("a", VNum 1); ("__proto__", VObj [("b", VNum 2)])])
  = inr (VObj [("a", VNum 1)]).
Proof. reflexivity. Qed.

End SanitizingTwice.

(** ** Tool validation and tool loading *)
Section Validation.

(** X12: [validateTool] accepts exactly the object-like candidates with
    a non-empty string name, a non-empty string description and a
    truthy [func] or [_call] (the two [typeof] tests of its last rule
    never decide anything); every tool it accepts passes the name test
    of the discovery loop and the filter of [SapAiCoreLlm.execute], and
    it reports no error exactly when it accepts. *)
Theorem validateTool_accepts (tool : Candidate) :
  (fst (validateTool tool) = true
   <-> exists n d,
         valid_name tool = Some n
         /\ cand_get "description" tool = VStr d /\ d <> ""
         /\ truthy (cand_get "func" tool) || truthy (cand_get "_call" tool) = true)
  /\ (fst (validateTool tool) = true ->
      accepted tool = true /\ fst (Orchestrator.check_tool tool) = true)
  /\ (fst (validateTool tool) = true <-> snd (validateTool tool) = []).
Proof.
  assert (Hiff : fst (validateTool tool) = true
                 <-> exists n d,
                       valid_name tool = Some n
                       /\ cand_get "description" tool = VStr d /\ d <> ""
                       /\ truthy (cand_get "func" tool)
                          || truthy (cand_get "_call" tool) = true).
  { unfold validateTool, valid_name.
    destruct (cand_truthy tool) eqn:Ht; simpl.
    2: { split; [done|]. by intros (n & d & H & _). }
    destruct (cand_is_object tool) eqn:Ho; simpl.
    2: { split; [done|]. by intros (n & d & H & _). }
    destruct (cand_get "name" tool) as [ | |b0|z0|n|i0|l0|fs0] eqn:En; simpl;
      rewrite ?orb_true_r; simpl;
      try (split; [done|]; by intros (n' & d & H & _)).
    destruct (String.eqb n "") eqn:Enn; simpl.
    { split; [done|]. by intros (n' & d & H & _). }
    destruct (cand_get "description" tool) as [ | |b1|z1|d|i1|l1|fs1] eqn:Ed; simpl;
      rewrite ?orb_true_r; simpl;
      try (split; [done|]; by intros (n' & d' & _ & H & _)).
    destruct (String.eqb d "") eqn:Edd; simpl.
    { split; [done|]. intros (n' & d' & _ & [= <-] & Hd & _).
      by apply String.eqb_eq in Edd. }
    apply String.eqb_neq in Edd.
    destruct (truthy (cand_get "func" tool)) eqn:Tf; simpl.
    { split; [|done]. intros _. by exists n, d. }
    destruct (truthy (cand_get "_call" tool)) eqn:Tc; simpl.
    { split; [|done]. intros _. by exists n, d. }
    assert (is_function (cand_get "func" tool) = false) as ->
      by by destruct (cand_get "func" tool).
    assert (is_function (cand_get "_call" tool) = false) as ->
      by by destruct (cand_get "_call" tool).
    simpl. split; [done|]. by intros (n' & d' & _ & _ & _ & H). }
  split; [exact Hiff|]. split.
  - intros Hv. apply Hiff in Hv as (n & d & Hn & Hd & Hne & Hc).
    unfold accepted. rewrite Hn. split; [done|].
    apply valid_name_get in Hn as (Ht & Ho & Hname & Hnn).
    unfold Orchestrator.check_tool. rewrite Ht, Hname. simpl.
    assert (String.eqb n "" = false) as -> by by apply String.eqb_neq.
    simpl.
    destruct (truthy (cand_get "func" tool)); [done|].
    destruct (truthy (cand_get "_call" tool)); [|done].
    by rewrite andb_false_r.
  - unfold validateTool.
    destruct (negb (cand_truthy tool) || negb (cand_is_object tool)); [done|].
    simpl.
    by destruct (_ ++ _).
Qed.

End Validation.

(** ** Guards on model output *)
Section OutputGuardProperties.

Implicit Types (c prev : ascii) (rest chars : list ascii).

Lemma has_run_cons n x chars : has_run n chars -> has_run n (x :: chars).
Proof.
  intros (c & pre & post & ->). exists c, (x :: pre), post. done.
Qed.

Lemma has_run_length n chars : has_run n chars -> (n <= length chars)%nat.
Proof.
  intros (c & pre & post & ->). rewrite !length_app, length_replicate. lia.
Qed.

(** A run cannot start inside a shorter run of another character. *)
Lemma has_run_after n k prev c rest :
  (k < n)%nat -> c <> prev ->
  has_run n (replicate k prev ++ c :: rest) -> has_run n (c :: rest).
Proof.
  intros Hk Hne (d & pre & post & E).
  destruct (decide (k <= length pre)%nat) as [Hle|Hgt].
  - exists d, (drop k pre), post.
    apply (f_equal (drop k)) in E.
    rewrite drop_app_length' in E by (by rewrite length_replicate).
    rewrite E. by rewrite drop_app_le.
  - exfalso. apply Hne.
    assert (H1 : (pre ++ replicate n d ++ post) !! length pre = Some d).
    { rewrite lookup_app_r by lia. rewrite Nat.sub_diag.
      rewrite lookup_app_l by (rewrite length_replicate; lia).
      apply lookup_replicate_2. lia. }
    assert (H2 : (pre ++ replicate n d ++ post) !! k = Some d).
    { rewrite lookup_app_r by lia.
      rewrite lookup_app_l by (rewrite length_replicate; lia).
      apply lookup_replicate_2. lia. }
    rewrite <- E in H1, H2.
    rewrite lookup_app_l in H1 by (rewrite length_replicate; lia).
    apply lookup_replicate_1 in H1 as [-> _].
    rewrite lookup_app_r in H2 by (rewrite length_replicate; lia).
    rewrite length_replicate, Nat.sub_diag in H2. simpl in H2. congruence.
Qed.

Lemma scan_repeats_spec threshold prev count rest :
  (1 <= count < Z.max threshold 2)%Z ->
  scan_repeats threshold prev count rest = true
  <-> has_run (Z.to_nat (Z.max threshold 2))
        (replicate (Z.to_nat count) prev ++ rest).
Proof.
  revert prev count. induction rest as [|char rest IH]; intros prev count Hc.
  - simpl. split; [done|]. intros H. apply has_run_length in H.
    rewrite app_nil_r, length_replicate in H. lia.
  - simpl. destruct (Ascii.eqb char prev) eqn:E.
    + apply Ascii.eqb_eq in E. subst char.
      assert (Hsnoc : replicate (Z.to_nat count) prev ++ prev :: rest
                      = replicate (Z.to_nat (count + 1)) prev ++ rest).
      { replace (Z.to_nat (count + 1)) with (Z.to_nat count + 1)%nat by lia.
        rewrite replicate_add. simpl. by rewrite <- app_assoc. }
      rewrite Hsnoc.
      destruct (threshold <=? count + 1)%Z eqn:Ht.
      * apply Z.leb_le in Ht. split; [|done]. intros _.
        assert (Z.max threshold 2 = count + 1)%Z as -> by lia.
        by exists prev, [], rest.
      * apply Z.leb_gt in Ht. apply IH. lia.
    + apply Ascii.eqb_neq in E.
      rewrite (IH char 1%Z) by lia.
      change (Z.to_nat 1) with 1%nat. simpl replicate. simpl app.
      split.
      * intros H. clear -H.
        induction (Z.to_nat count) as [|k IHk]; [done|].
        simpl. by apply has_run_cons.
      * apply has_run_after; [lia | done].
Qed.

(** X13: [hasLongSequentialRepeat] answers [true] exactly when the text
    is a string, the threshold is positive and the text holds a run of
    [threshold] equal characters; a threshold of 1 asks for two, since
    the count is only tested after it was increased.  It answers
    [false] on anything that is not a string. *)
Theorem hasLongSequentialRepeat_spec (text : Val) (threshold : Z) :
  hasLongSequentialRepeat text threshold = true
  <-> exists s, text = VStr s /\ (0 < threshold)%Z
                /\ has_run (Z.to_nat (Z.max threshold 2)) (list_ascii_of_string s).
Proof.
  destruct text as [ | | b | n | s | i | l | fs ];
    try (split; [done | by intros (s' & [=] & _)]).
  unfold hasLongSequentialRepeat.
  remember (list_ascii_of_string s) as chars eqn:Hchars.
  split.
  - destruct (Z.of_nat (length chars) =? 0)%Z eqn:E0; [done|].
    destruct (threshold <=? 0)%Z eqn:E1; [done|].
    destruct (Z.of_nat (length chars) <? threshold)%Z eqn:E2; [done|].
    simpl. destruct chars as [|first rest]; [done|].
    apply Z.leb_gt in E1. intros H.
    apply scan_repeats_spec in H; [|lia].
    exists s. rewrite <- Hchars. by repeat split.
  - intros (s' & [= <-] & Hpos & Hrun). rewrite <- Hchars in Hrun.
    pose proof (has_run_length _ _ Hrun) as Hlen.
    assert ((Z.of_nat (length chars) =? 0)%Z = false) as -> by lia.
    assert ((threshold <=? 0)%Z = false) as -> by lia.
    assert ((Z.of_nat (length chars) <? threshold)%Z = false) as -> by lia.
    simpl. destruct chars as [|first rest]; [simpl in Hlen; lia|].
    apply scan_repeats_spec; [lia|]. exact Hrun.
Qed.

(** X14: [unwrapNestedOutput] changes its argument only when that is
    exactly [{ output: { output: v } }], and then it removes one layer
    only; it throws (the [in] operator) exactly on a primitive, [null]
    and [undefined] included. *)
Theorem unwrapNestedOutput_spec (output : Val) :
  match unwrapNestedOutput output with
  | inr result =>
      (result = output
       \/ exists v, output = VObj [("output", VObj [("output", v)])]
                    /\ result = VObj [("output", v)])
      /\ (forall v, output = VObj [("output", VObj [("output", v)])] ->
                    result = VObj [("output", v)])
  | inl _ => True
  end
  /\ ((exists e, unwrapNestedOutput output = inl e)
      <-> match output with
          | VObj _ | VArr _ | VFun _ => False
          | _ => True
          end).
Proof.
  split.
  - destruct output as [ | | b | n | s | i | l | fs ]; simpl; auto.
    + split; [by left|]. intros v. discriminate.
    + split; [by left|]. intros v. discriminate.
    + unfold unwrapNestedOutput. simpl.
      destruct (has_key "output" fs) eqn:Hk; [|split; [by left|]].
      2: { intros v [= ->]. by vm_compute in Hk. }
      unfold single_key. simpl.
      destruct fs as [|[k inner] [|kv fs']]; try (split; [by left | by intros v [=]]).
      unfold has_key in Hk. simpl in *.
      destruct (String.eqb "output" k) eqn:Ek; [|done].
      apply String.eqb_eq in Ek. subst k.
      destruct inner as [ | | b | n | s | i | l | gs ]; simpl;
        try (split; [by left | by intros v [=]]).
      destruct (has_key "output" gs) eqn:Hg; simpl;
        [|split; [by left|]].
      2: { intros v [= ->]. by vm_compute in Hg. }
      destruct gs as [|[k' v'] [|kv gs']]; simpl;
        try (split; [by left | by intros v [=]]).
      unfold has_key in Hg. simpl in Hg.
      destruct (String.eqb "output" k') eqn:Ek'; [|done].
      apply String.eqb_eq in Ek'. subst k'.
      split; [right; by exists v'|]. by intros v [= ->].
  - destruct output as [ | | b | n | s | i | l | fs ];
      try (split; [done | intros _; by eexists]);
      try (split; [by intros [e [=]] | done]).
    split; [|done]. intros [e He]. revert He.
    unfold unwrapNestedOutput. simpl.
    destruct (has_key "output" fs); [|done].
    destruct (default VUndefined (Js.lookup "output" fs));
      simpl; rewrite ?andb_false_r; simpl; try done;
      destruct (single_key (VObj fs)); simpl; try done;
      by destruct (_ && _).
Qed.

End OutputGuardProperties.

(** ** Retrying an operation *)
Section Retrying.

Context {W A : Type}.
Variable operation : W -> (Thrown + A) * W.
Variable elapse : Z -> W -> W.
Variables maxRetries delay backoff : Z.

Lemma as_Error_is_Error e : instanceof_Error (as_Error e) = true.
Proof. unfold as_Error. by destruct (instanceof_Error e) eqn:E. Qed.

Lemma retry_loop_outcome fuel attempt lastError (st : Timed W) :
  (1 <= attempt)%Z ->
  instanceof_Error lastError = true ->
  fuel = Z.to_nat (maxRetries - attempt + 1) ->
  exists r st' n,
    retry_loop operation elapse maxRetries delay backoff fuel attempt lastError st
    = Some (r, st')
    /\ calls st' = (calls st + n)%nat
    /\ (n <= fuel)%nat
    /\ waited st'
       = waited st
         ++ map (fun i => (delay * backoff ^ (attempt - 1 + Z.of_nat i))%Z)
              (seq 0 (pred n))
    /\ match r with
       | inr value =>
           (1 <= n)%nat /\ exists w, operation w = (inr value, scene st')
       | inl e =>
           instanceof_Error e = true /\ n = fuel
           /\ (fuel = 0%nat -> e = lastError /\ st' = st)
           /\ ((1 <= fuel)%nat ->
               exists w e0, operation w = (inl e0, scene st')
                            /\ e = as_Error e0)
       end.
Proof.
  revert attempt lastError st.
  induction fuel as [|fuel IH]; intros attempt lastError st Ha He Hf.
  - simpl. assert ((attempt <=? maxRetries)%Z = false) as -> by lia.
    exists (inl lastError), st, 0%nat. simpl. rewrite app_nil_r.
    split; [done|]. split; [lia|]. split; [lia|]. split; [done|].
    split; [done|]. split; [done|]. split; [done|]. lia.
  - simpl. assert ((attempt <=? maxRetries)%Z = true) as -> by lia.
    unfold call_operation.
    destruct (operation (scene st)) as [[e|v] w] eqn:Eop.
    + destruct (attempt =? maxRetries)%Z eqn:Elast.
      * apply Z.eqb_eq in Elast.
        eexists _, _, 1%nat. split; [reflexivity|]. simpl.
        rewrite app_nil_r.
        split; [lia|]. split; [lia|]. split; [done|].
        split; [apply as_Error_is_Error|]. split; [lia|]. split; [done|].
        intros _. by exists (scene st), e.
      * apply Z.eqb_neq in Elast.
        destruct (IH (attempt + 1)%Z (as_Error e)
                    (wait elapse (delay * backoff ^ (attempt - 1))
                       {| scene := w; waited := waited st;
                          calls := S (calls st) |}))
          as (r & st' & n & Hrun & Hcalls & Hle & Hwaited & Hr);
          [lia | apply as_Error_is_Error | lia |].
        rewrite Hrun. exists r, st', (S n). split; [done|].
        simpl in Hcalls, Hwaited.
        assert (Hn : (1 <= n)%nat).
        { destruct r as [e'|v'].
          - destruct Hr as (_ & -> & _). lia.
          - by destruct Hr. }
        split; [rewrite Hcalls; lia|]. split; [lia|]. split.
        { rewrite Hwaited, <- app_assoc. f_equal.
          destruct n as [|n]; [lia|]. simpl pred.
          change (seq 0 (S n)) with (0%nat :: seq 1 n).
          rewrite <- seq_shift, map_cons, map_map. simpl app.
          f_equal; [f_equal; f_equal; lia|].
          apply map_ext. intros i. f_equal. f_equal. lia. }
        destruct r as [e'|v'].
        -- destruct Hr as (He' & Hnf & _ & Hop).
           split; [done|]. split; [lia|]. split; [done|].
           intros _. apply Hop. lia.
        -- destruct Hr as [_ Hop]. split; [lia | done].
    + eexists _, _, 1%nat. split; [reflexivity|]. simpl.
      rewrite app_nil_r.
      split; [lia|]. split; [lia|]. split; [done|]. split; [lia|].
      by exists (scene st).
Qed.

(** X15: [retryOperation] always comes to an end, after at most
    [maxRetries] calls of the operation.  It returns the value of the
    call that succeeded, and throws only when all [maxRetries] calls
    have failed: then what it throws is an [Error], the last failure
    (wrapped when it was no [Error]), or [No attempts made] when
    [maxRetries] allows no call at all.  Between two calls it waits
    once, [delay * backoff ^ i] before call [i + 2], and not after the
    last one. *)
Theorem retryOperation_outcome (st : Timed W) :
  exists r st' n,
    retryOperation operation elapse maxRetries delay backoff st = Some (r, st')
    /\ calls st' = (calls st + n)%nat
    /\ (n <= Z.to_nat maxRetries)%nat
    /\ waited st' = waited st ++ backoff_delays delay backoff n
    /\ match r with
       | inr value =>
           (1 <= n)%nat /\ exists w, operation w = (inr value, scene st')
       | inl e =>
           instanceof_Error e = true /\ n = Z.to_nat maxRetries
           /\ ((maxRetries <= 0)%Z ->
               e = Error_of_text "No attempts made" /\ st' = st)
           /\ ((1 <= maxRetries)%Z ->
               exists w e0, operation w = (inl e0, scene st')
                            /\ e = as_Error e0)
       end.
Proof.
  destruct (retry_loop_outcome (Z.to_nat maxRetries) 1
              (Error_of_text "No attempts made") st)
    as (r & st' & n & Hrun & Hcalls & Hle & Hwaited & Hr);
    [lia | done | f_equal; lia |].
  exists r, st', n. split; [exact Hrun|]. split; [done|]. split; [done|].
  split.
  - rewrite Hwaited. unfold backoff_delays. f_equal.
  - destruct r as [e|v]; [|done].
    destruct Hr as (He & Hn & H0 & H1).
    split; [done|]. split; [done|]. split.
    + intros Hz. apply H0. lia.
    + intros Hpos. apply H1. lia.
Qed.

End Retrying.

(** The operation that fails twice is answered at the third attempt,
    after waits of 100 and 200. *)
Example retry_flaky :
  retryOperation flaky (fun _ w => w) 3 100 2
    {| scene := 0%nat; waited := []; calls := 0 |}
  = Some (inr (VStr "done"),
          {| scene := 3%nat; waited := [100; 200]%Z; calls := 3 |}).
Proof. reflexivity. Qed.

(** ** Texts *)
Section Texts.

Lemma string_list_length (chars : list ascii) :
  length (list_ascii_of_string (string_of_list_ascii chars)) = length chars.
Proof. by rewrite list_ascii_of_string_of_list_ascii. Qed.

(** X16: [truncateText] returns a text that fits as it is; a longer
    text comes back with exactly [maxLength] characters, a prefix of
    the text followed by the ellipsis, provided the ellipsis itself
    fits; when the ellipsis is longer than [maxLength] the result is
    the bare ellipsis, which is longer than asked for. *)
Theorem truncateText_length (text : string) (maxLength : Z) (ellipsis : string) :
  let chars := list_ascii_of_string text in
  let dots := list_ascii_of_string ellipsis in
  ((Z.of_nat (length chars) <= maxLength)%Z ->
   truncateText text maxLength ellipsis = text)
  /\ ((maxLength < Z.of_nat (length chars))%Z ->
      (Z.of_nat (length dots) <= maxLength)%Z ->
      list_ascii_of_string (truncateText text maxLength ellipsis)
      = take (Z.to_nat maxLength - length dots) chars ++ dots
      /\ Z.of_nat (length (list_ascii_of_string
                             (truncateText text maxLength ellipsis)))
         = maxLength)
  /\ ((maxLength < Z.of_nat (length chars))%Z ->
      (maxLength < Z.of_nat (length dots))%Z ->
      truncateText text maxLength ellipsis = ellipsis).
Proof.
  intros chars dots. unfold truncateText. fold chars dots.
  repeat split.
  - intros H. by assert ((Z.of_nat (length chars) <=? maxLength)%Z = true)
      as -> by lia.
  - assert ((Z.of_nat (length chars) <=? maxLength)%Z = false) as -> by lia.
    rewrite list_ascii_of_string_app, list_ascii_of_string_of_list_ascii.
    unfold substring_to. fold dots. do 2 f_equal. lia.
  - assert ((Z.of_nat (length chars) <=? maxLength)%Z = false) as -> by lia.
    rewrite list_ascii_of_string_app, list_ascii_of_string_of_list_ascii.
    unfold substring_to. fold dots.
    rewrite length_app, length_take. lia.
  - intros H1 H2.
    assert ((Z.of_nat (length chars) <=? maxLength)%Z = false) as -> by lia.
    unfold substring_to.
    replace (Z.to_nat (maxLength - Z.of_nat (length dots))) with 0%nat by lia.
    by rewrite take_0.
Qed.

Lemma dots_not_control :
  Forall (fun c => is_control c = false) (list_ascii_of_string "...").
Proof. repeat constructor. Qed.

(** X17: the text [sanitizeString] returns for a string holds none of
    the control characters [\x00-\x08], [\x0B], [\x0C], [\x0E-\x1F],
    [\x7F] (tab, line feed and carriage return are kept), and never
    more than [maxLength] characters and the three dots; a string
    without control characters that fits is returned as it is. *)
Theorem sanitizeString_clean (s : string) (maxLength : Z) :
  let result := list_ascii_of_string (sanitizeString (VStr s) maxLength) in
  Forall (fun c => is_control c = false) result
  /\ (Z.of_nat (length result) <= Z.max maxLength 0 + 3)%Z
  /\ (Forall (fun c => is_control c = false) (list_ascii_of_string s) ->
      (Z.of_nat (length (list_ascii_of_string s)) <= maxLength)%Z ->
      sanitizeString (VStr s) maxLength = s).
Proof.
  simpl. set (chars := list_ascii_of_string s).
  set (sanitized := List.filter (fun c => negb (is_control c)) chars).
  assert (Hclean : Forall (fun c => is_control c = false) sanitized).
  { apply Forall_forall. intros c Hc. apply list_elem_of_In in Hc.
    apply filter_In in Hc as [_ Hc]. by apply negb_true_iff. }
  repeat split.
  - destruct (maxLength <? Z.of_nat (length sanitized))%Z.
    + rewrite list_ascii_of_string_app, list_ascii_of_string_of_list_ascii.
      apply Forall_app. split; [|apply dots_not_control].
      unfold substring_to. by apply Forall_take.
    + by rewrite list_ascii_of_string_of_list_ascii.
  - destruct (maxLength <? Z.of_nat (length sanitized))%Z eqn:E.
    + rewrite list_ascii_of_string_app, list_ascii_of_string_of_list_ascii.
      unfold substring_to. rewrite length_app, length_take. simpl. lia.
    + rewrite list_ascii_of_string_of_list_ascii. lia.
  - intros Hall Hfit.
    assert (Hsame : sanitized = chars).
    { subst sanitized. clear Hclean Hfit.
      induction Hall as [|c l Hc _ IH]; [done|].
      simpl. by rewrite Hc, IH. }
    rewrite Hsame.
    assert ((maxLength <? Z.of_nat (length chars))%Z = false) as -> by lia.
    apply string_of_list_ascii_of_string.
Qed.

(** X18: for a duration that is not negative, [formatDuration] shows
    hours, minutes and seconds that add up to the whole seconds of the
    duration, with minutes and seconds below 60; it leaves out the
    hours, and then the minutes, when they are zero. *)
Theorem formatDuration_components (ms : Z) :
  (0 <= ms)%Z ->
  exists h m s : Z,
    (0 <= h /\ 0 <= m < 60 /\ 0 <= s < 60
     /\ h * 3600 + m * 60 + s = ms / 1000)%Z
    /\ formatDuration ms
       = if (0 <? h)%Z
         then pretty h +:+ "h " +:+ pretty m +:+ "m " +:+ pretty s +:+ "s"
         else if (0 <? m)%Z then pretty m +:+ "m " +:+ pretty s +:+ "s"
         else pretty s +:+ "s".
Proof.
  intros Hms. unfold formatDuration.
  set (seconds := (ms / 1000)%Z).
  assert (Hs : (0 <= seconds)%Z) by (apply Z.div_pos; lia).
  set (minutes := (seconds / 60)%Z).
  assert (Hm : (0 <= minutes)%Z) by (apply Z.div_pos; lia).
  set (hours := (minutes / 60)%Z).
  assert (Hh : (0 <= hours)%Z) by (apply Z.div_pos; lia).
  rewrite !Z.rem_mod_nonneg by lia.
  pose proof (Z.mod_pos_bound seconds 60 ltac:(lia)).
  pose proof (Z.mod_pos_bound minutes 60 ltac:(lia)).
  pose proof (Z.div_mod seconds 60 ltac:(lia)).
  pose proof (Z.div_mod minutes 60 ltac:(lia)).
  exists hours, (minutes mod 60)%Z, (seconds mod 60)%Z.
  split; [subst hours minutes; lia|].
  destruct (0 <? hours)%Z eqn:Eh; [done|].
  assert (hours = 0)%Z by lia.
  assert (minutes mod 60 = minutes)%Z as ->.
  { subst hours. apply Z.mod_small.
    pose proof (Z.div_small_iff minutes 60 ltac:(lia)). lia. }
  destruct (0 <? minutes)%Z eqn:Em; [done|].
  assert (minutes = 0)%Z by lia.
  assert (seconds mod 60 = seconds)%Z as ->; [|done].
  subst minutes. apply Z.mod_small.
  pose proof (Z.div_small_iff seconds 60 ltac:(lia)). lia.
Qed.

End Texts.

Lemma formatDuration_components_witness :
  exists h m s : Z,
    (0 <= h /\ 0 <= m < 60 /\ 0 <= s < 60
     /\ h * 3600 + m * 60 + s = 3725000 / 1000)%Z
    /\ formatDuration 3725000
       = if (0 <? h)%Z
         then pretty h +:+ "h " +:+ pretty m +:+ "m " +:+ pretty s +:+ "s"
         else if (0 <? m)%Z then pretty m +:+ "m " +:+ pretty s +:+ "s"
         else pretty s +:+ "s".
Proof. apply (formatDuration_components 3725000). lia. Defined.

Example formatDuration_example : formatDuration 3725000 = "1h 2m 5s".
Proof. reflexivity. Qed.

(** ** How a failure reaches the user *)
Section Failures.

Lemma includes_all_two m a b :
  includes_all (VStr m) [a; b] = inr (includes a m && includes b m).
Proof. simpl. by destruct (includes a m), (includes b m). Qed.

Lemma includes_any_two m a b :
  includes_any (VStr m) [a; b] = inr (includes a m || includes b m).
Proof. simpl. by destruct (includes a m), (includes b m). Qed.

(** X19: in the [catch] of [SapAiCoreLlm.execute], [continueOnFail]
    does not cover every failure.  An error whose message mentions a
    missing [@sap-ai-sdk/langchain] module, [authentication] or [401]
    is replaced by a fixed [NodeOperationError] and thrown even when
    the node is set to continue.  Any other error is thrown (itself,
    or what the schema check made of it) when the node is not set to
    continue, and becomes exactly one item of type [schema_error] or
    [execution_error], paired with the input item, when it is. *)
Theorem execute_catch_outcome (userMessage : Val) (i : Z) (error : Thrown)
    (m : string) :
  error_text error = VStr m ->
  (fatal m = true ->
   exists text,
     (text = llm_package_required \/ text = llm_authentication_failed)
     /\ forall continueOnFail,
          execute_catch continueOnFail userMessage i error
          = inl (NodeOperationError_of_text text))
  /\ (fatal m = false ->
      (exists e,
         execute_catch false userMessage i error = inl e
         /\ (e = error \/ throwIfInvalidToolSchema error = inl e))
      /\ exists reported kind rest,
           execute_catch true userMessage i error
           = inr (failure_item (("error", reported) :: ("type", VStr kind) :: rest) i)
           /\ (kind = "schema_error" \/ kind = "execution_error")).
Proof.
  intros Hm. unfold execute_catch, fatal. rewrite Hm.
  rewrite includes_all_two, includes_any_two.
  split.
  - intros Hf.
    destruct (includes "Cannot find module" m
              && includes "@sap-ai-sdk/langchain" m) eqn:E1.
    { exists llm_package_required. split; [by left | done]. }
    simpl in Hf. rewrite Hf.
    exists llm_authentication_failed. split; [by right | done].
  - intros Hf.
    apply orb_false_iff in Hf as [Hf H401].
    apply orb_false_iff in Hf as [Hmod Hauth].
    rewrite Hmod, Hauth, H401. simpl.
    destruct (throwIfInvalidToolSchema error) as [schemaError|[]] eqn:Es.
    + split; [exists schemaError; split; [done | by right]|].
      eexists _, _, _. split; [reflexivity | by left].
    + split; [exists error; split; [done | by left]|].
      eexists _, _, _. split; [reflexivity | by right].
Qed.

Lemma unknown_error_matches_nothing :
  includes_all (VStr "Unknown error occurred")
    ["Cannot find module"; "@sap-ai-sdk/langchain"] = inr false
  /\ includes_any (VStr "Unknown error occurred") ["authentication"; "401"]
     = inr false
  /\ includes_any (VStr "Unknown error occurred") ["deployment"; "404"]
     = inr false.
Proof. repeat split; reflexivity. Qed.

(** X20: the [catch] of [supplyData] (chat model and embeddings) turns
    every failure with a string message into a [NodeOperationError]
    with one of the node's four texts; the message of the failure only
    survives in the last of them.  A thrown value that is no [Error]
    is always reported as [Unknown error occurred], whatever it was. *)
Theorem supplyData_catch_texts (texts : NodeTexts) (error : Thrown) :
  (forall m,
     supply_errorMessage error = VStr m ->
     exists text,
       supplyData_catch texts error = NodeOperationError_of_text text
       /\ (text = package_required texts
           \/ text = authentication_failed texts
           \/ text = deployment_not_found texts
           \/ text = failed_to_initialize texts +:+ m))
  /\ (instanceof_Error error = false ->
      supplyData_catch texts error
      = NodeOperationError_of_text
          (failed_to_initialize texts +:+ "Unknown error occurred")).
Proof.
  split.
  - intros m Hm. unfold supplyData_catch. rewrite Hm.
    rewrite includes_all_two, !includes_any_two.
    destruct (_ && _); [eauto|].
    destruct (includes "authentication" m || includes "401" m); [eauto 6|].
    destruct (includes "deployment" m || includes "404" m); eauto 7.
  - intros He. unfold supplyData_catch, supply_errorMessage. rewrite He.
    destruct unknown_error_matches_nothing as (-> & -> & ->). done.
Qed.

(** X21: in [SapAiCoreEmbeddings.supplyData], with everything the host
    answers in place, an empty or blank deployment id makes the
    validation throw [Deployment ID is required ...], but that error
    never reaches the caller: its text contains the word [deployment],
    so the [catch] of the same function replaces it by [SAP AI Core
    deployment not found ...].  Incomplete credentials are reported
    under [Failed to initialize SAP AI Core Embeddings: ...]. *)
Theorem embeddings_deployment_required_is_masked (s : Supply)
    (credentials model deploymentId resourceGroup options : Val) :
  import_sdk s = inr tt ->
  getCredentials s = inr credentials ->
  get_model s = inr model ->
  get_deploymentId s = inr deploymentId ->
  get_resourceGroup s = inr resourceGroup ->
  get_options s = inr options ->
  credentials <> VUndefined -> credentials <> VNull ->
  (complete credentials = true -> blank deploymentId = inr true ->
   embeddings_body s = inl (NodeOperationError_of_text deployment_required)
   /\ embeddings_supplyData s
      = inl (NodeOperationError_of_text (deployment_not_found embeddings_texts)))
  /\ (complete credentials = false ->
      embeddings_supplyData s
      = inl (NodeOperationError_of_text
               (failed_to_initialize embeddings_texts +:+ incomplete_credentials))).
Proof.
  intros Hi Hc Hm Hd Hr Ho Hu Hn.
  assert (Hmember : member "clientId" credentials
                    = inr (Js.get "clientId" credentials)).
  { by destruct credentials. }
  unfold embeddings_supplyData, embeddings_body.
  rewrite Hi, Hc, Hm, Hd, Hr, Ho. simpl. rewrite Hmember. simpl.
  unfold complete. split.
  - intros Hcomplete Hblank.
    apply andb_true_iff in Hcomplete as [Hcomplete ->].
    apply andb_true_iff in Hcomplete as [Hcomplete ->].
    apply andb_true_iff in Hcomplete as [-> ->].
    simpl. rewrite Hblank. simpl. split; reflexivity.
  - intros Hincomplete.
    assert (negb (truthy (Js.get "clientId" credentials))
            || negb (truthy (Js.get "clientSecret" credentials))
            || negb (truthy (Js.get "oauthUrl" credentials))
            || negb (truthy (Js.get "baseUrl" credentials)) = true) as ->.
    { destruct (truthy (Js.get "clientId" credentials)),
        (truthy (Js.get "clientSecret" credentials)),
        (truthy (Js.get "oauthUrl" credentials)),
        (truthy (Js.get "baseUrl" credentials)); done. }
    reflexivity.
Qed.

End Failures.

Lemma execute_catch_outcome_witness :
  (fatal "Request failed with status code 401" = true ->
   exists text,
     (text = llm_package_required \/ text = llm_authentication_failed)
     /\ forall continueOnFail,
          execute_catch continueOnFail (VStr "Hello") 0 unauthorized
          = inl (NodeOperationError_of_text text))
  /\ (fatal "Request failed with status code 401" = false ->
      (exists e,
         execute_catch false (VStr "Hello") 0 unauthorized = inl e
         /\ (e = unauthorized \/ throwIfInvalidToolSchema unauthorized = inl e))
      /\ exists reported kind rest,
           execute_catch true (VStr "Hello") 0 unauthorized
           = inr (failure_item (("error", reported) :: ("type", VStr kind) :: rest) 0)
           /\ (kind = "schema_error" \/ kind = "execution_error")).
Proof.
  exact (execute_catch_outcome (VStr "Hello") 0 unauthorized
           "Request failed with status code 401" eq_refl).
Defined.

Lemma embeddings_deployment_required_is_masked_witness :
  embeddings_body supply_without_deployment
  = inl (NodeOperationError_of_text deployment_required)
  /\ embeddings_supplyData supply_without_deployment
     = inl (NodeOperationError_of_text (deployment_not_found embeddings_texts)).
Proof.
  apply (embeddings_deployment_required_is_masked supply_without_deployment
           demo_credentials (VStr "text-embedding-ada-002") (VStr "  ")
           (VStr "default") (VObj []));
    try reflexivity; discriminate.
Defined.

(** ** Sessions, the safe tool wrapper and output parsing *)
Section Helpers.

(** X22: [getSessionId] never returns the empty string: what it returns
    is [String(v)] of a truthy value [v] (so the number 0 is no session
    id), and in custom-key mode it is never the text [undefined]; when
    it fails it throws one of its two [NodeOperationError]s. *)
Theorem getSessionId_outcome (ctx : SessionContext) (autoSelect : string) :
  match getSessionId ctx autoSelect with
  | inr sessionId =>
      String.eqb sessionId "" = false
      /\ truthy (session_source ctx autoSelect) = true
      /\ sessionId = String_ (session_source ctx autoSelect)
      /\ (strict_eq (selectorType ctx) (VStr autoSelect) = false ->
          String.eqb sessionId "undefined" = false)
  | inl e =>
      instanceof_NodeOperationError e = true
      /\ (e = no_session_id \/ e = key_parameter_empty)
  end.
Proof.
  unfold getSessionId, session_source.
  destruct (strict_eq (selectorType ctx) (VStr autoSelect)).
  - destruct (has_getBodyData ctx).
    + set (v := Js.get "sessionId" (LogWrapper.coalesce (bodyData ctx) (VObj []))).
      unfold or_empty. destruct (truthy v) eqn:Tv.
      * destruct (String.eqb (String_ v) "") eqn:E; [by auto|]. done.
      * simpl. by auto.
    + set (v := evaluatedValue ctx).
      unfold or_empty. destruct (truthy v) eqn:Tv.
      * destruct (String.eqb (String_ v) "") eqn:E; [by auto|]. done.
      * simpl. by auto.
  - destruct (truthy (sessionKeyValue ctx)) eqn:Tv; [|simpl; by auto].
    destruct (String.eqb (String_ (sessionKeyValue ctx)) "") eqn:E1;
      [simpl; by auto|].
    destruct (String.eqb (String_ (sessionKeyValue ctx)) "undefined") eqn:E2;
      [simpl; by auto|].
    simpl. done.
Qed.

Context {W : Type}.
Variable apply_function : nat -> ToolObject -> Val -> W -> (Thrown + Val) * W.
Variable now : W -> Z.

(** X23: the function [createSafeToolWrapper] puts in the place of
    [func] and [_call] is transparent: it returns what the tool's own
    function returns, unchanged, and rethrows what it throws,
    unchanged; it leaves the world as the tool's function left it and
    logs exactly two events, the start and then the success or the
    error with the duration of the call.  The wrapper is a plain
    object: it keeps every own member of the tool other than [func]
    and [_call], and none of the members the tool has through its
    class, which read [undefined] on the wrapper. *)
Theorem safeFunc_transparent (safe id : nat) (fields proto : list (string * Val))
    (input : Val) (st : LogWrapper.State W) :
  let tool := {| own := VObj fields; inherited := proto |} in
  originalFunc tool = VFun id ->
  safeFunc apply_function now tool input st
  = (let '(r, w) := apply_function id tool input (LogWrapper.world st) in
     (r,
      {| LogWrapper.world := w;
         LogWrapper.sink := LogWrapper.sink st;
         LogWrapper.telemetry :=
           LogWrapper.telemetry st
           ++ [execution_start tool input;
               match r with
               | inr result =>
                   execution_success tool
                     (now w - now (LogWrapper.world st)) result
               | inl error =>
                   execution_error tool
                     (now w - now (LogWrapper.world st)) error
               end] |}))
  /\ exists wrapper,
       createSafeToolWrapper safe tool
       = inr {| own := VObj wrapper; inherited := [] |}
       /\ Js.lookup "func" wrapper = Some (VFun safe)
       /\ Js.lookup "_call" wrapper = Some (VFun safe)
       /\ (forall k, k <> "func" -> k <> "_call" ->
                     Js.lookup k wrapper = Js.lookup k fields)
       /\ (forall k, k <> "func" -> k <> "_call" ->
                     Js.lookup k fields = None ->
                     tool_get k {| own := VObj wrapper; inherited := [] |}
                     = VUndefined).
Proof.
  intros tool Hf. split.
  - unfold safeFunc, try_catch, bind, emit, LogWrapper.logAiEvent, call_original,
      ret, throw.
    rewrite Hf. simpl.
    destruct (apply_function id tool input (LogWrapper.world st))
      as [[e|v] w]; simpl; by rewrite <- app_assoc.
  - unfold createSafeToolWrapper. rewrite Hf. simpl. eexists. split; [done|].
    repeat split.
    + rewrite lookup_set_other by discriminate. apply lookup_set_same.
    + apply lookup_set_same.
    + intros k Hk1 Hk2. by rewrite !lookup_set_other.
    + intros k Hk1 Hk2 Hk. unfold tool_get. simpl.
      by rewrite !lookup_set_other, Hk.
Qed.

(** X24: [extractParsedOutput] never throws when the raw output is a
    string: it returns what the parser's [parse] (or, without one, its
    [parseResult]) returns, and the raw output itself when there is no
    parser, no such method, an empty output, or when the parser
    throws, in which case one [output-parsing-failed] event is logged.
    For a raw output that is a truthy non-string, a throwing parser
    makes the [catch] block itself throw a [TypeError]. *)
Theorem extractParsedOutput_outcome (outputParser : option (Parser W))
    (rawOutput : Val) (st : LogWrapper.State W) :
  (forall raw, rawOutput = VStr raw ->
     exists v st',
       extractParsedOutput outputParser rawOutput st = (inr v, st')
       /\ LogWrapper.sink st' = LogWrapper.sink st
       /\ ((v = rawOutput
            /\ (LogWrapper.telemetry st' = LogWrapper.telemetry st
                \/ exists e, LogWrapper.telemetry st'
                             = LogWrapper.telemetry st ++ [parsing_failed e raw]))
           \/ exists parser f w,
                outputParser = Some parser /\ chosen parser = Some f
                /\ f rawOutput (LogWrapper.world st) = (inr v, w)
                /\ LogWrapper.telemetry st' = LogWrapper.telemetry st))
  /\ (forall parser f e w,
        outputParser = Some parser -> chosen parser = Some f ->
        truthy rawOutput = true -> is_string rawOutput = false ->
        f rawOutput (LogWrapper.world st) = (inl e, w) ->
        exists st',
          extractParsedOutput outputParser rawOutput st
          = (inl (TypeError "rawOutput.substring is not a function"), st')).
Proof.
  split.
  - intros raw ->. destruct outputParser as [parser|].
    2: { eexists _, _. split; [reflexivity|]. split; [done|]. left. auto. }
    unfold extractParsedOutput.
    destruct (negb (truthy (VStr raw))).
    { eexists _, _. split; [reflexivity|]. split; [done|]. left. auto. }
    assert (Hcall : forall f,
              chosen parser = Some f ->
              exists v st',
                try_catch (call_method f (VStr raw))
                  (fun error =>
                     do! LogWrapper.logAiEvent
                           (event_name (parsing_failed error raw))
                           (event_data (parsing_failed error raw)) in
                     ret (VStr raw)) st = (inr v, st')
                /\ LogWrapper.sink st' = LogWrapper.sink st
                /\ ((v = VStr raw
                     /\ (LogWrapper.telemetry st' = LogWrapper.telemetry st
                         \/ exists e, LogWrapper.telemetry st'
                                      = LogWrapper.telemetry st
                                        ++ [parsing_failed e raw]))
                    \/ exists parser' f' w,
                         Some parser = Some parser' /\ chosen parser' = Some f'
                         /\ f' (VStr raw) (LogWrapper.world st) = (inr v, w)
                         /\ LogWrapper.telemetry st' = LogWrapper.telemetry st)).
    { intros f Hf. unfold try_catch, call_method, bind, LogWrapper.logAiEvent, ret.
      destruct (f (VStr raw) (LogWrapper.world st)) as [[e|v] w] eqn:Ef; simpl.
      - eexists _, _. split; [reflexivity|]. split; [done|]. left.
        split; [done|]. right. by exists e.
      - eexists _, _. split; [reflexivity|]. split; [done|]. right.
        by exists parser, f, w. }
    unfold chosen in Hcall.
    destruct (parse parser) as [f|]; [by apply Hcall|].
    destruct (parseResult parser) as [g|]; [by apply Hcall|].
    eexists _, _. split; [reflexivity|]. split; [done|]. left. auto.
  - intros parser f e w -> Hf Ht Hs Hcall.
    unfold extractParsedOutput, chosen in *. rewrite Ht. simpl.
    destruct (parse parser) as [f'|].
    + injection Hf as ->. unfold try_catch, call_method. rewrite Hcall.
      destruct rawOutput; try done; by eexists.
    + rewrite Hf. unfold try_catch, call_method. rewrite Hcall.
      destruct rawOutput; try done; by eexists.
Qed.

End Helpers.

Lemma safeFunc_transparent_witness :
  safeFunc (fun _ _ input w => (inr input, S w)) Z.of_nat calc_tool (VStr "2+2")
    {| LogWrapper.world := 10%nat; LogWrapper.sink := [];
       LogWrapper.telemetry := [] |}
  = (inr (VStr "2+2"),
     {| LogWrapper.world := 11%nat; LogWrapper.sink := [];
        LogWrapper.telemetry :=
          [execution_start calc_tool (VStr "2+2");
           execution_success calc_tool 1 (VStr "2+2")] |})
  /\ tool_get "asDynamicTool" calc_tool = VFun 9
  /\ exists wrapper,
       createSafeToolWrapper 8 calc_tool
       = inr {| own := VObj wrapper; inherited := [] |}
       /\ tool_get "name" {| own := VObj wrapper; inherited := [] |} = VStr "calc"
       /\ tool_get "func" {| own := VObj wrapper; inherited := [] |} = VFun 8
       /\ tool_get "asDynamicTool" {| own := VObj wrapper; inherited := [] |}
          = VUndefined.
Proof.
  destruct (safeFunc_transparent (fun _ _ input w => (inr input, S w)) Z.of_nat
              8 7 [("name", VStr "calc"); ("description", VStr "Adds numbers");
                   ("func", VFun 7)]
              [("asDynamicTool", VFun 9)] (VStr "2+2")
              {| LogWrapper.world := 10%nat; LogWrapper.sink := [];
                 LogWrapper.telemetry := [] |} eq_refl)
    as (Hsafe & wrapper & Hwrapper & Hfunc & Hcall & Hown & Hinherited).
  split; [exact Hsafe|]. split; [reflexivity|].
  exists wrapper. split; [exact Hwrapper|].
  split; [|split].
  - unfold tool_get. simpl. by rewrite Hown.
  - unfold tool_get. simpl. by rewrite Hfunc.
  - by apply Hinherited.
Defined.

(** ** Accounting for the loaded tools *)
Section ToolAccounting.

(** X25: the filter of [SapAiCoreLlm.execute] accounts for every tool
    discovery returned: a tool is either kept, in its place, or
    reported by exactly one entry of [toolErrors]. *)
Theorem filter_tools_accounts (tools : list Candidate) :
  (length (fst (Orchestrator.filter_tools tools))
   + length (snd (Orchestrator.filter_tools tools)) = length tools)%nat
  /\ fst (Orchestrator.filter_tools tools)
     = List.filter (fun t => fst (Orchestrator.check_tool t)) tools.
Proof.
  induction tools as [|t rest [IHlen IHkept]]; [done|].
  simpl.
  assert (Hone : fst (Orchestrator.check_tool t) = true
                 /\ snd (Orchestrator.check_tool t) = []
                 \/ fst (Orchestrator.check_tool t) = false
                    /\ exists msg, snd (Orchestrator.check_tool t) = [msg]).
  { unfold Orchestrator.check_tool.
    destruct (negb (cand_truthy t)); [right; eauto|].
    destruct (negb (truthy (cand_get "name" t))); [right; eauto|].
    destruct (_ && _); [right; eauto | left; eauto]. }
  destruct (Orchestrator.check_tool t) as [keep errs].
  destruct (Orchestrator.filter_tools rest) as [kept errs'].
  simpl in *.
  destruct Hone as [[-> ->]|[-> [msg ->]]]; simpl; split; try lia;
    by rewrite IHkept.
Qed.

End ToolAccounting.

(** ** Generated schemas *)
Section GeneratedSchemas.

Lemma generated_properties_eq fs acc :
  (fix go (fs acc : list (string * Val)) : list (string * Val) :=
     match fs with
     | [] => acc
     | (key, value) :: rest =>
         go rest (assign key (generateSchemaFromObject value) acc)
     end) fs acc
  = generated_properties fs acc.
Proof.
  revert acc. induction fs as [|[k v] fs IH]; intros acc; [done|].
  simpl. apply IH.
Qed.

Lemma generateSchemaFromObject_object fields :
  generateSchemaFromObject (VObj fields)
  = VObj [("type", VStr "object");
          ("properties", VObj (generated_properties fields []));
          ("required", VArr (map (fun kv => VStr (fst kv)) fields))].
Proof. simpl. by rewrite generated_properties_eq. Qed.

Lemma generated_is_object v : exists fields, generateSchemaFromObject v = VObj fields.
Proof. destruct v; by eexists. Qed.

Lemma has_key_In k (fields : list (string * Val)) :
  In k (map fst fields) -> has_key k fields = true.
Proof.
  unfold has_key. induction fields as [|[k' v] fields IH]; simpl; [done|].
  destruct (String.eqb k k') eqn:E; [done|].
  intros [->|Hin]; [by rewrite String.eqb_refl in E | by apply IH].
Qed.

Lemma check_required_generated fields :
  check_required (generateSchemaFromObject (VObj fields)) fields = inr tt.
Proof.
  rewrite generateSchemaFromObject_object. unfold check_required.
  assert (Js.get "required"
            (VObj [("type", VStr "object");
                   ("properties", VObj (generated_properties fields []));
                   ("required", VArr (map (fun kv => VStr (fst kv)) fields))])
          = VArr (map (fun kv => VStr (fst kv)) fields)) as -> by reflexivity.
  destruct (List.find _ _) as [missing|] eqn:E; [|done].
  apply find_some in E as [Hin Hmissing].
  apply in_map_iff in Hin as ([k v] & <- & Hin). simpl in Hmissing.
  unfold in_object in Hmissing. simpl in Hmissing.
  rewrite has_key_In in Hmissing; [done|].
  apply in_map_iff. by exists (k, v).
Qed.

(** X26: an example always validates against the schema generated from
    it: for every value [JSON.parse] can produce,
    [validateDataAgainstSchema] returns the value and the validator of
    [createSchemaValidator] reports it valid with no errors; and every
    generated schema passes [validateJsonSchema] and is returned
    unchanged by [convertToOpenApiSchema]. *)
Theorem generated_schema_accepts_its_example (example : Val) :
  match example with
  | VUndefined | VFun _ => True
  | _ =>
      validateDataAgainstSchema example (generateSchemaFromObject example)
      = inr example
      /\ validate (generateSchemaFromObject example) example = (true, [])
  end
  /\ validateJsonSchema (generateSchemaFromObject example) = true
  /\ convertToOpenApiSchema (generateSchemaFromObject example)
     = generateSchemaFromObject example.
Proof.
  split; [|split].
  - assert (Hv : match example with
                 | VUndefined | VFun _ => True
                 | _ => validateDataAgainstSchema example
                          (generateSchemaFromObject example) = inr example
                 end).
    { destruct example as [ | | b | n | s | i | l | fs ]; try done.
      pose proof (check_required_generated fs) as Hreq.
      assert (Htype : Js.get "type" (generateSchemaFromObject (VObj fs))
                      = VStr "object") by reflexivity.
      destruct (generated_is_object (VObj fs)) as [schema Hschema].
      rewrite Hschema in *.
      unfold validateDataAgainstSchema. rewrite Htype. simpl.
      by rewrite Hreq. }
    unfold validate.
    destruct example; try done; by rewrite Hv.
  - destruct example as [ | | b | n | s | i | l | fs ]; try done.
    destruct l as [|first rest]; [done|].
    cbn [generateSchemaFromObject].
    destruct (generated_is_object first) as [fields ->]. done.
  - destruct example as [ | | b | n | s | i | l | fs ]; try done.
Qed.

Lemma set_values (Q : Val -> Prop) k v (o : list (string * Val)) :
  Q v -> Forall (fun kv => Q (snd kv)) o ->
  Forall (fun kv => Q (snd kv)) (Js.set k v o).
Proof.
  intros Hv Ho. unfold Js.set. destruct (has_key k o).
  - induction Ho as [|[k' x] o Hx _ IH]; simpl; [done|].
    constructor; [|done]. simpl. by destruct (String.eqb k k').
  - apply Forall_app. split; [done|]. by constructor.
Qed.

Lemma generated_properties_values (Q : Val -> Prop) fs acc :
  Forall (fun kv => Q (generateSchemaFromObject (snd kv))) fs ->
  Forall (fun kv => Q (snd kv)) acc ->
  Forall (fun kv => Q (snd kv)) (generated_properties fs acc).
Proof.
  intros Hfs. revert acc. induction Hfs as [|[k v] fs Hv _ IH]; intros acc Hacc;
    [done|].
  simpl. apply IH. unfold assign.
  destruct (String.eqb k "__proto__"); [done|]. by apply set_values.
Qed.

Lemma set_keys (Q : string -> Prop) k v (o : list (string * Val)) :
  Q k -> Forall (fun kv => Q (fst kv)) o ->
  Forall (fun kv => Q (fst kv)) (Js.set k v o).
Proof.
  intros Hk Ho. unfold Js.set. destruct (has_key k o).
  - induction Ho as [|[k' x] o Hx _ IH]; simpl; [done|]. by constructor.
  - apply Forall_app. split; [done|]. by constructor.
Qed.

(** No generated [properties] object has a member named [__proto__]. *)
Lemma generated_properties_keys fs acc :
  Forall (fun kv => fst kv <> "__proto__") acc ->
  Forall (fun kv => fst kv <> "__proto__") (generated_properties fs acc).
Proof.
  revert acc. induction fs as [|[k v] fs IH]; intros acc Hacc; [done|].
  simpl. apply IH. unfold assign.
  destruct (String.eqb k "__proto__") eqn:E; [done|].
  apply (set_keys (fun k => k <> "__proto__")); [|done].
  by apply String.eqb_neq.
Qed.

Lemma assigned_all (l : list (string * Val)) :
  Forall (fun kv => fst kv <> "__proto__") l -> assigned l = l.
Proof.
  unfold assigned. induction 1 as [|[k v] l Hk _ IH]; [done|]. simpl in *.
  apply String.eqb_neq in Hk. by rewrite Hk, IH.
Qed.

Lemma simplify_flat_schema t :
  simplifySchemaForSapAiCore (VObj [("type", VStr t)]) = VObj [("type", VStr t)].
Proof. reflexivity. Qed.

Lemma simplify_array_schema items :
  simplifySchemaForSapAiCore items = items ->
  simplifySchemaForSapAiCore (VObj [("type", VStr "array"); ("items", items)])
  = VObj [("type", VStr "array"); ("items", items)].
Proof.
  intros Hi. rewrite simplifySchemaForSapAiCore_unfold.
  rewrite delete_keywords_absent
    by (intros k Hk; unfold deleted_keywords in Hk; simpl in Hk;
        intuition (subst; reflexivity)).
  rewrite (assign_noop "properties") by (intros x; discriminate).
  unfold assign_if_truthy.
  assert (Js.lookup "items" [("type", VStr "array"); ("items", items)]
          = Some items) as -> by reflexivity.
  destruct (truthy items); [|done]. by rewrite Hi.
Qed.

Lemma simplify_object_schema properties required :
  new_properties properties = properties ->
  simplifySchemaForSapAiCore
    (VObj [("type", VStr "object"); ("properties", properties);
           ("required", required)])
  = VObj [("type", VStr "object"); ("properties", properties);
          ("required", required)].
Proof.
  intros Hp. rewrite simplifySchemaForSapAiCore_unfold.
  rewrite delete_keywords_absent
    by (intros k Hk; unfold deleted_keywords in Hk; simpl in Hk;
        intuition (subst; reflexivity)).
  assert (Hitems : forall o,
            Js.lookup "items" o = None ->
            assign_if_truthy "items" simplifySchemaForSapAiCore o = o).
  { intros o Ho. apply assign_noop. intros x. by rewrite Ho. }
  unfold assign_if_truthy at 2.
  assert (Js.lookup "properties"
            [("type", VStr "object"); ("properties", properties);
             ("required", required)] = Some properties) as -> by reflexivity.
  destruct (truthy properties).
  - rewrite Hp. by rewrite Hitems.
  - by rewrite Hitems.
Qed.

(** X27: a generated schema is already in the form
    [simplifySchemaForSapAiCore] produces: simplifying it changes
    nothing, at any depth. *)
Theorem simplify_leaves_generated_schema (example : Val) :
  simplifySchemaForSapAiCore (generateSchemaFromObject example)
  = generateSchemaFromObject example.
Proof.
  induction example as [ | | b | n | s | i | l IH | fs IH ] using Val_ind';
    try reflexivity.
  - destruct l as [|first rest]; [reflexivity|].
    cbn [generateSchemaFromObject].
    apply simplify_array_schema. by inversion IH.
  - rewrite generateSchemaFromObject_object.
    apply simplify_object_schema.
    unfold new_properties. simpl entries. f_equal.
    rewrite assigned_all by (by apply generated_properties_keys).
    assert (Hvalues : Forall (fun kv => simplifySchemaForSapAiCore (snd kv) = snd kv)
                        (generated_properties fs [])).
    { by apply (generated_properties_values
                  (fun v => simplifySchemaForSapAiCore v = v)). }
    induction Hvalues as [|[k v] ps Hv _ IHps]; [done|].
    simpl in *. by rewrite Hv, IHps.
Qed.

End GeneratedSchemas.

(** ** Converted tools *)
Section ConvertedTools.

Variable zodToJsonSchema : Val -> Thrown + Val.

Lemma filter_valid_present tools :
  forallb present tools = true ->
  filter_valid zodToJsonSchema tools
  = inr (List.filter (valid_tool zodToJsonSchema) tools).
Proof.
  induction tools as [|t rest IH]; [done|]. simpl.
  intros H. apply andb_true_iff in H as [Ht Hrest].
  rewrite (IH Hrest). unfold valid_tool.
  destruct (validateSapAiCoreTool zodToJsonSchema t) as [e|keep] eqn:E; [|done].
  exfalso. unfold validateSapAiCoreTool in E.
  destruct t; try done; simpl in E; by repeat case_match.
Qed.

(** What [formatToSapAiCoreTool] does with a tool that passed
    [validateSapAiCoreTool]: a declared schema was converted once
    already, a missing one makes it convert the empty object. *)
Lemma format_valid_tool t :
  valid_tool zodToJsonSchema t = true ->
  exists n,
    Js.get "name" t = VStr n /\ n <> ""
    /\ if truthy (Js.get "schema" t)
       then exists parameters,
              formatToSapAiCoreTool zodToJsonSchema t
              = inr (function_tool t parameters)
       else formatToSapAiCoreTool zodToJsonSchema t
            = match zodToJsonSchema (VObj []) with
              | inr parameters => inr (function_tool t parameters)
              | inl e => inl e
              end.
Proof.
  unfold valid_tool, validateSapAiCoreTool, formatToSapAiCoreTool.
  destruct (Nodes.member "name" t) as [e|name] eqn:Em; [done|].
  assert (Hname : name = Js.get "name" t /\ Nodes.member "schema" t
                                            = inr (Js.get "schema" t)).
  { destruct t; try done; by injection Em as <-. }
  destruct Hname as [-> ->]. simpl.
  destruct (Js.get "name" t) as [ | |b|z|n|i|l|fs] eqn:En; simpl;
    rewrite ?orb_true_r; try done.
  destruct (String.eqb n "") eqn:Enn; simpl; [done|].
  apply String.eqb_neq in Enn.
  destruct (negb (truthy (Js.get "description" t))
            || negb (is_string (Js.get "description" t))); [done|].
  intros Hvalid. exists n. split; [done|]. split; [done|].
  destruct (truthy (Js.get "schema" t)).
  - destruct (zodToJsonSchema (Js.get "schema" t)) as [e|schema]; [done|].
    exists schema. unfold function_tool. by rewrite En.
  - destruct (zodToJsonSchema (VObj [])) as [e|schema]; [done|].
    unfold function_tool. by rewrite En.
Qed.

Lemma function_name_formatted t parameters :
  function_name (function_tool t parameters) = inr (Js.get "name" t).
Proof. reflexivity. Qed.

(** The first valid tool without a schema stops the conversion. *)
Lemma format_all_undeclared valid e :
  Forall (fun t => valid_tool zodToJsonSchema t = true) valid ->
  zodToJsonSchema (VObj []) = inl e ->
  Exists (fun t => truthy (Js.get "schema" t) = false) valid ->
  format_all zodToJsonSchema valid = inl e.
Proof.
  intros Hvalid Hempty. induction Hvalid as [|t valid Ht _ IH]; intros Hsome.
  { inversion Hsome. }
  destruct (format_valid_tool t Ht) as (n & _ & _ & Hformat).
  cbn [format_all].
  destruct (truthy (Js.get "schema" t)) eqn:Eschema.
  - destruct Hformat as [parameters ->]. cbn [Nodes.and_then].
    rewrite IH; [done|].
    inversion Hsome as [? ? Hhead|]; subst; [|done].
    by rewrite Eschema in Hhead.
  - by rewrite Hformat, Hempty.
Qed.

(** X28: [convertToolsToSapAiCoreFormat] on a list of tools, none of
    them [null] or [undefined].  When every tool that passes
    [validateSapAiCoreTool] declares a schema, the conversion does not
    throw: the result holds one [function] entry for each of these
    tools, in order; [extractToolNames] reads back exactly their names,
    and [findToolByName] finds, for the name of each of them, an entry
    carrying that name.  A tool without a schema passes the validation
    all the same, and the conversion then hands the empty object to
    [zodToJsonSchema]: when that throws, the whole conversion throws
    the same exception. *)
Theorem converted_tools_are_found (tools : list Val) :
  forallb present tools = true ->
  (Forall (fun tool => truthy (Js.get "schema" tool) = true)
     (List.filter (valid_tool zodToJsonSchema) tools) ->
   exists formatted,
     convertToolsToSapAiCoreFormat zodToJsonSchema tools = inr formatted
     /\ Forall2 (fun tool entry => exists parameters,
                   entry = function_tool tool parameters)
          (List.filter (valid_tool zodToJsonSchema) tools) formatted
     /\ extractToolNames formatted
        = inr (map (Js.get "name")
                 (List.filter (valid_tool zodToJsonSchema) tools))
     /\ forall tool,
          In tool (List.filter (valid_tool zodToJsonSchema) tools) ->
          exists entry parameters,
            findToolByName formatted (Js.get "name" tool)
            = inr (function_tool entry parameters)
            /\ Js.get "name" entry = Js.get "name" tool)
  /\ (forall e,
        zodToJsonSchema (VObj []) = inl e ->
        Exists (fun tool => truthy (Js.get "schema" tool) = false)
          (List.filter (valid_tool zodToJsonSchema) tools) ->
        convertToolsToSapAiCoreFormat zodToJsonSchema tools = inl e).
Proof.
  intros Hpresent.
  unfold convertToolsToSapAiCoreFormat.
  rewrite filter_valid_present by done. cbn [Nodes.and_then].
  assert (Hvalid : Forall (fun t => valid_tool zodToJsonSchema t = true)
                     (List.filter (valid_tool zodToJsonSchema) tools)).
  { apply Forall_forall. intros t Ht. apply list_elem_of_In in Ht.
    by apply filter_In in Ht as [_ Ht]. }
  split; [|intros e Hempty Hsome; by apply format_all_undeclared].
  intros Hdeclared.
  induction Hvalid as [|t valid Ht Hrest IH].
  { exists []. repeat split; first [done | constructor]. }
  inversion Hdeclared as [|? ? Hschema Hothers]; subst.
  destruct (IH Hothers) as (formatted & Hfmt & Hshape & Hnames & Hfind).
  destruct (format_valid_tool t Ht) as (n & Hn & Hne & Hformat).
  rewrite Hschema in Hformat. destruct Hformat as [parameters Hformat].
  exists (function_tool t parameters :: formatted).
  split; [simpl; by rewrite Hformat, Hfmt|].
  split; [constructor; [by exists parameters | done]|].
  split.
  - assert (Htruthy : truthy (VStr n) = true).
    { simpl. apply negb_true_iff. by apply String.eqb_neq. }
    unfold extractToolNames in *. cbn [names_of].
    rewrite function_name_formatted.
    destruct (names_of formatted) as [e|ns]; [done|].
    cbn [Nodes.and_then] in *. injection Hnames as Hnames.
    rewrite Hn, Htruthy. cbn [List.filter]. rewrite Htruthy.
    cbn [map]. by rewrite Hnames, Hn.
  - assert (Hnamed : forall name,
              named name (function_tool t parameters)
              = inr (strict_eq (VStr n) name || strict_eq VUndefined name)).
    { intros name. unfold named. rewrite function_name_formatted.
      cbn [Nodes.and_then]. rewrite Hn. reflexivity. }
    intros tool [<-|Hin].
    + exists t, parameters. cbn [findToolByName]. rewrite Hnamed, Hn.
      simpl. by rewrite String.eqb_refl.
    + cbn [findToolByName]. rewrite Hnamed. cbn [Nodes.and_then].
      destruct (strict_eq (VStr n) (Js.get "name" tool)
                || strict_eq VUndefined (Js.get "name" tool)) eqn:Esame.
      * exists t, parameters. split; [done|].
        rewrite Forall_forall in Hrest.
        apply list_elem_of_In in Hin.
        destruct (format_valid_tool tool (Hrest _ Hin)) as (m & Hm & _ & _).
        rewrite Hm in *. simpl in Esame.
        rewrite orb_false_r in Esame. apply String.eqb_eq in Esame.
        by rewrite Hn, Esame.
      * by apply Hfind.
Qed.

End ConvertedTools.

Lemma converted_tools_are_found_witness :
  (exists formatted,
     convertToolsToSapAiCoreFormat zod_like declared_tools = inr formatted
     /\ extractToolNames formatted = inr [VStr "search"; VStr "calc"])
  /\ convertToolsToSapAiCoreFormat zod_like two_tools
     = inl (TypeError "Cannot read properties of undefined (reading 'typeName')").
Proof.
  split.
  - destruct (proj1 (converted_tools_are_found zod_like declared_tools eq_refl))
      as (formatted & Hconverted & _ & Hnames & _).
    { repeat constructor. }
    exists formatted. split; [exact Hconverted | exact Hnames].
  - apply (proj2 (converted_tools_are_found zod_like two_tools eq_refl)).
    + reflexivity.
    + left. reflexivity.
Defined.

Example convert_declared_tools :
  convertToolsToSapAiCoreFormat zod_like declared_tools
  = inr [function_tool (VObj [("name", VStr "search");
                              ("description", VStr "Searches")])
           (VObj [("type", VStr "object")]);
         function_tool (VObj [("name", VStr "calc"); ("description", VStr "Adds")])
           (VObj [("type", VStr "object")])].
Proof. reflexivity. Qed.

(** ** Requiring all properties of a generated schema *)
Section RequiredProperties.

Lemma makeAllPropertiesRequired_unfold fields :
  makeAllPropertiesRequired (VObj fields)
  = VObj (require_items (require_object fields)).
Proof.
  cbn [makeAllPropertiesRequired].
  match goal with
  | |- context [lookup_child "properties" (?f fields)] =>
      assert (Hch : forall fs,
                 f fs = map (fun kv => (fst kv, (makeAllPropertiesRequired (snd kv),
                                                 required_properties (snd kv)))) fs)
  end.
  { induction fs as [|[k v] fs IH]; [done|].
    rewrite IH. simpl map. do 3 f_equal.
    destruct v as [ | | b | n | s | i | l | ps ]; try done.
    unfold required_properties. f_equal.
    induction ps as [|[k' x] ps IHps]; [done|]. simpl. by rewrite IHps. }
  rewrite !Hch.
  rewrite !(lookup_child_map
              (fun v => (makeAllPropertiesRequired v, required_properties v))).
  f_equal. unfold require_items, require_object.
  assert (Hitems : forall o,
            Js.lookup "items" o = Js.lookup "items" fields ->
            match Js.lookup "items" o,
                  (fun v => (makeAllPropertiesRequired v, required_properties v))
                    <$> Js.lookup "items" fields with
            | Some it, Some (it', _) =>
                if strict_eq (Js.get "type" (VObj o)) (VStr "array")
                   && truthy it && isPropertySchema it
                then Js.set "items" it' o else o
            | _, _ => o
            end
            = match Js.lookup "items" o with
              | Some it =>
                  if strict_eq (Js.get "type" (VObj o)) (VStr "array")
                     && truthy it && isPropertySchema it
                  then Js.set "items" (makeAllPropertiesRequired it) o else o
              | None => o
              end).
  { intros o Ho. rewrite <- Ho. by destruct (Js.lookup "items" o). }
  destruct (Js.lookup "properties" fields) as [p|] eqn:Ep; simpl.
  2: { by apply Hitems. }
  destruct (strict_eq (default VUndefined (Js.lookup "type" fields)) (VStr "object")
            && truthy p).
  2: { by apply Hitems. }
  apply Hitems.
  rewrite lookup_set_other by discriminate.
  destruct (map (fun kv => VStr (fst kv)) (entries p)); [done|].
  by rewrite lookup_set_other by discriminate.
Qed.

Lemma makeAll_flat_schema t :
  makeAllPropertiesRequired (VObj [("type", VStr t)]) = VObj [("type", VStr t)].
Proof. reflexivity. Qed.

Lemma makeAll_array_schema items :
  makeAllPropertiesRequired items = items ->
  makeAllPropertiesRequired (VObj [("type", VStr "array"); ("items", items)])
  = VObj [("type", VStr "array"); ("items", items)].
Proof.
  intros Hi. rewrite makeAllPropertiesRequired_unfold.
  assert (require_object [("type", VStr "array"); ("items", items)]
          = [("type", VStr "array"); ("items", items)]) as -> by reflexivity.
  unfold require_items.
  assert (Js.lookup "items" [("type", VStr "array"); ("items", items)]
          = Some items) as -> by reflexivity.
  destruct (_ && _); [|done]. by rewrite Hi.
Qed.

Lemma makeAll_object_schema (ps : list (string * Val)) :
  Forall (fun kv => makeAllPropertiesRequired (snd kv) = snd kv) ps ->
  makeAllPropertiesRequired
    (VObj [("type", VStr "object"); ("properties", VObj ps);
           ("required", VArr (map (fun kv => VStr (fst kv)) ps))])
  = VObj [("type", VStr "object"); ("properties", VObj ps);
          ("required", VArr (map (fun kv => VStr (fst kv)) ps))].
Proof.
  intros Hps. rewrite makeAllPropertiesRequired_unfold.
  assert (Hfixed : required_properties (VObj ps) = VObj ps).
  { unfold required_properties. f_equal.
    induction Hps as [|[k v] ps Hv _ IH]; [done|].
    simpl in *. rewrite IH. by destruct (isPropertySchema v); rewrite ?Hv. }
  assert (Hobject : require_object
                      [("type", VStr "object"); ("properties", VObj ps);
                       ("required", VArr (map (fun kv => VStr (fst kv)) ps))]
                    = [("type", VStr "object"); ("properties", VObj ps);
                       ("required", VArr (map (fun kv => VStr (fst kv)) ps))]).
  { unfold require_object.
    assert (Js.lookup "properties"
              [("type", VStr "object"); ("properties", VObj ps);
               ("required", VArr (map (fun kv => VStr (fst kv)) ps))]
            = Some (VObj ps)) as -> by reflexivity.
    assert (strict_eq
              (Js.get "type"
                 (VObj [("type", VStr "object"); ("properties", VObj ps);
                        ("required", VArr (map (fun kv => VStr (fst kv)) ps))]))
              (VStr "object") && truthy (VObj ps) = true) as -> by reflexivity.
    rewrite Hfixed. simpl entries.
    by destruct (map (fun kv => VStr (fst kv)) ps). }
  rewrite Hobject. reflexivity.
Qed.

Lemma plain_array l : plain (VArr l) = true -> Forall (fun x => plain x = true) l.
Proof.
  simpl. induction l as [|x l IH]; [by constructor|].
  intros H. apply andb_true_iff in H as [Hx Hl]. constructor; auto.
Qed.

Lemma plain_object fs :
  plain (VObj fs) = true ->
  NoDup (map fst fs)
  /\ Forall (fun kv => fst kv <> "__proto__" /\ plain (snd kv) = true) fs.
Proof.
  simpl. intros H. apply andb_true_iff in H as [Hnd Hfs]. split.
  { by apply bool_decide_eq_true_1 in Hnd. }
  clear Hnd. induction fs as [|[k x] fs IH]; [by constructor|].
  apply andb_true_iff in Hfs as [Hkx Hfs].
  apply andb_true_iff in Hkx as [Hk Hx].
  constructor; [|by apply IH]. split; [|done]. simpl.
  apply negb_true_iff in Hk. by apply String.eqb_neq.
Qed.

Lemma has_key_false k (o : list (string * Val)) :
  k ∉ map fst o -> has_key k o = false.
Proof.
  unfold has_key. induction o as [|[k' v] o IH]; simpl; [done|].
  intros Hnotin. destruct (String.eqb k k') eqn:E.
  - apply String.eqb_eq in E. subst. exfalso. apply Hnotin. by left.
  - apply IH. intros Hin. apply Hnotin. by right.
Qed.

(** Without repeated keys and without [__proto__], the loop appends one
    property per member. *)
Lemma generated_properties_plain fs acc :
  NoDup (map fst acc ++ map fst fs) ->
  Forall (fun kv => fst kv <> "__proto__") fs ->
  generated_properties fs acc
  = acc ++ map (fun kv => (fst kv, generateSchemaFromObject (snd kv))) fs.
Proof.
  revert acc. induction fs as [|[k v] fs IH]; intros acc Hnd Hproto.
  { by rewrite app_nil_r. }
  inversion Hproto as [|? ? Hk Hrest]; subst. simpl in Hk.
  simpl. unfold assign.
  assert (String.eqb k "__proto__" = false) as -> by by apply String.eqb_neq.
  unfold Js.set. rewrite has_key_false.
  2: { apply NoDup_app in Hnd as (_ & Hdisj & _). intros Hin.
       apply (Hdisj k Hin). by left. }
  rewrite IH; [by rewrite <- app_assoc | | done].
  rewrite map_app. simpl. rewrite <- app_assoc. exact Hnd.
Qed.

(** X29: [allFieldsRequired] makes no difference: the schema generated
    from an example already lists every property of every object as
    required, so [makeAllPropertiesRequired] returns it unchanged and
    [generateSchemaFromExample] gives the same schema with the option
    on and off (for an example in which no object repeats a key or has
    a member named [__proto__]). *)
Theorem allFieldsRequired_changes_nothing (example : Val) :
  plain example = true ->
  makeAllPropertiesRequired (generateSchemaFromObject example)
  = generateSchemaFromObject example
  /\ generateSchemaFromExample (inr example) true
     = generateSchemaFromExample (inr example) false.
Proof.
  intros Hplain.
  assert (H : makeAllPropertiesRequired (generateSchemaFromObject example)
              = generateSchemaFromObject example).
  { induction example as [ | | b | n | s | i | l IH | fs IH ] using Val_ind';
      try reflexivity.
    - destruct l as [|first rest]; [reflexivity|].
      cbn [generateSchemaFromObject]. apply makeAll_array_schema.
      apply plain_array in Hplain.
      inversion IH; subst. inversion Hplain; subst. auto.
    - apply plain_object in Hplain as [Hnd Hmembers].
      rewrite generateSchemaFromObject_object.
      rewrite (generated_properties_plain fs []); [simpl app | done |].
      2: { eapply Forall_impl; [exact Hmembers|]. by intros kv [Hk _]. }
      assert (map (fun kv : string * Val => VStr (fst kv)) fs
              = map (fun kv : string * Val => VStr (fst kv))
                  (map (fun kv => (fst kv, generateSchemaFromObject (snd kv))) fs))
        as -> by (by rewrite map_map).
      apply makeAll_object_schema.
      apply Forall_map. simpl.
      rewrite Forall_forall in IH, Hmembers. apply Forall_forall.
      intros kv Hkv. apply IH; [done|]. by apply Hmembers. }
  split; [exact H|]. simpl. by rewrite H.
Qed.

End RequiredProperties.

Lemma allFieldsRequired_changes_nothing_witness :
  makeAllPropertiesRequired (generateSchemaFromObject order_example)
  = generateSchemaFromObject order_example
  /\ generateSchemaFromExample (inr order_example) true
     = generateSchemaFromExample (inr order_example) false.
Proof.
  apply (allFieldsRequired_changes_nothing order_example).
  vm_compute. reflexivity.
Defined.
